(** * OpenSesame helper service: relay queue, agent wrapper, date/time resolver

    A shallow embedding of the parts of the helper service (the Express
    server with its LangChain tools) that the specification talks about:

    - [parseDateTimeString], the natural-language date/time resolver,
      together with the JavaScript [Date] operations it relies on;
    - the end-time computation of the [create_calendar_event] tool;
    - the [pendingTabRequests] table with the tools that enqueue into it
      ([open_new_tab], [navigate_browser], [take_screenshot]) and the
      [POST /tab-requests/:id/complete] handler;
    - the wrapper that [createAgent] installs around [agent.call];
    - the keystrokes that [create_calendar_event] sends to the page;

    and of the browser extension that serves the table:

    - the poller of [background.js] ([startTabRequestPolling]), which
      lists the table through [GET /tab-requests], captures screenshots
      under a rate limit or opens tabs, and posts the completions.

    Conventions of the embedding.  JavaScript strings are Rocq [string]s;
    the character classes [\d] and [\w] have their (ASCII) extent, [\s] is
    the white space below code unit 256, and [toLowerCase]/[toUpperCase]
    act on the ASCII letters.  JavaScript numbers that hold integers are [Z].
    A [Date] is its time value in local-time milliseconds (the zone offset
    is taken constant, so the local fields are functions of that value);
    a time value beyond the range of valid dates stands for an invalid
    [Date] (see [validTime]).  *)

From Stdlib Require Import ZArith Lia List Bool Ascii String.
From Stdlib Require Import DecimalString DecimalZ DecimalPos.
From stdpp Require Import base option gmap strings.

Local Open Scope string_scope.
Local Open Scope Z_scope.

(** ** JavaScript strings *)

Module JsString.

Definition code (c : ascii) : Z := Z.of_nat (nat_of_ascii c).

Definition isDigit (c : ascii) : bool :=
  (48 <=? code c) && (code c <=? 57).

Definition isUpper (c : ascii) : bool :=
  (65 <=? code c) && (code c <=? 90).

Definition isLower (c : ascii) : bool :=
  (97 <=? code c) && (code c <=? 122).

(** [\w] is [[A-Za-z0-9_]]. *)
Definition isWord (c : ascii) : bool :=
  isDigit c || isUpper c || isLower c || (code c =? 95).

(** [\s]: TAB, LF, VT, FF, CR, SPACE and NBSP. *)
Definition isSpace (c : ascii) : bool :=
  ((9 <=? code c) && (code c <=? 13)) || (code c =? 32) || (code c =? 160).

Definition lowerChar (c : ascii) : ascii :=
  if isUpper c then ascii_of_nat (nat_of_ascii c + 32) else c.

Definition upperChar (c : ascii) : ascii :=
  if isLower c then ascii_of_nat (nat_of_ascii c - 32) else c.

Fixpoint map (f : ascii -> ascii) (s : string) : string :=
  match s with
  | EmptyString => EmptyString
  | String c s' => String (f c) (map f s')
  end.

Definition toLowerCase : string -> string := map lowerChar.
Definition toUpperCase : string -> string := map upperChar.

(** [s.startsWith(p)]. *)
Fixpoint startsWith (s p : string) : bool :=
  match p, s with
  | EmptyString, _ => true
  | String a p', String b s' => Ascii.eqb a b && startsWith s' p'
  | String _ _, EmptyString => false
  end.

(** [s.includes(p)]. *)
Fixpoint includes (s p : string) : bool :=
  startsWith s p ||
  match s with
  | EmptyString => false
  | String _ s' => includes s' p
  end.

(** The rest of [s] after the literal [p], compared without regard to
    case (a literal under the [/i] flag). *)
Fixpoint stripCI (p s : string) : option string :=
  match p, s with
  | EmptyString, _ => Some s
  | String a p', String b s' =>
      if Ascii.eqb (lowerChar a) (lowerChar b) then stripCI p' s' else None
  | String _ _, EmptyString => None
  end.

Fixpoint takeWhile (f : ascii -> bool) (s : string) : string :=
  match s with
  | EmptyString => EmptyString
  | String c s' => if f c then String c (takeWhile f s') else EmptyString
  end.

Fixpoint dropWhile (f : ascii -> bool) (s : string) : string :=
  match s with
  | EmptyString => EmptyString
  | String c s' => if f c then dropWhile f s' else s
  end.

Definition isEmpty (s : string) : bool :=
  match s with EmptyString => true | _ => false end.

(** [s.substring(0, 3)]. *)
Definition substring3 (s : string) : string := String.substring 0 3 s.

(** [parseInt] on the strings the resolver hands to it: the text of a
    capture group of decimal digits, or a literal default.  It reads the
    leading decimal digits.  The result is the integer written; JavaScript
    returns the nearest double, which is that integer up to 2^53: a
    statement in which the input can write a larger number bounds it (see
    [validTime]). *)
Fixpoint parseDigits (acc : Z) (s : string) : Z :=
  match s with
  | EmptyString => acc
  | String c s' =>
      if isDigit c then parseDigits (10 * acc + (code c - 48)) s' else acc
  end.

Definition parseInt (s : string) : Z := parseDigits 0 s.

(** [n.toString()] for an integer [n]. *)
Definition toString (n : Z) : string := NilZero.string_of_int (Z.to_int n).

(** [s.padStart(2, '0')]. *)
Definition padStart2 (s : string) : string :=
  match s with
  | EmptyString => "00"
  | String c EmptyString => String "0"%char s
  | _ => s
  end.

(** [a || b] on strings that may be undefined: the empty string is falsy. *)
Definition orDefault (a : option string) (b : string) : string :=
  match a with
  | Some s => if isEmpty s then b else s
  | None => b
  end.

End JsString.

Import JsString.

(** ** Time of day: the time regular expression and what follows it *)

Record TargetTime := mkTime {
  hour : Z;
  minute : Z;
  period : string
}.

(** The result of [dateTimeStr.match(...)] for the time expression: the
    matched text and the three capture groups. *)
Record TimeMatch := mkTimeMatch {
  tm_full : string;
  tm_hour : option string;
  tm_minute : option string;
  tm_period : option string
}.

Definition orElse {A} (a b : option A) : option A :=
  match a with Some _ => a | None => b end.

(** The optional [(?:at\s+)] in front of each alternative: the text it
    consumed and the rest, when it matches. *)
Definition atPrefix (s : string) : option (string * string) :=
  match stripCI "at" s with
  | Some r =>
      let ws := takeWhile isSpace r in
      if isEmpty ws then None
      else Some (String.substring 0 2 s ++ ws, dropWhile isSpace r)
  | None => None
  end.

(** [\s*(am|pm|AM|PM)] under [/i], after the hour and the optional
    minutes.  [\s*] is greedy; giving white space back cannot help, since
    the meridiem does not start with white space. *)
Definition timeTail (pre hh : string) (mm : option string) (s : string)
  : option TimeMatch :=
  let ws := takeWhile isSpace s in
  let r := dropWhile isSpace s in
  let ap := String.substring 0 2 r in
  let mtext := match mm with Some m => ":" ++ m | None => "" end in
  if String.eqb (toLowerCase ap) "am" || String.eqb (toLowerCase ap) "pm"
  then Some (mkTimeMatch (pre ++ hh ++ mtext ++ ws ++ ap) (Some hh) mm (Some ap))
  else None.

(** [(?::(\d{2}))?] followed by the tail: first with the group, then
    without it. *)
Definition timeMinutes (pre hh : string) (s : string) : option TimeMatch :=
  orElse
    match s with
    | String ":" (String d1 (String d2 r)) =>
        if isDigit d1 && isDigit d2
        then timeTail pre hh (Some (String d1 (String d2 ""))) r
        else None
    | _ => None
    end
    (timeTail pre hh None s).

(** [(\d{1,2})] followed by the rest: two digits first, then one. *)
Definition timeHour (pre : string) (s : string) : option TimeMatch :=
  match s with
  | String d1 s1 =>
      if isDigit d1 then
        orElse
          match s1 with
          | String d2 s2 =>
              if isDigit d2
              then timeMinutes pre (String d1 (String d2 "")) s2
              else None
          | EmptyString => None
          end
          (timeMinutes pre (String d1 "") s1)
      else None
  | EmptyString => None
  end.

(** An alternative with its optional [at] prefix: first with the prefix,
    then without it. *)
Definition withAt (k : string -> string -> option TimeMatch) (s : string)
  : option TimeMatch :=
  orElse
    match atPrefix s with
    | Some (pre, r) => k pre r
    | None => None
    end
    (k "" s).

Definition timeWord (w : string) (pre s : string) : option TimeMatch :=
  match stripCI w s with
  | Some _ =>
      Some (mkTimeMatch (pre ++ String.substring 0 (String.length w) s)
              None None None)
  | None => None
  end.

(** The three alternatives at one start position, in their order. *)
Definition timeRegexAt (s : string) : option TimeMatch :=
  orElse (withAt timeHour s)
    (orElse (withAt (timeWord "noon") s) (withAt (timeWord "midnight") s)).

(** [str.match(re)] for a regular expression without the [g] flag: the
    match at the leftmost start position that has one. *)
Fixpoint matchFirst {A} (matchAt : string -> option A) (s : string) : option A :=
  match matchAt s with
  | Some m => Some m
  | None =>
      match s with
      | EmptyString => None
      | String _ s' => matchFirst matchAt s'
      end
  end.

(** [dateTimeStr.match(/(?:at\s+)?(\d{1,2})(?::(\d{2}))?\s*(am|pm|AM|PM)|(?:at\s+)?noon|(?:at\s+)?midnight/i)]. *)
Definition timeRegex (s : string) : option TimeMatch := matchFirst timeRegexAt s.

(** The time part of [parseDateTimeString] (the code after the date
    branches); [None] is JavaScript's [null]. *)
Definition parseTime (dateTimeStr : string) : option TargetTime :=
  match timeRegex dateTimeStr with
  | Some timeMatch =>
      let fullMatch := toLowerCase (tm_full timeMatch) in
      if includes fullMatch "noon" then Some (mkTime 12 0 "PM")
      else if includes fullMatch "midnight" then Some (mkTime 12 0 "AM")
      else
        let hour := parseInt (orDefault (tm_hour timeMatch) "12") in
        let minute := parseInt (orDefault (tm_minute timeMatch) "0") in
        let period := toUpperCase (orDefault (tm_period timeMatch) "") in
        let finalPeriod :=
          if isEmpty period then
            if hour =? 12 then "PM"
            else if (1 <=? hour) && (hour <=? 6) then "PM"
            else if (7 <=? hour) && (hour <=? 11) then "AM"
            else "PM"
          else period in
        Some (mkTime hour minute finalPeriod)
  | None => None
  end.

(** ** End time of a calendar event ([create_calendar_event]) *)

Definition endTime (targetTime : TargetTime) : TargetTime :=
  let endHour := hour targetTime in
  let endPeriod := period targetTime in
  let '(endHour, endPeriod) :=
    if (endHour =? 12) && String.eqb (period targetTime) "AM" then (1, "AM")
    else if (endHour =? 11) && String.eqb (period targetTime) "AM"
    then (12, "PM")
    else if (endHour =? 12) && String.eqb (period targetTime) "PM"
    then (1, "PM")
    else if (endHour =? 11) && String.eqb (period targetTime) "PM"
    then (12, "AM")
    else if String.eqb (period targetTime) "AM" then (endHour + 1, endPeriod)
    else (endHour + 1, endPeriod) in
  (* the end-time text is built from [endHour], [targetTime.minute] and
     [endPeriod] *)
  mkTime endHour (minute targetTime) endPeriod.

(** [`${hour}:${minute.toString().padStart(2, '0')} ${period}`], the text
    typed into the start-time and (for the end time) end-time fields. *)
Definition timeString (t : TargetTime) : string :=
  toString (hour t) ++ ":" ++ padStart2 (toString (minute t))
    ++ " " ++ period t.

Definition startTimeString (targetTime : TargetTime) : string :=
  timeString targetTime.

Definition endTimeString (targetTime : TargetTime) : string :=
  timeString (endTime targetTime).

(** The minute of the day that a 12-hour clock reading stands for. *)
Definition minuteOfDay (t : TargetTime) : Z :=
  ((hour t) mod 12 + (if String.eqb (period t) "PM" then 12 else 0)) * 60
  + minute t.

(** ** JavaScript [Date]

    The day and year arithmetic of ECMAScript (section "Time Values and
    Time Range"), on which the getters and setters are defined. *)

Module JsDate.

Definition msPerDay : Z := 86400000.

Definition Day (t : Z) : Z := t / msPerDay.
Definition TimeWithinDay (t : Z) : Z := t mod msPerDay.

Definition DaysInYear (y : Z) : Z :=
  if negb (y mod 4 =? 0) then 365
  else if negb (y mod 100 =? 0) then 366
  else if negb (y mod 400 =? 0) then 365
  else 366.

Definition DayFromYear (y : Z) : Z :=
  365 * (y - 1970) + (y - 1969) / 4 - (y - 1901) / 100 + (y - 1601) / 400.

(** The year of a day number: the largest [y] with [DayFromYear y <= d].
    A year has 146097/400 days on average, which gives the year up to one;
    the comparison with the neighbouring years settles it. *)
Definition YearFromDay (d : Z) : Z :=
  let y := 1970 + (400 * d) / 146097 in
  if d <? DayFromYear y then y - 1
  else if DayFromYear (y + 1) <=? d then y + 1
  else y.

Definition YearFromTime (t : Z) : Z := YearFromDay (Day t).

(** 1 in a leap year, 0 otherwise. *)
Definition LeapOfYear (y : Z) : Z := DaysInYear y - 365.

Definition InLeapYear (t : Z) : Z := LeapOfYear (YearFromTime t).

Definition DayWithinYear (t : Z) : Z := Day t - DayFromYear (YearFromTime t).

(** Days of the year before month [m] (0 = January). *)
Definition DaysBeforeMonth (m leap : Z) : Z :=
  if m =? 0 then 0
  else if m =? 1 then 31
  else if m =? 2 then 59 + leap
  else if m =? 3 then 90 + leap
  else if m =? 4 then 120 + leap
  else if m =? 5 then 151 + leap
  else if m =? 6 then 181 + leap
  else if m =? 7 then 212 + leap
  else if m =? 8 then 243 + leap
  else if m =? 9 then 273 + leap
  else if m =? 10 then 304 + leap
  else 334 + leap.

Definition MonthOfYearDay (n leap : Z) : Z :=
  if n <? 31 then 0
  else if n <? 59 + leap then 1
  else if n <? 90 + leap then 2
  else if n <? 120 + leap then 3
  else if n <? 151 + leap then 4
  else if n <? 181 + leap then 5
  else if n <? 212 + leap then 6
  else if n <? 243 + leap then 7
  else if n <? 273 + leap then 8
  else if n <? 304 + leap then 9
  else if n <? 334 + leap then 10
  else 11.

(** Days in month [m] (0 = January). *)
Definition DaysInMonth (m leap : Z) : Z :=
  if m =? 1 then 28 + leap
  else if (m =? 3) || (m =? 5) || (m =? 8) || (m =? 10) then 30
  else 31.

Definition MonthFromTime (t : Z) : Z :=
  MonthOfYearDay (DayWithinYear t) (InLeapYear t).

Definition DateFromTime (t : Z) : Z :=
  DayWithinYear t - DaysBeforeMonth (MonthFromTime t) (InLeapYear t) + 1.

Definition WeekDay (t : Z) : Z := (Day t + 4) mod 7.

(** [MakeDay(year, month, date)]: months outside 0..11 carry into the
    year, dates outside the month carry into the neighbouring months. *)
Definition MakeDay (year month date : Z) : Z :=
  let ym := year + month / 12 in
  let mn := month mod 12 in
  DayFromYear ym + DaysBeforeMonth mn (LeapOfYear ym) + date - 1.

Definition MakeDate (day time : Z) : Z := day * msPerDay + time.

(** The getters and setters of [Date.prototype] used by the resolver. *)
Definition getFullYear (t : Z) : Z := YearFromTime t.
Definition getMonth (t : Z) : Z := MonthFromTime t.
Definition getDate (t : Z) : Z := DateFromTime t.
Definition getDay (t : Z) : Z := WeekDay t.

(** The setters compute the new time value exactly.  JavaScript ends them
    with [TimeClip], which turns a value beyond [maxTime] into [NaN] (an
    invalid date); see [validTime] below for where the two agree. *)
Definition setDate (t dt : Z) : Z :=
  MakeDate (MakeDay (YearFromTime t) (MonthFromTime t) dt) (TimeWithinDay t).

Definition setMonth (t m : Z) : Z :=
  MakeDate (MakeDay (YearFromTime t) m (DateFromTime t)) (TimeWithinDay t).

Definition setFullYear (t y : Z) : Z :=
  MakeDate (MakeDay y (MonthFromTime t) (DateFromTime t)) (TimeWithinDay t).

(** The largest time value of a valid [Date]: [TimeClip] gives [NaN]
    beyond it, in either direction. *)
Definition maxTime : Z := 8640000000000000.

(** A time value well inside the range of valid dates, more than a year
    from both ends.  For clock readings and results of this kind every
    intermediate value of the setters is a valid date too, it is an exact
    double, and the zone offset plays no part; so the time values of the
    embedding are those of the code.  A time value beyond [maxTime] stands
    for an invalid date.  Statements in which the input can push the date
    out of the range (a number of days or a day of the month of any
    length) carry [validTime] as a hypothesis. *)
Definition validTime (t : Z) : Prop := Z.abs t <= maxTime - 400 * msPerDay.

(** Construction from local fields, for writing dates down. *)
Definition mkDate (y m d hh mi : Z) : Z :=
  MakeDate (MakeDay y m d) ((hh * 60 + mi) * 60000).

Definition fields (t : Z) : Z * Z * Z * Z :=
  (getFullYear t, getMonth t, getDate t, getDay t).

End JsDate.

Import JsDate.

(** ** The date part of [parseDateTimeString] *)

(** [/in\s+(\d+)\s+days?/] at one start position; the result is group 1.
    Each of [\s+] and [\d+] takes all it can: what follows it cannot start
    with a character of its own class. *)
Definition inDaysAt (s : string) : option string :=
  match s with
  | String "i" (String "n" r) =>
      if isEmpty (takeWhile isSpace r) then None
      else
        let r1 := dropWhile isSpace r in
        let ds := takeWhile isDigit r1 in
        if isEmpty ds then None
        else
          let r2 := dropWhile isDigit r1 in
          if isEmpty (takeWhile isSpace r2) then None
          else if startsWith (dropWhile isSpace r2) "day" then Some ds
          else None
  | _ => None
  end.

(** [/(\w+)\s+(\d+)(?:st|nd|rd|th)?/i] at one start position; the result
    is groups 1 and 2 (the optional suffix never fails). *)
Definition monthDayAt (s : string) : option (string * string) :=
  let w := takeWhile isWord s in
  if isEmpty w then None
  else
    let r := dropWhile isWord s in
    if isEmpty (takeWhile isSpace r) then None
    else
      let ds := takeWhile isDigit (dropWhile isSpace r) in
      if isEmpty ds then None else Some (w, ds).

(** One or two digits, greedily: the digits and the rest. *)
Definition digits12 (s : string) : list (string * string) :=
  match s with
  | String d1 s1 =>
      if isDigit d1 then
        match s1 with
        | String d2 s2 =>
            if isDigit d2
            then [(String d1 (String d2 ""), s2); (String d1 "", s1)]
            else [(String d1 "", s1)]
        | EmptyString => [(String d1 "", s1)]
        end
      else []
  | EmptyString => []
  end.

(** [/(\d{1,2})\/(\d{1,2})/] at one start position; groups 1 and 2. *)
Definition slashAt (s : string) : option (string * string) :=
  let afterSlash (m : string * string) :=
    match snd m with
    | String "/" r =>
        match digits12 r with
        | (d, _) :: _ => Some (fst m, d)
        | [] => None
        end
    | _ => None
    end in
  fold_right (fun m acc => orElse (afterSlash m) acc) None (digits12 s).

(** [arr.findIndex(p)]. *)
Fixpoint findIndexFrom (i : Z) (p : string -> bool) (l : list string) : Z :=
  match l with
  | [] => -1
  | x :: l' => if p x then i else findIndexFrom (i + 1) p l'
  end.

Definition findIndex (p : string -> bool) (l : list string) : Z :=
  findIndexFrom 0 p l.

Definition monthNames : list string :=
  ["january"; "february"; "march"; "april"; "may"; "june"; "july"; "august";
   "september"; "october"; "november"; "december"].

Definition shortMonthNames : list string :=
  ["jan"; "feb"; "mar"; "apr"; "may"; "jun"; "jul"; "aug"; "sep"; "oct";
   "nov"; "dec"].

(** [x || d] on numbers: 0 is falsy. *)
Definition orNum (x d : Z) : Z := if x =? 0 then d else x.

(** The month index looked up for the first capture group. *)
Definition monthIndexOf (monthStr : string) : Z :=
  let monthIndex := findIndex (fun m => startsWith m monthStr) monthNames in
  if monthIndex =? -1
  then findIndex (fun m => String.eqb m (substring3 monthStr)) shortMonthNames
  else monthIndex.

(** The absolute month/day branches share their tail: set the month, set
    the day, and move to the next year when that lies before [now]. *)
Definition resolveMonthDay (now targetDate month day : Z) : Z :=
  let targetDate := setMonth targetDate month in
  let targetDate := setDate targetDate day in
  if targetDate <? now
  then setFullYear targetDate (getFullYear targetDate + 1)
  else targetDate.

(** The date computed by [parseDateTimeString].  [now] and [targetDate]
    are the two readings of the clock ([new Date()]) at its start. *)
Definition parseDate (now targetDate : Z) (dateTimeStr : string) : Z :=
  let lowerDateTime := toLowerCase dateTimeStr in
  if includes lowerDateTime "tomorrow" then
    setDate targetDate (getDate targetDate + 1)
  else if includes lowerDateTime "today" then
    targetDate
  else if includes lowerDateTime "next week" then
    setDate targetDate (getDate targetDate + 7)
  else if includes lowerDateTime "next monday" then
    setDate targetDate
      (getDate targetDate + orNum (Z.rem (1 + 7 - getDay targetDate) 7) 7)
  else if includes lowerDateTime "next tuesday" then
    setDate targetDate
      (getDate targetDate + orNum (Z.rem (2 + 7 - getDay targetDate) 7) 7)
  else if includes lowerDateTime "next wednesday" then
    setDate targetDate
      (getDate targetDate + orNum (Z.rem (3 + 7 - getDay targetDate) 7) 7)
  else if includes lowerDateTime "next thursday" then
    setDate targetDate
      (getDate targetDate + orNum (Z.rem (4 + 7 - getDay targetDate) 7) 7)
  else if includes lowerDateTime "next friday" then
    setDate targetDate
      (getDate targetDate + orNum (Z.rem (5 + 7 - getDay targetDate) 7) 7)
  else if includes lowerDateTime "next saturday" then
    setDate targetDate
      (getDate targetDate + orNum (Z.rem (6 + 7 - getDay targetDate) 7) 7)
  else if includes lowerDateTime "next sunday" then
    setDate targetDate
      (getDate targetDate + orNum (Z.rem (0 + 7 - getDay targetDate) 7) 7)
  else if includes lowerDateTime "monday" then
    let daysUntilMonday := Z.rem (1 - getDay targetDate + 7) 7 in
    setDate targetDate (getDate targetDate + orNum daysUntilMonday 7)
  else if includes lowerDateTime "tuesday" then
    let daysUntilTuesday := Z.rem (2 - getDay targetDate + 7) 7 in
    setDate targetDate (getDate targetDate + orNum daysUntilTuesday 7)
  else if includes lowerDateTime "wednesday" then
    let daysUntilWednesday := Z.rem (3 - getDay targetDate + 7) 7 in
    setDate targetDate (getDate targetDate + orNum daysUntilWednesday 7)
  else if includes lowerDateTime "thursday" then
    let daysUntilThursday := Z.rem (4 - getDay targetDate + 7) 7 in
    setDate targetDate (getDate targetDate + orNum daysUntilThursday 7)
  else if includes lowerDateTime "friday" then
    let daysUntilFriday := Z.rem (5 - getDay targetDate + 7) 7 in
    setDate targetDate (getDate targetDate + orNum daysUntilFriday 7)
  else if includes lowerDateTime "saturday" then
    let daysUntilSaturday := Z.rem (6 - getDay targetDate + 7) 7 in
    setDate targetDate (getDate targetDate + orNum daysUntilSaturday 7)
  else if includes lowerDateTime "sunday" then
    let daysUntilSunday := Z.rem (0 - getDay targetDate + 7) 7 in
    setDate targetDate (getDate targetDate + orNum daysUntilSunday 7)
  else
    match matchFirst inDaysAt lowerDateTime with
    | Some n => setDate targetDate (getDate targetDate + parseInt n)
    | None =>
        match matchFirst monthDayAt dateTimeStr with
        | Some (g1, g2) =>
            let monthStr := toLowerCase g1 in
            let day := parseInt g2 in
            let monthIndex := monthIndexOf monthStr in
            if negb (monthIndex =? -1)
            then resolveMonthDay now targetDate monthIndex day
            else targetDate
        | None =>
            match matchFirst slashAt dateTimeStr with
            | Some (g1, g2) =>
                resolveMonthDay now targetDate (parseInt g1 - 1) (parseInt g2)
            | None => targetDate
            end
        end
    end.

(** [parseDateTimeString]: the pair [{ targetDate, targetTime }]. *)
Definition parseDateTimeString (now targetDate : Z) (dateTimeStr : string)
  : Z * option TargetTime :=
  (parseDate now targetDate dateTimeStr, parseTime dateTimeStr).

(** *** Which rule of the resolver an input falls under *)

(** The weekday names in the order in which the resolver tests them, with
    their [getDay] numbers. *)
Definition weekdays : list (string * Z) :=
  [("monday", 1); ("tuesday", 2); ("wednesday", 3); ("thursday", 4);
   ("friday", 5); ("saturday", 6); ("sunday", 0)].

(** The first weekday, in that order, whose name preceded by [pre] occurs
    in [lower]. *)
Definition firstWeekday (pre lower : string) : option Z :=
  match List.find (fun w => includes lower (pre ++ fst w)) weekdays with
  | Some w => Some (snd w)
  | None => None
  end.

(** Some relative expression (rules 1 to 4) applies to the lower-cased
    input. *)
Definition hasRelativeKeyword (lower : string) : bool :=
  includes lower "tomorrow" || includes lower "today"
  || includes lower "next week"
  || bool_decide (is_Some (firstWeekday "" lower))
  || bool_decide (is_Some (matchFirst inDaysAt lower)).

(** The month index and the day that the absolute branches ("June 10th",
    "12/25") read off the input, when one of them applies. *)
Definition monthDayOf (dateTimeStr : string) : option (Z * Z) :=
  match matchFirst monthDayAt dateTimeStr with
  | Some (g1, g2) =>
      let monthIndex := monthIndexOf (toLowerCase g1) in
      if monthIndex =? -1 then None else Some (monthIndex, parseInt g2)
  | None =>
      match matchFirst slashAt dateTimeStr with
      | Some (g1, g2) => Some (parseInt g1 - 1, parseInt g2)
      | None => None
      end
  end.

(** ** JavaScript values held in request objects *)

Inductive JsValue :=
  | JUndefined
  | JBool (b : bool)
  | JNum (n : Z)
  | JStr (s : string)
  | JFunction (name : string)
  | JObject (name : string).

#[global] Instance JsValue_eq_dec : EqDecision JsValue.
Proof. solve_decision. Defined.

Definition truthy (v : JsValue) : bool :=
  match v with
  | JUndefined => false
  | JBool b => b
  | JNum n => negb (n =? 0)
  | JStr s => negb (isEmpty s)
  | JFunction _ | JObject _ => true
  end.

(** The text a value contributes to a template literal. *)
Definition display (v : JsValue) : string :=
  match v with
  | JUndefined => "undefined"
  | JBool true => "true"
  | JBool false => "false"
  | JNum n => toString n
  | JStr s => s
  | JFunction name => "function " ++ name ++ "() { [native code] }"
  | JObject _ => "[object Object]"
  end.

(** An optional string argument of a tool: absent is [undefined]. *)
Definition ofArg (a : option string) : JsValue :=
  match a with Some s => JStr s | None => JUndefined end.

(** [a || b]. *)
Definition orValue (a b : JsValue) : JsValue := if truthy a then a else b.

(** The properties every object literal inherits from [Object.prototype]. *)
Definition objectPrototype (key : string) : JsValue :=
  if String.eqb key "constructor" then JFunction "Object"
  else if String.eqb key "__proto__" then JObject "Object.prototype"
  else if String.eqb key "hasOwnProperty" then JFunction "hasOwnProperty"
  else if String.eqb key "isPrototypeOf" then JFunction "isPrototypeOf"
  else if String.eqb key "propertyIsEnumerable"
       then JFunction "propertyIsEnumerable"
  else if String.eqb key "toLocaleString" then JFunction "toLocaleString"
  else if String.eqb key "toString" then JFunction "toString"
  else if String.eqb key "valueOf" then JFunction "valueOf"
  else if String.eqb key "__defineGetter__" then JFunction "__defineGetter__"
  else if String.eqb key "__defineSetter__" then JFunction "__defineSetter__"
  else if String.eqb key "__lookupGetter__" then JFunction "__lookupGetter__"
  else if String.eqb key "__lookupSetter__" then JFunction "__lookupSetter__"
  else JUndefined.

(** [obj[key]] on an object literal with string-valued own properties:
    an own property first, then the prototype. *)
Definition getProperty (own : gmap string string) (key : string) : JsValue :=
  match own !! key with
  | Some v => JStr v
  | None => objectPrototype key
  end.

Definition GOOGLE_SERVICES : gmap string string :=
  list_to_map
    [("sheets", "https://sheets.google.com");
     ("docs", "https://docs.google.com");
     ("slides", "https://slides.google.com");
     ("forms", "https://forms.google.com");
     ("drive", "https://drive.google.com");
     ("calendar", "https://calendar.google.com");
     ("gmail", "https://mail.google.com");
     ("mail", "https://mail.google.com");
     ("maps", "https://maps.google.com");
     ("meet", "https://meet.google.com");
     ("keep", "https://keep.google.com");
     ("photos", "https://photos.google.com");
     ("contacts", "https://contacts.google.com");
     ("tasks", "https://tasks.google.com");
     ("translate", "https://translate.google.com");
     ("news", "https://news.google.com");
     ("youtube", "https://youtube.com");
     ("scholar", "https://scholar.google.com");
     ("books", "https://books.google.com");
     ("earth", "https://earth.google.com")].

Definition CREATE_NEW_URLS : gmap string string :=
  list_to_map
    [("sheets", "https://sheets.google.com/create");
     ("docs", "https://docs.google.com/create");
     ("slides", "https://slides.google.com/create");
     ("forms", "https://forms.google.com/create")].

(** ** The pending-request table and the tools that use it *)

(** A request object is its property map; [pendingTabRequests] maps
    request ids to request objects. *)
Abbreviation Request := (gmap string JsValue).
Abbreviation Table := (gmap string (gmap string JsValue)).

(** [request.status === 'completed']; [request] may be [undefined]. *)
Definition isCompleted (request : option Request) : bool :=
  match request with
  | Some r =>
      match r !! "status" with
      | Some (JStr st) => String.eqb st "completed"
      | _ => false
      end
  | None => false
  end.

(** A property read on a request object ([undefined] when absent). *)
Definition field (r : Request) (key : string) : JsValue :=
  match r !! key with Some v => v | None => JUndefined end.

(** How a tool invocation ends: its returned string, or the message of
    the [Error] it throws. *)
Inductive Outcome :=
  | Returned (text : string)
  | Thrown (message : string).

(** [Date.now().toString()]. *)
Definition requestIdOf (clock : Z) : string := toString clock.

(** [docType.charAt(0).toUpperCase() + docType.slice(1)]. *)
Definition capitalize (s : string) : string :=
  match s with
  | EmptyString => EmptyString
  | String c s' => String (upperChar c) s'
  end.

(** [lowerService.replace('new ', '')] on a string that starts with it. *)
Definition dropNew (s : string) : string :=
  String.substring 4 (String.length s - 4) s.

Definition hexDigit (n : nat) : ascii :=
  ascii_of_nat (if (n <? 10)%nat then 48 + n else 55 + n).

(** [encodeURIComponent] on a string of UTF-8 code units. *)
Fixpoint encodeURIComponent (s : string) : string :=
  match s with
  | EmptyString => EmptyString
  | String c s' =>
      if isDigit c || isUpper c || isLower c
         || includes "-_.!~*'()" (String c "")
      then String c (encodeURIComponent s')
      else
        String "%" (String (hexDigit (nat_of_ascii c / 16))
          (String (hexDigit (nat_of_ascii c mod 16)) (encodeURIComponent s')))
  end.

Record OpenTabArgs := mkOpenTabArgs {
  service : option string;
  url : option string;
  search : option string
}.

(** The URL and label that [open_new_tab] derives from its arguments
    (the code before the request is enqueued). *)
Definition resolveOpenTab (args : OpenTabArgs) : JsValue * JsValue :=
  let service := ofArg (service args) in
  let url := ofArg (url args) in
  let search := ofArg (search args) in
  let finalUrl := url in
  let serviceName := service in
  let '(finalUrl, serviceName) :=
    if truthy search && negb (truthy url) && negb (truthy service) then
      (JStr ("https://www.google.com/search?q="
               ++ encodeURIComponent (display search)),
       JStr ("Google Search: " ++ display search))
    else (finalUrl, serviceName) in
  if truthy service && negb (truthy url) && negb (truthy search) then
    let lowerService := toLowerCase (display service) in
    if startsWith lowerService "new " then
      let docType := dropNew lowerService in
      if truthy (getProperty CREATE_NEW_URLS docType) then
        (getProperty CREATE_NEW_URLS docType,
         JStr ("New " ++ capitalize docType))
      else (finalUrl, serviceName)
    else if truthy (getProperty GOOGLE_SERVICES lowerService) then
      (getProperty GOOGLE_SERVICES lowerService, JStr (capitalize lowerService))
    else if String.eqb lowerService "google" then
      (JStr "https://www.google.com", JStr "Google")
    else (finalUrl, serviceName)
  else (finalUrl, serviceName).

(** [const requestId = Date.now().toString();
    pendingTabRequests.set(requestId, request)], the way each of the three
    tools enqueues: the id and the new table. *)
Definition setPending (clock : Z) (request : Request)
    (pendingTabRequests : Table) : string * Table :=
  let requestId := requestIdOf clock in
  (requestId, <[requestId := request]> pendingTabRequests).

Definition pendingTab (url serviceName : JsValue) : Request :=
  {[ "url" := url; "serviceName" := serviceName; "status" := JStr "pending" ]}.

(** [open_new_tab].  [clock] is the reading of [Date.now()]; [wait] is
    what the other parties (the extension's poller, other invocations) do
    to the table during the one-second wait. *)
Definition open_new_tab (args : OpenTabArgs) (clock : Z)
    (wait : Table -> Table) (pendingTabRequests : Table) : Outcome * Table :=
  let '(finalUrl, serviceName) := resolveOpenTab args in
  if negb (truthy finalUrl) then
    (Thrown "Please provide either a service name, URL, or search query",
     pendingTabRequests)
  else
    let '(requestId, pendingTabRequests) :=
      setPending clock (pendingTab finalUrl serviceName) pendingTabRequests in
    let pendingTabRequests := wait pendingTabRequests in
    let request := pendingTabRequests !! requestId in
    if isCompleted request then
      (Returned ("Task completed successfully! I have opened "
                   ++ display (orValue serviceName finalUrl)
                   ++ " in a new tab for you."),
       delete requestId pendingTabRequests)
    else
      (Returned ("Task completed! I have requested to open "
                   ++ display (orValue serviceName finalUrl)
                   ++ " in a new tab."),
       pendingTabRequests).

(** [navigate_browser]. *)
Definition navigate_browser (url : string) (clock : Z)
    (wait : Table -> Table) (pendingTabRequests : Table) : Outcome * Table :=
  let '(requestId, pendingTabRequests) :=
    setPending clock (pendingTab (JStr url) (JStr url)) pendingTabRequests in
  let pendingTabRequests := wait pendingTabRequests in
  let request := pendingTabRequests !! requestId in
  if isCompleted request then
    (Returned ("Successfully opened " ++ url
                 ++ " in a new tab in your current browser window."),
     delete requestId pendingTabRequests)
  else
    (Returned ("Requested to open " ++ url
                 ++ " in a new tab in your current browser window."),
     pendingTabRequests).

Definition pendingScreenshot : Request :=
  {[ "action" := JStr "screenshot"; "status" := JStr "pending" ]}.

(** The polling loop of [take_screenshot]: [attempts] counts up to
    [maxAttempts]; [wait n] is what happens to the table during the
    half-second wait of attempt [n]. *)
Fixpoint screenshotLoop (fuel : nat) (attempts : nat) (requestId : string)
    (wait : nat -> Table -> Table) (pendingTabRequests : Table)
  : Outcome * Table :=
  match fuel with
  | O =>
      (Thrown "Screenshot request timed out - make sure the Chrome extension is active",
       delete requestId pendingTabRequests)
  | S fuel' =>
      let pendingTabRequests := wait attempts pendingTabRequests in
      let request := pendingTabRequests !! requestId in
      if isCompleted request then
        let r := default ∅ request in
        let pendingTabRequests := delete requestId pendingTabRequests in
        if truthy (field r "error") then
          (Thrown (display (field r "error")), pendingTabRequests)
        else if truthy (field r "success") && truthy (field r "filename") then
          (Returned ("Screenshot taken successfully and saved to Downloads folder as "
                       ++ String (ascii_of_nat 34) (display (field r "filename"))
                       ++ String (ascii_of_nat 34) ""),
           pendingTabRequests)
        else
          (Returned "Screenshot taken successfully using Chrome Extension API",
           pendingTabRequests)
      else
        screenshotLoop fuel' (S attempts) requestId wait pendingTabRequests
  end.

(** [take_screenshot]: the [catch] rethrows with a prefix. *)
Definition take_screenshot (clock : Z) (wait : nat -> Table -> Table)
    (pendingTabRequests : Table) : Outcome * Table :=
  let '(requestId, pendingTabRequests) :=
    setPending clock pendingScreenshot pendingTabRequests in
  let maxAttempts := 10%nat in
  match screenshotLoop maxAttempts 0 requestId wait pendingTabRequests with
  | (Thrown message, tbl) =>
      (Thrown ("Failed to take screenshot: " ++ message), tbl)
  | r => r
  end.

(** ** [POST /tab-requests/:id/complete] *)

Record CompleteBody := mkBody {
  dataUrl : JsValue;
  error : JsValue;
  success : JsValue;
  filename : JsValue;
  downloadId : JsValue
}.

Inductive Response :=
  | Json (status : Z) (body : string).

Definition statusOf (r : Response) : Z :=
  match r with Json st _ => st end.

Definition completeRequest (body : CompleteBody) (request : Request) : Request :=
  let request := <["status" := JStr "completed"]> request in
  let request :=
    if truthy (dataUrl body)
    then <["dataUrl" := dataUrl body]> request else request in
  let request :=
    if truthy (success body) && truthy (filename body)
    then <["downloadId" := downloadId body]>
           (<["filename" := filename body]>
              (<["success" := JBool true]> request))
    else request in
  if truthy (error body)
  then <["error" := error body]> request else request.

Definition complete (id : string) (body : CompleteBody)
    (pendingTabRequests : Table) : Response * Table :=
  match pendingTabRequests !! id with
  | Some request =>
      (Json 200 "{ success: true }",
       <[id := completeRequest body request]> pendingTabRequests)
  | None =>
      (Json 404 "{ error: 'Request not found' }", pendingTabRequests)
  end.

(** A run of completion requests, in the order the server handles them. *)
Definition completeAll (calls : list (string * CompleteBody))
    (pendingTabRequests : Table) : Table :=
  fold_left (fun tbl c => snd (complete (fst c) (snd c) tbl)) calls
    pendingTabRequests.

(** The body carries none of the fields that the handler stores. *)
Definition carriesNothing (body : CompleteBody) : bool :=
  negb (truthy (dataUrl body))
  && negb (truthy (success body) && truthy (filename body))
  && negb (truthy (error body)).

(** ** The wrapper around [agent.call] installed by [createAgent] *)

Record Step := mkStep {
  action : string;
  observation : option string
}.

#[global] Instance Step_eq_dec : EqDecision Step.
Proof. solve_decision. Defined.

Record AgentResult := mkResult {
  output : option string;
  intermediateSteps : option (list Step)
}.

(** [v && v.includes(marker)] on a string that may be undefined. *)
Definition obsIncludes (v : option string) (marker : string) : bool :=
  match v with
  | Some s => negb (isEmpty s) && includes s marker
  | None => false
  end.

(** The predicate of the [filter] in the wrapper. *)
Definition isSuccessfulStep (step : Step) : bool :=
  match observation step with
  | Some o =>
      negb (isEmpty o) &&
      (includes o "Task completed successfully"
       || includes o "Successfully opened"
       || includes o "Successfully created"
       || includes o "Successfully sent")
  | None => false
  end.

(** [steps.indexOf(x)].  JavaScript compares the objects by identity; for
    the first element of a filtered array this is the position it was
    taken from, which is also what comparison by value finds, since the
    filter passed every equal step before it. *)
Fixpoint indexOfFrom (i : Z) (x : Step) (steps : list Step) : Z :=
  match steps with
  | [] => -1
  | y :: steps' => if decide (y = x) then i else indexOfFrom (i + 1) x steps'
  end.

Definition indexOf (steps : list Step) (x : Step) : Z := indexOfFrom 0 x steps.

(** [steps.slice(0, e)] for [e >= 0]. *)
Definition slice0 (e : Z) (steps : list Step) : list Step :=
  take (Z.to_nat e) steps.

(** The two post-processing blocks of the wrapper, applied to the result
    of the original call. *)
Definition forceStop (result : AgentResult) : AgentResult :=
  let result :=
    match intermediateSteps result with
    | Some steps =>
        if (0 <? Z.of_nat (length steps)) then
          let successfulSteps := List.filter isSuccessfulStep steps in
          match successfulSteps with
          | firstSuccess :: _ =>
              let firstSuccessIndex := indexOf steps firstSuccess in
              mkResult (observation firstSuccess)
                (Some (slice0 (firstSuccessIndex + 1) steps))
          | [] => result
          end
        else result
    | None => result
    end in
  match intermediateSteps result with
  | Some steps =>
      if obsIncludes (output result) "Agent stopped due to max iterations"
         && (0 <? Z.of_nat (length steps)) then
        match last steps with
        | Some lastStep =>
            if obsIncludes (observation lastStep) "Task completed"
            then mkResult (observation lastStep) (intermediateSteps result)
            else result
        | None => result
        end
      else result
  | None => result
  end.

(** [agent.call] after [createAgent]: the original executor, whatever its
    iteration cap, followed by the post-processing. *)
Definition agentCall {Inputs} (originalCall : Inputs -> AgentResult)
    (inputs : Inputs) : AgentResult :=
  forceStop (originalCall inputs).

(** ** Sample inputs and auxiliary notions used in the statements *)

(** The canonical absolute inputs: every month name, full or abbreviated,
    in lower case or capitalized, with every day 1..31 and every ordinal
    suffix; and every [M/D] with M in 1..12 and D in 1..31.  Each comes
    with the month index and day it stands for. *)
Definition daySuffixes : list string := [""; "st"; "nd"; "rd"; "th"].

Definition indexed (names : list string) : list (string * Z) :=
  zip names (seqZ 0 (Z.of_nat (length names))).

Definition namedMonths : list (string * Z) :=
  indexed monthNames ++ indexed shortMonthNames
  ++ indexed (List.map capitalize monthNames)
  ++ indexed (List.map capitalize shortMonthNames).

Definition monthDayInputs : list (string * (Z * Z)) :=
  flat_map (fun nm =>
    flat_map (fun d =>
      List.map (fun suffix =>
             (fst nm ++ " " ++ toString d ++ suffix, (snd nm, d)))
        daySuffixes)
      (seqZ 1 31))
    namedMonths
  ++
  flat_map (fun m =>
    List.map (fun d => (toString m ++ "/" ++ toString d, (m - 1, d)))
      (seqZ 1 31))
    (seqZ 1 12).

Definition recognised (i : string * (Z * Z)) : bool :=
  negb (hasRelativeKeyword (toLowerCase (fst i)))
  && bool_decide (monthDayOf (fst i) = Some (snd i)).

(** The input has one of the four words, in any case, at some position. *)
Definition timeWords : list string := ["am"; "pm"; "noon"; "midnight"].

Definition marked (s : string) : Prop :=
  exists p r w x, s = p ++ r /\ In w timeWords /\ stripCI w r = Some x.

(** A run of the executor that repeats a successful tool call. *)
Definition sampleRun (_ : string) : AgentResult :=
  mkResult (Some "Agent stopped due to max iterations.")
    (Some [mkStep "open_new_tab" (Some "Requested to open the page");
           mkStep "send_email" (Some "Successfully sent email to a@b.c");
           mkStep "send_email" (Some "Successfully sent email to a@b.c")]).

(** Completion bodies and a table with one pending screenshot request. *)
Definition noBody : CompleteBody :=
  mkBody JUndefined JUndefined JUndefined JUndefined JUndefined.

Definition savedBody : CompleteBody :=
  mkBody JUndefined JUndefined (JBool true) (JStr "shot.png") (JNum 7).

Definition failedBody : CompleteBody :=
  mkBody JUndefined (JStr "capture failed") JUndefined JUndefined JUndefined.

Definition oneScreenshot : Table := {[ "1700000000000" := pendingScreenshot ]}.

(** A Thursday morning (1 May 2025, 09:30) and a Sunday morning
    (1 June 2025, 09:00). *)
Definition thursdayMorning : Z := mkDate 2025 4 1 9 30.
Definition sundayMorning : Z := mkDate 2025 5 1 9 0.

(** ** Further notions used in the statements *)

#[global] Instance TargetTime_eq_dec : EqDecision TargetTime.
Proof. solve_decision. Defined.

(** One or two decimal digits. *)
Definition isDigits12 (s : string) : bool :=
  match s with
  | String d1 EmptyString => isDigit d1
  | String d1 (String d2 EmptyString) => isDigit d1 && isDigit d2
  | _ => false
  end.

(** The capture groups of a match of the time expression: none for the
    words, or an hour of one or two digits, minutes of two digits if any,
    and a meridiem in either case. *)
Definition timeGroups (m : TimeMatch) : Prop :=
  (tm_hour m = None /\ tm_minute m = None /\ tm_period m = None)
  \/ (exists hh ap,
        tm_hour m = Some hh /\ isDigits12 hh = true
        /\ (tm_minute m = None
            \/ exists mm, tm_minute m = Some mm /\ isDigits12 mm = true)
        /\ tm_period m = Some ap
        /\ (toLowerCase ap = "am" \/ toLowerCase ap = "pm")).

Definition timeRoundTrips (h m : Z) (p : string) : bool :=
  bool_decide (parseTime (timeString (mkTime h m p)) = Some (mkTime h m p)).

(** The last day of January 2025, 09:00. *)
Definition endOfJanuary : Z := mkDate 2025 0 31 9 0.

Definition screenshotTimedOut : string :=
  "Failed to take screenshot: Screenshot request timed out - make sure the Chrome extension is active".

(** The table after the waits of attempts [attempts], [attempts + 1], ...,
    one after the other. *)
Fixpoint afterWaits (fuel attempts : nat) (wait : nat -> Table -> Table)
    (tbl : Table) : Table :=
  match fuel with
  | O => tbl
  | S fuel' => afterWaits fuel' (S attempts) wait (wait attempts tbl)
  end.

(** ** The extension's poller ([startTabRequestPolling] in background.js)
       against the service *)

(** [GET /tab-requests]: every entry of the table with its id.  JavaScript
    lists a [Map] in insertion order; the properties of the poller are
    stated for every order of the listing. *)
Definition tabRequests (pendingTabRequests : Table) : list (string * Request) :=
  map_to_list pendingTabRequests.

(** A field of a request as the extension receives it.  JSON carries
    neither functions nor [undefined], and an object arrives as a copy of
    its own enumerable properties: [Object.prototype], the one object that
    a request can hold, has none. *)
Definition received (request : Request) (key : string) : JsValue :=
  match field request key with
  | JFunction _ => JUndefined
  | JObject _ => JObject "{}"
  | v => v
  end.

(** [request.status === 'pending'] and [request.action === 'screenshot']. *)
Definition isPending (request : Request) : bool :=
  bool_decide (received request "status" = JStr "pending").

Definition isScreenshot (request : Request) : bool :=
  bool_decide (received request "action" = JStr "screenshot").

(** *** The file name of a screenshot *)

Definition HourFromTime (t : Z) : Z := (t / 3600000) mod 24.
Definition MinFromTime (t : Z) : Z := (t / 60000) mod 60.
Definition SecFromTime (t : Z) : Z := (t / 1000) mod 60.
Definition msFromTime (t : Z) : Z := t mod 1000.

Definition digitChar (n : Z) : ascii := ascii_of_nat (Z.to_nat (48 + n mod 10)).

Definition pad2 (n : Z) : string :=
  String (digitChar (n / 10)) (String (digitChar n) "").

Definition pad3 (n : Z) : string := String (digitChar (n / 100)) (pad2 n).

Definition pad4 (n : Z) : string := String (digitChar (n / 1000)) (pad3 n).

(** [date.toISOString()] for a time value (in UTC) whose year has four
    digits: [YYYY-MM-DDTHH:mm:ss.sssZ]. *)
Definition toISOString (t : Z) : string :=
  pad4 (YearFromTime t) ++ "-" ++ pad2 (MonthFromTime t + 1) ++ "-"
  ++ pad2 (DateFromTime t) ++ "T" ++ pad2 (HourFromTime t) ++ ":"
  ++ pad2 (MinFromTime t) ++ ":" ++ pad2 (SecFromTime t) ++ "."
  ++ pad3 (msFromTime t) ++ "Z".

(** [s.replace(/[:.]/g, '-')]. *)
Definition dashes (s : string) : string :=
  JsString.map (fun c => if Ascii.eqb c ":" || Ascii.eqb c "." then "-"%char else c) s.

(** [s.slice(0, -5)]. *)
Definition dropLast5 (s : string) : string :=
  String.substring 0 (String.length s - 5) s.

(** [`screenshot-${timestamp}.png`] for the clock reading [t]. *)
Definition screenshotFilename (t : Z) : string :=
  "screenshot-" ++ dropLast5 (dashes (toISOString t)) ++ ".png".

(** *** One tick of the poller *)

(** The extension's own state, [lastScreenshotTime], and what it has asked
    of the browser so far: the captures (by the clock reading they were
    made at), the downloads and the tabs, latest first. *)
Record Extension := mkExtension {
  lastScreenshotTime : option Z;
  captures : list Z;
  downloads : list string;
  tabs : list JsValue
}.

(** What the browser and the clock answer while one request is handled:
    [Date.now()], the capture (a data URL, or the message of the error it
    throws), the [new Date()] of the file name, the download (its id, or an
    error message), and whether [chrome.tabs.create] succeeds. *)
Record Chrome := mkChrome {
  dateNow : Z;
  captureVisibleTab : string + string;
  newDate : Z;
  download : Z + string;
  tabsCreate : bool
}.

Definition rateLimited : string :=
  "Screenshot rate limit exceeded. Please wait before taking another screenshot.".

(** [lastScreenshotTime && (now - lastScreenshotTime) < 500]. *)
Definition tooSoon (last : option Z) (now : Z) : bool :=
  match last with
  | Some t => negb (t =? 0) && (now - t <? 500)
  | None => false
  end.

Definition errorBody (message : string) : CompleteBody :=
  mkBody JUndefined (JStr message) JUndefined JUndefined JUndefined.

Definition successBody (filename : string) (downloadId : Z) : CompleteBody :=
  mkBody JUndefined JUndefined (JBool true) (JStr filename) (JNum downloadId).

(** The [try] block for a screenshot request, with its [catch]: the new
    state of the extension and the body it posts. *)
Definition captureScreenshot (chrome : Chrome) (ext : Extension)
  : Extension * CompleteBody :=
  let now := dateNow chrome in
  if tooSoon (lastScreenshotTime ext) now then (ext, errorBody rateLimited)
  else
    let ext :=
      mkExtension (Some now) (now :: captures ext) (downloads ext) (tabs ext) in
    match captureVisibleTab chrome with
    | inr message => (ext, errorBody message)
    | inl dataUrl =>
        let filename := screenshotFilename (newDate chrome) in
        let ext :=
          mkExtension (lastScreenshotTime ext) (captures ext)
            (filename :: downloads ext) (tabs ext) in
        match download chrome with
        | inr message => (ext, errorBody message)
        | inl downloadId => (ext, successBody filename downloadId)
        end
    end.

(** A [POST /tab-requests/:id/complete] reaching the service (its answer
    is not looked at).  The post for an opened tab has no body; the
    handler then sees the empty object that the JSON middleware leaves. *)
Definition post (id : string) (body : CompleteBody) (tbl : Table) : Table :=
  snd (complete id body tbl).

(** The loop over the listed requests, with the table of the service that
    answers the posts.  An error of [chrome.tabs.create] leaves the loop:
    it is caught around the whole tick.  The fetches are taken to reach
    the service, and the requests of one tick to be handled without
    another party touching the table in between. *)
Fixpoint pollRequests (chrome : string -> Chrome)
    (requests : list (string * Request)) (ext : Extension) (tbl : Table)
  : Extension * Table :=
  match requests with
  | [] => (ext, tbl)
  | (id, request) :: rest =>
      if isPending request then
        if isScreenshot request then
          let '(ext, body) := captureScreenshot (chrome id) ext in
          pollRequests chrome rest ext (post id body tbl)
        else if tabsCreate (chrome id) then
          let ext :=
            mkExtension (lastScreenshotTime ext) (captures ext) (downloads ext)
              (received request "url" :: tabs ext) in
          pollRequests chrome rest ext (post id noBody tbl)
        else (ext, tbl)
      else pollRequests chrome rest ext tbl
  end.

(** One tick: fetch the listing, handle it. *)
Definition pollTick (chrome : string -> Chrome) (ext : Extension) (tbl : Table)
  : Extension * Table :=
  pollRequests chrome (tabRequests tbl) ext tbl.

Definition freshExtension : Extension := mkExtension None [] [] [].

(** Each capture came at least half a second after the one before it
    (the list is latest first). *)
Fixpoint spaced (times : list Z) : Prop :=
  match times with
  | [] => True
  | t :: older =>
      match older with
      | [] => True
      | t' :: _ => t' + 500 <= t
      end /\ spaced older
  end.

(** The state of the limiter agrees with the captures made. *)
Definition limiterTracks (ext : Extension) : Prop :=
  lastScreenshotTime ext = head (captures ext)
  /\ Forall (fun t => t <> 0) (captures ext).

(** The browser's answers when everything works, at the clock reading
    [t]. *)
Definition allFine (t : Z) (_ : string) : Chrome :=
  mkChrome t (inl "data:image/png;base64,AAAA") t (inl 1) true.

(** The file name to the second. *)
Definition stamp (t : Z) : string :=
  pad4 (YearFromTime t) ++ "-" ++ pad2 (MonthFromTime t + 1) ++ "-"
  ++ pad2 (DateFromTime t) ++ "T" ++ pad2 (HourFromTime t) ++ "-"
  ++ pad2 (MinFromTime t) ++ "-" ++ pad2 (SecFromTime t).

(** Sample states of the extension and answers of the browser. *)
Definition twoScreenshots : list (string * Request) :=
  [("1700000000000", pendingScreenshot); ("1700000000001", pendingScreenshot)].

Definition lateExtension : Extension :=
  mkExtension (Some 1700000000300) [1700000000300] [] [].

Definition brokenCapture (t : Z) (_ : string) : Chrome :=
  mkChrome t (inr "Cannot access contents of the page") t (inl 1) true.

Definition refusedTab : Request :=
  pendingTab (JStr "javascript:void(0)") (JStr "javascript:void(0)").

Definition refusing (_ : nat) (_ : string) : Chrome :=
  mkChrome 1700000000400 (inl "data:image/png;base64,AAAA") 1700000000400
    (inl 1) false.

Definition oldestFirst (t : Table) : list (string * Request) :=
  match t !! "1690000000000" with
  | Some r => ("1690000000000", r) :: tabRequests (delete "1690000000000" t)
  | None => tabRequests t
  end.

(** ** The keystrokes of [create_calendar_event] *)

(** What the tool sends to the page through [page.keyboard], once the
    event form is open: [type(text)] and [press(key)]. *)
Inductive Key :=
  | Typed (text : string)
  | Pressed (key : string).

#[global] Instance Key_eq_dec : EqDecision Key.
Proof. solve_decision. Defined.

(** [targetDate.toLocaleDateString('en-US', { month: 'long' })]. *)
Definition longMonths : list string :=
  ["January"; "February"; "March"; "April"; "May"; "June"; "July"; "August";
   "September"; "October"; "November"; "December"].

Definition longMonth (targetDate : Z) : string :=
  nth (Z.to_nat (getMonth targetDate)) longMonths "".

(** [`${monthName}, ${day}, ${year}`].  For an invalid date the month
    name is "Invalid Date" and the day and the year are [NaN]. *)
Definition formattedDate (targetDate : Z) : string :=
  if maxTime <? Z.abs targetDate then "Invalid Date, NaN, NaN"
  else
    longMonth targetDate ++ ", " ++ toString (getDate targetDate) ++ ", "
    ++ toString (getFullYear targetDate).

(** The text typed at one of the three [if (dateTime)] blocks: each calls
    [parseDateTimeString] anew, which reads the clock twice. *)
Definition typedWhenGiven (dateTime : option string)
    (text : string -> option string) : list Key :=
  match dateTime with
  | Some s =>
      if isEmpty s then []
      else match text s with Some t => [Typed t] | None => [] end
  | None => []
  end.

(** The keystrokes from step 3 on, when the browser carries out every
    one of them; [clock n] is the reading of the [n]-th [new Date()]. *)
Definition calendarKeys (clock : nat -> Z) (title : string)
    (dateTime : option string) : list Key :=
  [Typed title; Pressed "Tab"; Pressed "Tab"; Pressed "Enter"]
  ++ typedWhenGiven dateTime (fun s =>
       Some (formattedDate
               (fst (parseDateTimeString (clock 0%nat) (clock 1%nat) s))))
  ++ [Pressed "Tab"]
  ++ typedWhenGiven dateTime (fun s =>
       option_map startTimeString
         (snd (parseDateTimeString (clock 2%nat) (clock 3%nat) s)))
  ++ [Pressed "Tab"]
  ++ typedWhenGiven dateTime (fun s =>
       option_map endTimeString
         (snd (parseDateTimeString (clock 4%nat) (clock 5%nat) s)))
  ++ repeat (Pressed "Tab") 10
  ++ [Pressed "Enter"].



(** * Properties *)

(** Linear arithmetic with division and remainder by constants; case
    analysis on comparisons and on the twelve months. *)
Ltac divlia := Z.div_mod_to_equations; lia.

Ltac split_ltb :=
  repeat match goal with
  | |- context [?a <? ?b] => destruct (Z.ltb_spec a b); try lia
  | H : context [?a <? ?b] |- _ => destruct (Z.ltb_spec a b); try lia
  end.

Ltac month_cases m :=
  let C := fresh "C" in
  assert (C : m = 0 \/ m = 1 \/ m = 2 \/ m = 3 \/ m = 4 \/ m = 5 \/ m = 6
              \/ m = 7 \/ m = 8 \/ m = 9 \/ m = 10 \/ m = 11) by lia;
  repeat destruct C as [C|C]; subst m.

Ltac month_tables := unfold DaysBeforeMonth, DaysInMonth; simpl.

(** ** Calendar arithmetic *)

Lemma DayFromYear_succ y : DayFromYear (y + 1) = DayFromYear y + DaysInYear y.
Proof.
  unfold DayFromYear, DaysInYear.
  repeat match goal with |- context [negb (?a =? ?b)] => destruct (Z.eqb_spec a b); simpl end;
  divlia.
Qed.

Lemma DaysInYear_cases y : DaysInYear y = 365 \/ DaysInYear y = 366.
Proof.
  unfold DaysInYear.
  repeat match goal with |- context [negb (?a =? ?b)] => destruct (Z.eqb_spec a b); simpl end; auto.
Qed.

Lemma DayFromYear_mono y y' : y <= y' -> DayFromYear y <= DayFromYear y'.
Proof. unfold DayFromYear. intros. divlia. Qed.

Lemma DayFromYear_lt y y' : y < y' -> DayFromYear y < DayFromYear y'.
Proof. unfold DayFromYear. intros. divlia. Qed.

Lemma YearFromDay_spec d :
  DayFromYear (YearFromDay d) <= d < DayFromYear (YearFromDay d + 1).
Proof.
  unfold YearFromDay.
  set (y := 1970 + 400 * d / 146097).
  assert (Hlo : DayFromYear (y - 1) <= d).
  { unfold DayFromYear, y. divlia. }
  assert (Hhi : d < DayFromYear (y + 2)).
  { unfold DayFromYear, y. divlia. }
  destruct (Z.ltb_spec d (DayFromYear y)).
  - replace (y - 1 + 1) with y by lia. lia.
  - destruct (Z.leb_spec (DayFromYear (y + 1)) d).
    + replace (y + 1 + 1) with (y + 2) by lia. lia.
    + lia.
Qed.

Lemma YearFromDay_unique y d :
  DayFromYear y <= d < DayFromYear (y + 1) -> YearFromDay d = y.
Proof.
  intros H. pose proof (YearFromDay_spec d) as S.
  destruct (Z.lt_trichotomy (YearFromDay d) y) as [L|[E|G]]; [|exact E|].
  - assert (DayFromYear (YearFromDay d + 1) <= DayFromYear y) by (apply DayFromYear_mono; lia). lia.
  - assert (DayFromYear (y + 1) <= DayFromYear (YearFromDay d)) by (apply DayFromYear_mono; lia). lia.
Qed.
Lemma MonthOfYearDay_bounds n l :
  0 <= l <= 1 -> 0 <= n < 365 + l ->
  0 <= MonthOfYearDay n l <= 11 /\
  DaysBeforeMonth (MonthOfYearDay n l) l <= n
    < DaysBeforeMonth (MonthOfYearDay n l) l + DaysInMonth (MonthOfYearDay n l) l.
Proof.
  intros Hl Hn. unfold MonthOfYearDay.
  split_ltb; cbn; lia.
Qed.

Lemma MonthOfYearDay_unique m n l :
  0 <= l <= 1 -> 0 <= m <= 11 ->
  DaysBeforeMonth m l <= n < DaysBeforeMonth m l + DaysInMonth m l ->
  MonthOfYearDay n l = m.
Proof.
  intros Hl Hm.
  assert (C : m = 0 \/ m = 1 \/ m = 2 \/ m = 3 \/ m = 4 \/ m = 5 \/ m = 6
              \/ m = 7 \/ m = 8 \/ m = 9 \/ m = 10 \/ m = 11) by lia.
  repeat destruct C as [C|C]; subst m; cbn; intros Hn; unfold MonthOfYearDay;
    split_ltb.
Qed.

Lemma DaysBeforeMonth_next m l :
  0 <= m <= 10 ->
  DaysBeforeMonth (m + 1) l = DaysBeforeMonth m l + DaysInMonth m l.
Proof.
  intros Hm.
  assert (C : m = 0 \/ m = 1 \/ m = 2 \/ m = 3 \/ m = 4 \/ m = 5 \/ m = 6
              \/ m = 7 \/ m = 8 \/ m = 9 \/ m = 10) by lia.
  repeat destruct C as [C|C]; subst m; unfold DaysBeforeMonth, DaysInMonth; simpl; lia.
Qed.

(** *** Time values, days and fields *)

Lemma msPerDay_pos : 0 < msPerDay.
Proof. reflexivity. Qed.

Lemma TimeWithinDay_range t : 0 <= TimeWithinDay t < msPerDay.
Proof. apply Z.mod_pos_bound, msPerDay_pos. Qed.

Lemma MakeDate_Day t : MakeDate (Day t) (TimeWithinDay t) = t.
Proof.
  unfold MakeDate, Day, TimeWithinDay.
  pose proof (Z.div_mod t msPerDay). pose proof msPerDay_pos. lia.
Qed.

Lemma Day_MakeDate d tod : 0 <= tod < msPerDay -> Day (MakeDate d tod) = d.
Proof.
  intros H. unfold Day, MakeDate.
  rewrite Z.add_comm, Z.div_add by (pose proof msPerDay_pos; lia).
  rewrite Z.div_small; lia.
Qed.

Lemma TimeWithinDay_MakeDate d tod :
  0 <= tod < msPerDay -> TimeWithinDay (MakeDate d tod) = tod.
Proof.
  intros H. unfold TimeWithinDay, MakeDate.
  rewrite Z.add_comm, Z.mod_add by (pose proof msPerDay_pos; lia).
  apply Z.mod_small; lia.
Qed.

Lemma LeapOfYear_range y : 0 <= LeapOfYear y <= 1.
Proof. unfold LeapOfYear. destruct (DaysInYear_cases y); lia. Qed.

Lemma DayWithinYear_range t :
  0 <= DayWithinYear t < 365 + InLeapYear t.
Proof.
  unfold DayWithinYear, InLeapYear, LeapOfYear, YearFromTime.
  pose proof (YearFromDay_spec (Day t)) as S.
  rewrite DayFromYear_succ in S. lia.
Qed.

Lemma MonthFromTime_range t : 0 <= MonthFromTime t <= 11.
Proof.
  unfold MonthFromTime.
  apply MonthOfYearDay_bounds;
    [apply LeapOfYear_range | apply DayWithinYear_range].
Qed.

Lemma MakeDay_month y m dt :
  0 <= m <= 11 ->
  MakeDay y m dt = DayFromYear y + DaysBeforeMonth m (LeapOfYear y) + dt - 1.
Proof.
  intros Hm. unfold MakeDay.
  rewrite Z.div_small, Z.mod_small by lia.
  now rewrite Z.add_0_r.
Qed.

(** [setDate(getDate() + k)] moves the date by [k] days and keeps the time
    of day. *)
Lemma setDate_getDate_plus t k :
  setDate t (getDate t + k) = MakeDate (Day t + k) (TimeWithinDay t).
Proof.
  unfold setDate, getDate, DateFromTime.
  rewrite MakeDay_month by apply MonthFromTime_range.
  f_equal. unfold InLeapYear, DayWithinYear. lia.
Qed.

Lemma Day_setDate_plus t k : Day (setDate t (getDate t + k)) = Day t + k.
Proof.
  rewrite setDate_getDate_plus.
  apply Day_MakeDate, TimeWithinDay_range.
Qed.

Lemma getDay_range t : 0 <= getDay t <= 6.
Proof.
  unfold getDay, WeekDay.
  pose proof (Z.mod_pos_bound (Day t + 4) 7). lia.
Qed.

Lemma getDay_setDate_plus t k :
  getDay (setDate t (getDate t + k)) = (getDay t + k) mod 7.
Proof.
  unfold getDay, WeekDay. rewrite Day_setDate_plus.
  rewrite Zplus_mod_idemp_l. f_equal. lia.
Qed.

(** The fields of a time value given by year, day of the year and time of
    day. *)
Lemma fields_of_year_day y n tod :
  0 <= n < DaysInYear y -> 0 <= tod < msPerDay ->
  let t := MakeDate (DayFromYear y + n) tod in
  YearFromTime t = y /\ DayWithinYear t = n /\ TimeWithinDay t = tod
  /\ InLeapYear t = LeapOfYear y.
Proof.
  intros Hn Htod t.
  assert (HY : YearFromTime t = y).
  { unfold YearFromTime, t. rewrite Day_MakeDate by assumption.
    apply YearFromDay_unique. rewrite DayFromYear_succ. lia. }
  repeat split.
  - exact HY.
  - unfold DayWithinYear. rewrite HY. unfold t.
    rewrite Day_MakeDate by assumption. lia.
  - apply TimeWithinDay_MakeDate. assumption.
  - unfold InLeapYear. now rewrite HY.
Qed.
Lemma DaysInMonth_range m l : 0 <= l <= 1 -> 28 <= DaysInMonth m l <= 31.
Proof.
  intros Hl. unfold DaysInMonth.
  repeat match goal with
         | |- context [?a =? ?b] => destruct (Z.eqb_spec a b); simpl
         end; lia.
Qed.

Lemma DaysBeforeMonth_range m l :
  0 <= l <= 1 -> 0 <= m <= 11 ->
  0 <= DaysBeforeMonth m l /\ DaysBeforeMonth m l + DaysInMonth m l <= 365 + l.
Proof. intros Hl Hm. month_cases m; month_tables; lia. Qed.

Lemma DaysBeforeMonth_mono a b l :
  0 <= l <= 1 -> 0 <= a -> a < b -> b <= 11 ->
  DaysBeforeMonth a l + DaysInMonth a l <= DaysBeforeMonth b l.
Proof.
  intros Hl Ha Hab Hb.
  assert (Hs : forall k, (k <= 11)%nat -> forall a, 0 <= a -> a + Z.of_nat k <= 10 ->
             DaysBeforeMonth a l + DaysInMonth a l
             <= DaysBeforeMonth (a + 1 + Z.of_nat k) l).
  { induction k as [|k IH]; intros Hk a' Ha' Hak.
    - rewrite Z.add_0_r, DaysBeforeMonth_next by lia. lia.
    - replace (a' + 1 + Z.of_nat (S k)) with ((a' + 1 + Z.of_nat k) + 1) by lia.
      rewrite DaysBeforeMonth_next by lia.
      specialize (IH ltac:(lia) a' Ha' ltac:(lia)).
      pose proof (DaysInMonth_range (a' + 1 + Z.of_nat k) l Hl). lia. }
  specialize (Hs (Z.to_nat (b - a - 1)) ltac:(lia) a Ha ltac:(lia)).
  replace (a + 1 + Z.of_nat (Z.to_nat (b - a - 1))) with b in Hs by lia.
  exact Hs.
Qed.

(** A month of fewer than 31 days is followed by one of 31. *)
Lemma DaysInMonth_after_short m l :
  0 <= l <= 1 -> 0 <= m <= 10 -> DaysInMonth m l < 31 ->
  DaysInMonth (m + 1) l = 31.
Proof. intros Hl Hm. month_cases m; month_tables; lia. Qed.

(** A month and day carried to another year stay within that year. *)
Lemma year_day_other_leap m D l l' :
  0 <= l <= 1 -> 0 <= l' <= 1 -> 0 <= m <= 11 ->
  1 <= D <= DaysInMonth m l ->
  0 <= DaysBeforeMonth m l' + D - 1 < 365 + l'.
Proof. intros Hl Hl' Hm. month_cases m; month_tables; lia. Qed.

Lemma rollover_arith l l' n mi d :
  0 <= l <= 1 -> 0 <= l' <= 1 -> 0 <= n < 365 + l ->
  0 <= mi <= 11 -> 1 <= d <= DaysInMonth mi l ->
  let M := MonthOfYearDay n l in
  let D := n - DaysBeforeMonth M l + 1 in
  mi < M \/ (mi = M /\ d < D) ->
  let n1 := DaysBeforeMonth mi l + D - 1 in
  let M1 := MonthOfYearDay n1 l in
  let n2 := DaysBeforeMonth M1 l + d - 1 in
  let M2 := MonthOfYearDay n2 l in
  let D2 := n2 - DaysBeforeMonth M2 l + 1 in
  let n3 := DaysBeforeMonth M2 l' + D2 - 1 in
  (0 <= n1 < 365 + l) /\ (0 <= n2 < n) /\ (0 <= n3 < 365 + l').
Proof.
  intros Hl Hl' Hn Hmi Hd M D Hearly n1 M1 n2 M2 D2 n3.
  destruct (MonthOfYearDay_bounds n l Hl Hn) as [HM HMn].
  fold M in HM, HMn. clearbody M.
  pose proof (DaysInMonth_range M l Hl) as HdimM.
  pose proof (DaysInMonth_range mi l Hl) as Hdimmi.
  pose proof (DaysBeforeMonth_range mi l Hl Hmi) as Hbmi.
  pose proof (DaysBeforeMonth_range M l Hl HM) as HbM.
  assert (HD : 1 <= D <= DaysInMonth M l) by (unfold D; lia).
  assert (Hlt : mi < M -> DaysBeforeMonth mi l + DaysInMonth mi l
                          <= DaysBeforeMonth M l).
  { intros. apply DaysBeforeMonth_mono; lia. }
  assert (Hn1 : 0 <= n1 < 365 + l).
  { unfold n1. destruct Hearly as [H|[H _]]; [specialize (Hlt H); lia|].
    rewrite H. unfold D. lia. }
  (* the month the day-of-month lands in after [setMonth] *)
  assert (HM1 : (M1 = mi /\ D <= DaysInMonth mi l)
                \/ (M1 = mi + 1 /\ DaysInMonth mi l < D /\ mi < M)).
  { destruct (Z.le_gt_cases D (DaysInMonth mi l)) as [Hfit|Hover].
    - left. split; [|exact Hfit].
      apply MonthOfYearDay_unique; unfold n1; lia.
    - right. assert (mi < M) by (destruct Hearly as [?|[E _]]; [lia|subst mi; lia]).
      split; [|lia].
      pose proof (DaysInMonth_after_short mi l Hl ltac:(lia) ltac:(lia)).
      apply MonthOfYearDay_unique; [lia|lia|].
      rewrite DaysBeforeMonth_next by lia. unfold n1. lia. }
  assert (Hn2 : 0 <= n2 < n).
  { unfold n2. destruct HM1 as [[-> Hfit]|[-> [Hover HltM]]].
    - destruct Hearly as [H|[H Hd']]; [specialize (Hlt H); lia|].
      rewrite H. unfold D in Hd'. lia.
    - rewrite DaysBeforeMonth_next by lia.
      assert (HM' : mi + 1 = M -> DaysBeforeMonth M l
                      = DaysBeforeMonth mi l + DaysInMonth mi l).
      { intros <-. apply DaysBeforeMonth_next. lia. }
      destruct (Z.eq_dec (mi + 1) M) as [E|NE].
      + specialize (HM' E). unfold D in Hover. lia.
      + pose proof (DaysBeforeMonth_mono (mi + 1) M l Hl ltac:(lia) ltac:(lia) ltac:(lia)) as Hm.
        rewrite DaysBeforeMonth_next in Hm by lia.
        pose proof (DaysInMonth_after_short mi l Hl ltac:(lia) ltac:(lia)).
        lia. }
  repeat split; try lia.
  - destruct (MonthOfYearDay_bounds n2 l Hl ltac:(lia)) as [HM2 Hb2].
    fold M2 in HM2, Hb2.
    pose proof (year_day_other_leap M2 D2 l l' Hl Hl' HM2 ltac:(unfold D2; lia)).
    unfold n3. lia.
  - destruct (MonthOfYearDay_bounds n2 l Hl ltac:(lia)) as [HM2 Hb2].
    fold M2 in HM2, Hb2.
    pose proof (year_day_other_leap M2 D2 l l' Hl Hl' HM2 ltac:(unfold D2; lia)).
    unfold n3. lia.
Qed.
(** A time value is its year, day of the year and time of day. *)
Lemma time_value_decompose t :
  t = MakeDate (DayFromYear (YearFromTime t) + DayWithinYear t) (TimeWithinDay t).
Proof.
  unfold DayWithinYear.
  replace (DayFromYear (YearFromTime t) + (Day t - DayFromYear (YearFromTime t)))
    with (Day t) by lia.
  symmetry. apply MakeDate_Day.
Qed.

Lemma MakeDate_lt d d' tod tod' :
  0 <= tod < msPerDay -> 0 <= tod' < msPerDay -> d < d' ->
  MakeDate d tod < MakeDate d' tod'.
Proof. unfold MakeDate. pose proof msPerDay_pos. nia. Qed.

(** The setters on a time value given by year and day of the year. *)
Lemma setMonth_year_day y n tod m :
  0 <= n < DaysInYear y -> 0 <= tod < msPerDay -> 0 <= m <= 11 ->
  let l := LeapOfYear y in
  setMonth (MakeDate (DayFromYear y + n) tod) m
  = MakeDate (DayFromYear y
              + (DaysBeforeMonth m l
                 + (n - DaysBeforeMonth (MonthOfYearDay n l) l + 1) - 1)) tod.
Proof.
  intros Hn Htod Hm l.
  destruct (fields_of_year_day y n tod Hn Htod) as (HY & HN & HT & HL).
  unfold setMonth, DateFromTime, MonthFromTime.
  rewrite HY, HN, HT, HL, MakeDay_month by assumption.
  fold l. f_equal. lia.
Qed.

Lemma setDate_year_day y n tod d :
  0 <= n < DaysInYear y -> 0 <= tod < msPerDay ->
  let l := LeapOfYear y in
  setDate (MakeDate (DayFromYear y + n) tod) d
  = MakeDate (DayFromYear y
              + (DaysBeforeMonth (MonthOfYearDay n l) l + d - 1)) tod.
Proof.
  intros Hn Htod l.
  destruct (fields_of_year_day y n tod Hn Htod) as (HY & HN & HT & HL).
  unfold setDate, MonthFromTime.
  rewrite HY, HN, HT, HL.
  rewrite MakeDay_month.
  - fold l. f_equal. lia.
  - apply MonthOfYearDay_bounds; [apply LeapOfYear_range|].
    unfold LeapOfYear. lia.
Qed.

Lemma setFullYear_year_day y n tod y' :
  0 <= n < DaysInYear y -> 0 <= tod < msPerDay ->
  let l := LeapOfYear y in
  let m := MonthOfYearDay n l in
  setFullYear (MakeDate (DayFromYear y + n) tod) y'
  = MakeDate (DayFromYear y'
              + (DaysBeforeMonth m (LeapOfYear y')
                 + (n - DaysBeforeMonth m l + 1) - 1)) tod.
Proof.
  intros Hn Htod l m.
  destruct (fields_of_year_day y n tod Hn Htod) as (HY & HN & HT & HL).
  unfold setFullYear, DateFromTime, MonthFromTime.
  rewrite HN, HT, HL.
  rewrite MakeDay_month.
  - fold l m. f_equal. lia.
  - apply MonthOfYearDay_bounds; [apply LeapOfYear_range|].
    unfold LeapOfYear. lia.
Qed.

Lemma resolveMonthDay_rolls now target mi d :
  Day target = Day now ->
  0 <= mi <= 11 ->
  1 <= d <= DaysInMonth mi (InLeapYear now) ->
  mi < getMonth now \/ (mi = getMonth now /\ d < getDate now) ->
  getFullYear (resolveMonthDay now target mi d) = getFullYear now + 1
  /\ now < resolveMonthDay now target mi d.
Proof.
  intros Hday Hmi Hd Hearly.
  pose proof (DayWithinYear_range now) as Hn.
  pose proof (TimeWithinDay_range now) as Htn.
  pose proof (TimeWithinDay_range target) as Htt.
  assert (HYt : YearFromTime target = YearFromTime now)
    by (unfold YearFromTime; now rewrite Hday).
  assert (HNt : DayWithinYear target = DayWithinYear now)
    by (unfold DayWithinYear; now rewrite HYt, Hday).
  pose proof (time_value_decompose now) as Enow.
  pose proof (time_value_decompose target) as Etgt.
  rewrite HYt, HNt in Etgt.
  unfold getMonth, getDate, DateFromTime, MonthFromTime in Hearly.
  unfold resolveMonthDay, getFullYear, InLeapYear in *.
  set (y := YearFromTime now) in *.
  set (n := DayWithinYear now) in *.
  set (l := LeapOfYear y) in *.
  set (tn := TimeWithinDay now) in *.
  set (tt := TimeWithinDay target) in *.
  clearbody y n tn tt. clear Hday HYt HNt.
  assert (Hl : 0 <= l <= 1) by apply LeapOfYear_range.
  pose proof (LeapOfYear_range (y + 1)) as Hl'.
  assert (HDy : DaysInYear y = 365 + l) by (unfold l, LeapOfYear; lia).
  assert (HDy' : DaysInYear (y + 1) = 365 + LeapOfYear (y + 1))
    by (unfold LeapOfYear; lia).
  destruct (rollover_arith l (LeapOfYear (y + 1)) n mi d Hl Hl' Hn Hmi Hd Hearly)
    as (Hn1 & Hn2 & Hn3).
  cbv zeta in Hn1, Hn2, Hn3.
  subst target.
  rewrite setMonth_year_day by lia. fold l.
  rewrite setDate_year_day by lia. fold l.
  match goal with |- context [(MakeDate ?a tt <? now)] =>
    assert (Hlt : (MakeDate a tt <? now) = true)
  end.
  { apply Z.ltb_lt. rewrite Enow. apply MakeDate_lt; lia. }
  rewrite Hlt.
  match goal with |- context [YearFromTime (MakeDate (DayFromYear y + ?k) tt) + 1] =>
    destruct (fields_of_year_day y k tt ltac:(lia) Htt) as (HY2 & _)
  end.
  cbv zeta in HY2. rewrite HY2.
  rewrite setFullYear_year_day by lia. fold l.
  match goal with |- context [MakeDate (DayFromYear (y + 1) + ?k) tt] =>
    destruct (fields_of_year_day (y + 1) k tt ltac:(lia) Htt) as (HY3 & _)
  end.
  cbv zeta in HY3. rewrite HY3.
  split; [reflexivity|].
  rewrite Enow. apply MakeDate_lt; try lia.
  rewrite DayFromYear_succ. lia.
Qed.

(** ** Weekday expressions *)

(** *** Weekday offsets *)

Lemma weekday_offset k g :
  0 <= k <= 6 -> 0 <= g <= 6 ->
  let off := orNum (Z.rem (k + 7 - g) 7) 7 in
  1 <= off <= 7 /\ (g + off) mod 7 = k /\ (off = 7 <-> g = k).
Proof.
  intros Hk Hg off. unfold off, orNum.
  rewrite Z.rem_mod_nonneg by lia.
  destruct (Z.eqb_spec ((k + 7 - g) mod 7) 0); divlia.
Qed.

Lemma weekday_offset' k g :
  0 <= k <= 6 -> 0 <= g <= 6 ->
  let off := orNum (Z.rem (k - g + 7) 7) 7 in
  1 <= off <= 7 /\ (g + off) mod 7 = k /\ (off = 7 <-> g = k).
Proof.
  intros Hk Hg. replace (k - g + 7) with (k + 7 - g) by lia.
  now apply weekday_offset.
Qed.

Lemma getDay_same_day t t' : Day t = Day t' -> getDay t = getDay t'.
Proof. unfold getDay, WeekDay. now intros ->. Qed.

(** What a weekday branch of the resolver does to the date. *)
Lemma weekday_branch now target k off :
  Day target = Day now ->
  1 <= off <= 7 /\ (getDay target + off) mod 7 = k
  /\ (off = 7 <-> getDay target = k) ->
  let r := setDate target (getDate target + off) in
  1 <= Day r - Day now <= 7 /\ getDay r = k
  /\ (Day r - Day now = 7 <-> getDay now = k).
Proof.
  intros Hday (Hoff & Hk & H7) r. unfold r.
  rewrite getDay_setDate_plus, Day_setDate_plus, Hday.
  rewrite <- (getDay_same_day _ _ Hday).
  repeat split; try lia; intros; apply H7; lia.
Qed.

Lemma firstWeekday_next_unfold lower :
  firstWeekday "next " lower =
  if includes lower "next monday" then Some 1
  else if includes lower "next tuesday" then Some 2
  else if includes lower "next wednesday" then Some 3
  else if includes lower "next thursday" then Some 4
  else if includes lower "next friday" then Some 5
  else if includes lower "next saturday" then Some 6
  else if includes lower "next sunday" then Some 0 else None.
Proof.
  unfold firstWeekday, weekdays. cbv [List.find fst snd String.append].
  repeat match goal with
         | |- context [includes lower ?w] => destruct (includes lower w)
         end; reflexivity.
Qed.

(** What the seven "next <weekday>" branches compute.  When the input
    contains "next <weekday>" and none of the words "tomorrow", "today",
    "next week" that the resolver looks for first, the resolved date is
    the first day strictly after now's date that falls on that weekday: it
    is 1 to 7 days out, and 7 days out exactly when now falls on that
    weekday itself.  [k] is the weekday of the first "next <weekday>" in
    the order of the resolver's tests; [target] is the resolver's own
    reading of the clock. *)
Theorem next_weekday_within_week now target s k :
  Day target = Day now ->
  includes (toLowerCase s) "tomorrow" = false ->
  includes (toLowerCase s) "today" = false ->
  includes (toLowerCase s) "next week" = false ->
  firstWeekday "next " (toLowerCase s) = Some k ->
  let r := fst (parseDateTimeString now target s) in
  1 <= Day r - Day now <= 7 /\ getDay r = k
  /\ (Day r - Day now = 7 <-> getDay now = k).
Proof.
  intros Hday H1 H2 H3 Hk. rewrite firstWeekday_next_unfold in Hk.
  unfold parseDateTimeString, parseDate. cbn [fst]. cbv zeta.
  rewrite H1, H2, H3.
  pose proof (getDay_range target) as Hg.
  repeat match type of Hk with
         | context [includes ?l ?w] => destruct (includes l w)
         end; try discriminate Hk; injection Hk as <-;
    apply weekday_branch; try assumption; apply weekday_offset; lia.
Qed.

Lemma next_weekday_within_week_witness :
  1 <= Day (fst (parseDateTimeString sundayMorning sundayMorning
                   "next Monday at noon")) - Day sundayMorning <= 7
  /\ getDay (fst (parseDateTimeString sundayMorning sundayMorning
                    "next Monday at noon")) = 1
  /\ (Day (fst (parseDateTimeString sundayMorning sundayMorning
                   "next Monday at noon")) - Day sundayMorning = 7
      <-> getDay sundayMorning = 1).
Proof.
  apply (next_weekday_within_week sundayMorning sundayMorning
           "next Monday at noon" 1); reflexivity.
Defined.

Lemma firstWeekday_bare_unfold lower :
  firstWeekday "" lower =
  if includes lower "monday" then Some 1
  else if includes lower "tuesday" then Some 2
  else if includes lower "wednesday" then Some 3
  else if includes lower "thursday" then Some 4
  else if includes lower "friday" then Some 5
  else if includes lower "saturday" then Some 6
  else if includes lower "sunday" then Some 0 else None.
Proof.
  unfold firstWeekday, weekdays. cbv [List.find fst snd String.append].
  repeat match goal with
         | |- context [includes lower ?w] => destruct (includes lower w)
         end; reflexivity.
Qed.

(** Claim C7, as amended.  When the input contains a bare weekday name,
    the resolved date is 1 to 7 days after now's date, and so never today,
    unless the input also contains "today" and not "tomorrow": the
    resolver looks for these two words before any weekday, and with
    "today" and no "tomorrow" the resolved date is the clock reading,
    today.  (The hypothesis is that a weekday name occurs in the input;
    nothing is needed about the words around it.) *)
Theorem weekday_within_week now target s :
  Day target = Day now ->
  is_Some (firstWeekday "" (toLowerCase s)) ->
  (includes (toLowerCase s) "today" = false
   \/ includes (toLowerCase s) "tomorrow" = true ->
   1 <= Day (fst (parseDateTimeString now target s)) - Day now <= 7)
  /\ (includes (toLowerCase s) "today" = true ->
      includes (toLowerCase s) "tomorrow" = false ->
      fst (parseDateTimeString now target s) = target).
Proof.
  intros Hday [k Hk]. split.
  2:{ intros Htoday Htomorrow. unfold parseDateTimeString, parseDate.
      cbn [fst]. cbv zeta. now rewrite Htomorrow, Htoday. }
  intros Htoday. rewrite firstWeekday_bare_unfold in Hk.
  unfold parseDateTimeString, parseDate. cbn [fst]. cbv zeta.
  pose proof (getDay_range target) as Hg.
  destruct (includes (toLowerCase s) "tomorrow").
  { rewrite Day_setDate_plus. lia. }
  destruct (includes (toLowerCase s) "today").
  { destruct Htoday; discriminate. }
  destruct (includes (toLowerCase s) "next week").
  { rewrite Day_setDate_plus. lia. }
  repeat match goal with
         | |- context [if includes ?l ?w then _ else _] =>
             destruct (includes l w) eqn:?
         end;
    try (eapply proj1, weekday_branch;
         [assumption | first [apply weekday_offset | apply weekday_offset']; lia]).
  discriminate Hk.
Qed.

Lemma weekday_within_week_witness :
  1 <= Day (fst (parseDateTimeString thursdayMorning thursdayMorning
                   "Thursday at 2pm")) - Day thursdayMorning <= 7
  /\ fst (parseDateTimeString thursdayMorning thursdayMorning
            "today or Thursday")
     = thursdayMorning.
Proof.
  split.
  - apply (weekday_within_week thursdayMorning thursdayMorning
             "Thursday at 2pm").
    + reflexivity.
    + exists 4. reflexivity.
    + left. reflexivity.
  - apply (weekday_within_week thursdayMorning thursdayMorning
             "today or Thursday").
    + reflexivity.
    + exists 4. reflexivity.
    + reflexivity.
    + reflexivity.
Defined.

(** So the statement that "next <weekday>" is at least seven days out
    does not hold of the code: on a Sunday "next Monday" resolves to the
    following day. *)
Lemma next_weekday_not_a_week_out :
  ~ (forall now s,
        (exists w, In w weekdays
                   /\ includes (toLowerCase s) ("next " ++ fst w) = true) ->
        7 <= Day (fst (parseDateTimeString now now s)) - Day now).
Proof.
  intros H.
  specialize (H sundayMorning "next Monday").
  assert (E : Day (fst (parseDateTimeString sundayMorning sundayMorning
                          "next Monday")) - Day sundayMorning = 1)
    by (vm_compute; reflexivity).
  rewrite E in H.
  assert (7 <= 1); [|lia].
  apply H. exists ("monday", 1). split; [left; reflexivity|].
  vm_compute. reflexivity.
Qed.

(** Claim C1 fails on the code.  The "next <weekday>" branches add the
    same offset as the branches for a bare weekday, so "next" changes
    nothing: whenever now does not fall on the weekday named, the resolved
    date is that weekday of the coming seven days, less than seven days
    out, where the claim asks for seven at least (and the usage guide for
    "the Tuesday of next week").  On Thursday 1 May 2025, "next Saturday"
    resolves to Saturday 3 May, two days out. *)
Theorem next_weekday_less_than_a_week now target s k :
  Day target = Day now ->
  includes (toLowerCase s) "tomorrow" = false ->
  includes (toLowerCase s) "today" = false ->
  includes (toLowerCase s) "next week" = false ->
  firstWeekday "next " (toLowerCase s) = Some k ->
  getDay now <> k ->
  let r := fst (parseDateTimeString now target s) in
  1 <= Day r - Day now < 7 /\ getDay r = k.
Proof.
  intros Hday H1 H2 H3 Hk Hne.
  destruct (next_weekday_within_week now target s k Hday H1 H2 H3 Hk)
    as (Hr & Hg & H7).
  cbv zeta in *. split; [|exact Hg].
  split; [lia|].
  destruct (Z.eq_dec (Day (fst (parseDateTimeString now target s)) - Day now) 7)
    as [E|E]; [|lia].
  apply H7 in E. contradiction.
Qed.

Lemma next_weekday_less_than_a_week_witness :
  Day (fst (parseDateTimeString thursdayMorning thursdayMorning
              "next Saturday")) - Day thursdayMorning = 2
  /\ getDay (fst (parseDateTimeString thursdayMorning thursdayMorning
                    "next Saturday")) = 6.
Proof.
  destruct (next_weekday_less_than_a_week thursdayMorning thursdayMorning
              "next Saturday" 6) as (_ & Hg); try reflexivity.
  - vm_compute. discriminate.
  - split; [vm_compute; reflexivity|exact Hg].
Defined.

(** Claim C7 as stated fails: an input with a bare weekday name that also
    says "today" resolves to today. *)
Lemma weekday_with_today_is_today :
  ~ (forall now s,
        is_Some (firstWeekday "" (toLowerCase s)) ->
        firstWeekday "next " (toLowerCase s) = None ->
        1 <= Day (fst (parseDateTimeString now now s)) - Day now <= 7).
Proof.
  intros H.
  specialize (H thursdayMorning "today or Monday").
  assert (E : Day (fst (parseDateTimeString thursdayMorning thursdayMorning
                          "today or Monday")) - Day thursdayMorning = 0)
    by (vm_compute; reflexivity).
  rewrite E in H.
  assert (1 <= 0 <= 7); [|lia].
  apply H; [exists 1|]; vm_compute; reflexivity.
Qed.

(** ** Absolute month/day expressions *)

(** *** Substrings *)

Lemma startsWith_includes s q : startsWith s q = true -> includes s q = true.
Proof. destruct s; simpl; intros ->; reflexivity. Qed.

Lemma includes_tail c s q : includes s q = true -> includes (String c s) q = true.
Proof. intros H. cbn [includes]. rewrite H. apply orb_true_r. Qed.

Lemma startsWith_app_includes p : forall s q,
  startsWith s (p ++ q) = true -> includes s q = true.
Proof.
  induction p as [|a p IH]; intros s q H.
  - now apply startsWith_includes.
  - destruct s as [|b s]; [discriminate|].
    cbn in H. apply andb_prop in H as [_ H].
    apply includes_tail. now apply IH.
Qed.

Lemma includes_app_r s p q :
  includes s (p ++ q) = true -> includes s q = true.
Proof.
  induction s as [|c s IH]; cbn [includes]; intros H.
  - rewrite orb_false_r in H. now apply startsWith_app_includes in H.
  - apply orb_prop in H as [H|H].
    + now apply startsWith_app_includes in H.
    + apply includes_tail. now apply IH.
Qed.

Lemma includes_next_false lower w :
  includes lower w = false -> includes lower ("next " ++ w) = false.
Proof.
  intros H. destruct (includes lower ("next " ++ w)) eqn:E; [|reflexivity].
  apply includes_app_r in E. congruence.
Qed.

(** Without a relative expression, the resolver's date is what the
    absolute month/day branches make of the input. *)
Lemma parseDate_month_day now target s mi d :
  hasRelativeKeyword (toLowerCase s) = false ->
  monthDayOf s = Some (mi, d) ->
  parseDate now target s = resolveMonthDay now target mi d.
Proof.
  unfold hasRelativeKeyword. intros H Hmd.
  repeat (apply orb_false_elim in H as [H ?]).
  repeat match goal with
         | X : bool_decide _ = false |- _ => apply bool_decide_eq_false in X
         end.
  assert (Hw : firstWeekday "" (toLowerCase s) = None).
  { destruct (firstWeekday "" (toLowerCase s)); [|reflexivity].
    exfalso; eauto. }
  assert (Hin : matchFirst inDaysAt (toLowerCase s) = None).
  { destruct (matchFirst inDaysAt (toLowerCase s)); [|reflexivity].
    exfalso; eauto. }
  rewrite firstWeekday_bare_unfold in Hw.
  unfold parseDate. cbv zeta.
  repeat match type of Hw with
         | context [includes ?l ?w] =>
             let E := fresh "E" in
             destruct (includes l w) eqn:E; [discriminate Hw|];
             pose proof (includes_next_false _ _ E)
         end.
  cbv [String.append] in *.
  repeat match goal with
         | X : includes _ _ = false |- _ => rewrite X; clear X
         end.
  rewrite Hin. unfold monthDayOf in Hmd.
  destruct (matchFirst monthDayAt s) as [[g1 g2]|].
  - destruct (monthIndexOf (toLowerCase g1) =? -1); [discriminate|].
    now injection Hmd as <- <-.
  - destruct (matchFirst slashAt s) as [[g1 g2]|]; [|discriminate].
    now injection Hmd as <- <-.
Qed.

(** The year rolls over by one for an input that the resolver reads as a
    month and a day ("<Month> <day>" or "M/D": no relative expression in
    it, month index [mi] and day [d]), with [d] a day of that month, and
    that month/day earlier in the year than now's: the resolved date is in
    the year after now's, exactly one year on, and it lies after now. *)
Theorem month_day_rollover now target s mi d :
  Day target = Day now ->
  hasRelativeKeyword (toLowerCase s) = false ->
  monthDayOf s = Some (mi, d) ->
  0 <= mi <= 11 ->
  1 <= d <= DaysInMonth mi (InLeapYear now) ->
  mi < getMonth now \/ (mi = getMonth now /\ d < getDate now) ->
  let r := fst (parseDateTimeString now target s) in
  getFullYear r = getFullYear now + 1 /\ now < r.
Proof.
  intros Hday Hrel Hmd Hmi Hd Hearly. cbn [parseDateTimeString fst].
  rewrite (parseDate_month_day _ _ _ _ _ Hrel Hmd).
  now apply resolveMonthDay_rolls.
Qed.

Lemma month_day_rollover_witness :
  getFullYear (fst (parseDateTimeString thursdayMorning thursdayMorning
                      "Jan 5th"))
  = getFullYear thursdayMorning + 1
  /\ thursdayMorning
     < fst (parseDateTimeString thursdayMorning thursdayMorning "Jan 5th").
Proof.
  apply (month_day_rollover thursdayMorning thursdayMorning "Jan 5th" 0 5).
  - reflexivity.
  - vm_compute; reflexivity.
  - vm_compute; reflexivity.
  - lia.
  - vm_compute. split; discriminate.
  - left. vm_compute. reflexivity.
Defined.

(** Every canonical absolute input is read as the month and day it
    stands for. *)
Lemma month_day_inputs_recognised :
  forall s mi d, In (s, (mi, d)) monthDayInputs ->
  hasRelativeKeyword (toLowerCase s) = false /\ monthDayOf s = Some (mi, d).
Proof.
  assert (H : forallb recognised monthDayInputs = true) by (vm_compute; reflexivity).
  rewrite forallb_forall in H.
  intros s mi d Hin. specialize (H _ Hin). unfold recognised in H. cbn [fst snd] in H.
  apply andb_prop in H as [H1 H2].
  apply negb_true_iff in H1. apply bool_decide_eq_true in H2. auto.
Qed.

(** Claim C5 fails on the code.  The expression for "<Month> <day>"
    accepts any word before the number, and "M/D" is tried only when no
    word is followed by a number anywhere in the input.  So a month/day
    that stands beside a time is not read at all: on Thursday 1 May 2025
    the inputs "1/5 at 3pm" and "at 3pm on Jan 5th" (in both "at 3" is
    found first, and "at" is no month) resolve to 1 May 2025 itself, with
    no year advanced, although 5 January is earlier in the year than now.
    Alone or before the time the same month/day does roll over: "1/5" and
    "Jan 5th at 3pm" resolve to Monday 5 January 2026. *)
Theorem month_day_beside_a_time_stays_today :
  fst (parseDateTimeString thursdayMorning thursdayMorning "1/5 at 3pm")
  = thursdayMorning
  /\ fst (parseDateTimeString thursdayMorning thursdayMorning
            "at 3pm on Jan 5th")
     = thursdayMorning
  /\ fields (fst (parseDateTimeString thursdayMorning thursdayMorning "1/5"))
     = (2026, 0, 5, 1)
  /\ fields (fst (parseDateTimeString thursdayMorning thursdayMorning
                    "Jan 5th at 3pm"))
     = (2026, 0, 5, 1).
Proof. repeat split. Qed.

(** ** Time of day *)

(** *** No time without a meridiem, "noon" or "midnight" *)

Lemma includes_app_l p s q : includes s q = true -> includes (p ++ s) q = true.
Proof.
  intros H. induction p as [|c p IH]; [exact H|].
  change (String c p ++ s) with (String c (p ++ s)). now apply includes_tail.
Qed.

Lemma append_assoc (a b c : string) : (a ++ b) ++ c = a ++ b ++ c.
Proof.
  induction a as [|x a IH]; [reflexivity|].
  change ((String x a ++ b) ++ c) with (String x ((a ++ b) ++ c)).
  now rewrite IH.
Qed.

Lemma toLowerCase_app p r :
  toLowerCase (p ++ r) = toLowerCase p ++ toLowerCase r.
Proof.
  unfold toLowerCase. induction p as [|c p IH]; [reflexivity|].
  change (String c p ++ r) with (String c (p ++ r)).
  cbn [map]. rewrite IH. reflexivity.
Qed.

Lemma lowerChar_idem c : lowerChar (lowerChar c) = lowerChar c.
Proof.
  destruct c as [[] [] [] [] [] [] [] []]; reflexivity.
Qed.

Lemma stripCI_startsWith w : forall r x,
  stripCI w r = Some x -> startsWith (toLowerCase r) (toLowerCase w) = true.
Proof.
  induction w as [|a w IH]; intros r x H; [now destruct r|].
  destruct r as [|b r]; [discriminate|].
  cbn in H. destruct (Ascii.eqb_spec (lowerChar a) (lowerChar b)) as [E|]; [|discriminate].
  cbn. rewrite E, Ascii.eqb_refl. cbn. eapply IH, H.
Qed.

Lemma takeWhile_dropWhile f s : s = takeWhile f s ++ dropWhile f s.
Proof.
  induction s as [|c s IH]; [reflexivity|].
  cbn. destruct (f c); [|reflexivity].
  change (String c (takeWhile f s) ++ dropWhile f s)
    with (String c (takeWhile f s ++ dropWhile f s)).
  now rewrite <- IH.
Qed.

Lemma stripCI_suffix w : forall s r, stripCI w s = Some r -> exists p, s = p ++ r.
Proof.
  induction w as [|a w IH]; intros s r H.
  - injection H as <-. now exists "".
  - destruct s as [|b s]; [discriminate|]. cbn in H.
    destruct (Ascii.eqb (lowerChar a) (lowerChar b)); [|discriminate].
    destruct (IH _ _ H) as [p ->]. now exists (String b p).
Qed.

Lemma marked_app p s : marked s -> marked (p ++ s).
Proof.
  intros (p' & r & w & x & -> & Hw & Hx).
  exists (p ++ p'), r, w, x. split; [|now split].
  symmetry. apply append_assoc.
Qed.

Lemma marked_includes s :
  marked s -> exists w, In w timeWords /\ includes (toLowerCase s) w = true.
Proof.
  intros (p & r & w & x & -> & Hw & Hx). exists w. split; [exact Hw|].
  rewrite toLowerCase_app. apply includes_app_l, startsWith_includes.
  apply stripCI_startsWith in Hx.
  replace (toLowerCase w) with w in Hx; [exact Hx|].
  repeat destruct Hw as [<-|Hw]; try reflexivity. destruct Hw.
Qed.

Lemma timeTail_marked pre hh mm s m :
  timeTail pre hh mm s = Some m -> marked s.
Proof.
  unfold timeTail. intros H.
  rewrite (takeWhile_dropWhile isSpace s). apply marked_app.
  set (r := dropWhile isSpace s) in *.
  destruct (String.eqb_spec (toLowerCase (String.substring 0 2 r)) "am") as [E|_].
  - exists "", r, "am". destruct r as [|a [|b r']]; try discriminate.
    cbn in E. injection E as Ea Eb.
    exists r'. split; [reflexivity|]. split; [now left|].
    cbn. change "a"%char with (lowerChar "a"). rewrite Ea.
    rewrite lowerChar_idem, Ascii.eqb_refl.
    change "m"%char with (lowerChar "m"). rewrite Eb.
    now rewrite lowerChar_idem, Ascii.eqb_refl.
  - destruct (String.eqb_spec (toLowerCase (String.substring 0 2 r)) "pm") as [E|_];
      [|discriminate].
    exists "", r, "pm". destruct r as [|a [|b r']]; try discriminate.
    cbn in E. injection E as Ea Eb.
    exists r'. split; [reflexivity|]. split; [right; now left|].
    cbn. change "p"%char with (lowerChar "p"). rewrite Ea.
    rewrite lowerChar_idem, Ascii.eqb_refl.
    change "m"%char with (lowerChar "m"). rewrite Eb.
    now rewrite lowerChar_idem, Ascii.eqb_refl.
Qed.

Lemma marked_cons c s : marked s -> marked (String c s).
Proof. apply (marked_app (String c "")). Qed.

Lemma timeMinutes_marked pre hh s m :
  timeMinutes pre hh s = Some m -> marked s.
Proof.
  unfold timeMinutes.
  match goal with |- orElse ?a _ = _ -> _ => destruct a as [t|] eqn:E end;
    unfold orElse; intros H; [|now apply timeTail_marked in H].
  destruct s as [|c [|d1 [|d2 r]]]; try discriminate E;
    try (destruct c as [[] [] [] [] [] [] [] []]; discriminate E).
  destruct c as [[] [] [] [] [] [] [] []]; try discriminate E.
  destruct (isDigit d1 && isDigit d2); [|discriminate].
  apply timeTail_marked in E. now do 3 apply marked_cons.
Qed.

Lemma timeHour_marked pre s m : timeHour pre s = Some m -> marked s.
Proof.
  unfold timeHour, orElse. intros H.
  destruct s as [|d1 s1]; [discriminate|].
  destruct (isDigit d1); [|discriminate].
  apply marked_cons.
  destruct s1 as [|d2 s2].
  - now apply timeMinutes_marked in H.
  - destruct (isDigit d2).
    + destruct (timeMinutes pre (String d1 (String d2 "")) s2) eqn:E.
      * apply timeMinutes_marked in E. now apply marked_cons.
      * now apply timeMinutes_marked in H.
    + now apply timeMinutes_marked in H.
Qed.

Lemma timeWord_marked w pre s m :
  In w timeWords -> timeWord w pre s = Some m -> marked s.
Proof.
  unfold timeWord. intros Hw H.
  destruct (stripCI w s) as [x|] eqn:E; [|discriminate].
  now exists "", s, w, x.
Qed.

Lemma atPrefix_suffix s pre r : atPrefix s = Some (pre, r) -> exists p, s = p ++ r.
Proof.
  unfold atPrefix. intros H.
  destruct (stripCI "at" s) as [r0|] eqn:E; [|discriminate].
  destruct (isEmpty (takeWhile isSpace r0)); [discriminate|].
  injection H as _ <-.
  destruct (stripCI_suffix _ _ _ E) as [p ->].
  exists (p ++ takeWhile isSpace r0).
  rewrite append_assoc. now rewrite <- takeWhile_dropWhile.
Qed.

Lemma withAt_marked k s m :
  (forall pre r m, k pre r = Some m -> marked r) ->
  withAt k s = Some m -> marked s.
Proof.
  unfold withAt, orElse. intros Hk H.
  destruct (atPrefix s) as [[pre r]|] eqn:E; [|now apply Hk in H].
  destruct (k pre r) eqn:Ek; [|now apply Hk in H].
  destruct (atPrefix_suffix _ _ _ E) as [p ->].
  apply marked_app. now apply Hk in Ek.
Qed.

Lemma timeRegexAt_marked s m : timeRegexAt s = Some m -> marked s.
Proof.
  unfold timeRegexAt, orElse. intros H.
  destruct (withAt timeHour s) eqn:E1.
  { eapply withAt_marked, E1. apply timeHour_marked. }
  destruct (withAt (timeWord "noon") s) eqn:E2.
  { eapply withAt_marked, E2. intros ? ? ?. apply timeWord_marked. cbn; auto. }
  eapply withAt_marked, H. intros ? ? ?. apply timeWord_marked. cbn; auto.
Qed.

Lemma timeRegex_marked s m : timeRegex s = Some m -> marked s.
Proof.
  unfold timeRegex. induction s as [|c s IH]; cbn [matchFirst].
  - destruct (timeRegexAt "") eqn:E; [|discriminate].
    intros _. now apply timeRegexAt_marked in E.
  - destruct (timeRegexAt (String c s)) eqn:E.
    + intros _. now apply timeRegexAt_marked in E.
    + intros H. apply marked_cons. now apply IH.
Qed.

(** An input that has neither a meridiem nor "noon" nor "midnight" resolves
    to no time at all: in particular no bare hour ever reaches the table
    that would give it a meridiem. *)
Lemma no_time_without_meridiem s :
  includes (toLowerCase s) "am" = false ->
  includes (toLowerCase s) "pm" = false ->
  includes (toLowerCase s) "noon" = false ->
  includes (toLowerCase s) "midnight" = false ->
  parseTime s = None.
Proof.
  intros Ham Hpm Hnoon Hmid. unfold parseTime.
  destruct (timeRegex s) as [m|] eqn:E; [|reflexivity].
  apply timeRegex_marked, marked_includes in E as (w & Hw & Hin).
  cbn in Hw. repeat destruct Hw as [<-|Hw]; try congruence. destruct Hw.
Qed.

(** ** Agent wrapper and end time *)

(** *** Agent wrapper *)

Lemma filter_none_successful pre :
  Forall (fun st => isSuccessfulStep st = false) pre ->
  List.filter isSuccessfulStep pre = [].
Proof.
  induction 1 as [|st pre Hst _ IH]; [reflexivity|].
  cbn [List.filter]. now rewrite Hst.
Qed.

Lemma indexOfFrom_first i pre s post :
  Forall (fun st => isSuccessfulStep st = false) pre ->
  isSuccessfulStep s = true ->
  indexOfFrom i s (pre ++ s :: post) = i + Z.of_nat (length pre).
Proof.
  intros Hpre Hs. revert i.
  induction Hpre as [|st pre Hst _ IH]; intros i; cbn [app indexOfFrom length].
  - rewrite decide_True by reflexivity. lia.
  - rewrite decide_False by (intros ->; congruence).
    rewrite IH. lia.
Qed.

Lemma slice0_upto pre s post :
  slice0 (Z.of_nat (length pre) + 1) (pre ++ s :: post) = (pre ++ [s])%list.
Proof.
  unfold slice0.
  replace (Z.to_nat (Z.of_nat (length pre) + 1)) with (length (pre ++ [s])%list)
    by (rewrite length_app; cbn; lia).
  replace (pre ++ s :: post)%list with ((pre ++ [s]) ++ post)%list
    by (now rewrite <- app_assoc).
  apply take_app_length.
Qed.

(** Claim C3.  Whatever the executor returns (and so whatever its iteration
    cap): when its intermediate steps are [pre], then a step [s] whose
    observation carries a recognized success marker, then [post], with no
    such step in [pre], the call returns the observation of [s] as its
    output and the steps up to and including [s]; the steps of [post] are
    gone. *)
Theorem first_success_forces_stop {Inputs} (originalCall : Inputs -> AgentResult)
    (inputs : Inputs) (pre post : list Step) (s : Step) :
  intermediateSteps (originalCall inputs) = Some (pre ++ s :: post)%list ->
  Forall (fun st => isSuccessfulStep st = false) pre ->
  isSuccessfulStep s = true ->
  let r := agentCall originalCall inputs in
  output r = observation s /\ intermediateSteps r = Some (pre ++ [s])%list.
Proof.
  intros Hsteps Hpre Hs. unfold agentCall, forceStop.
  rewrite Hsteps.
  assert (Hlen : (0 <? Z.of_nat (length (pre ++ s :: post))) = true).
  { apply Z.ltb_lt. rewrite length_app. cbn. lia. }
  rewrite Hlen, List.filter_app, (filter_none_successful pre Hpre).
  cbn [List.filter app]. rewrite Hs.
  unfold indexOf. rewrite (indexOfFrom_first 0 pre s post Hpre Hs).
  rewrite Z.add_0_l, slice0_upto.
  cbn [intermediateSteps output].
  rewrite last_snoc.
  destruct (obsIncludes (observation s) "Agent stopped due to max iterations"
            && (0 <? Z.of_nat (length (pre ++ [s])%list))); [|now split].
  destruct (obsIncludes (observation s) "Task completed"); now split.
Qed.

Lemma first_success_forces_stop_witness :
  output (agentCall sampleRun "email a@b.c")
  = Some "Successfully sent email to a@b.c"
  /\ intermediateSteps (agentCall sampleRun "email a@b.c")
     = Some [mkStep "open_new_tab" (Some "Requested to open the page");
             mkStep "send_email" (Some "Successfully sent email to a@b.c")].
Proof.
  apply (first_success_forces_stop sampleRun "email a@b.c"
           [mkStep "open_new_tab" (Some "Requested to open the page")]
           [mkStep "send_email" (Some "Successfully sent email to a@b.c")]
           (mkStep "send_email" (Some "Successfully sent email to a@b.c"))).
  - reflexivity.
  - repeat constructor.
  - reflexivity.
Defined.

(** *** End time *)

(** Claim C6.  The end time typed by [create_calendar_event]: 11 AM gives
    12 PM, 12 PM gives 1 PM, 11 PM gives 12 AM, 12 AM gives 1 AM, and every
    other hour gives the next hour with the same meridiem; the minutes are
    those of the start time.  On a 12-hour clock reading this is the time
    sixty minutes later, around the clock. *)
Theorem end_time_one_hour_later (m : Z) :
  endTime (mkTime 11 m "AM") = mkTime 12 m "PM"
  /\ endTime (mkTime 12 m "PM") = mkTime 1 m "PM"
  /\ endTime (mkTime 11 m "PM") = mkTime 12 m "AM"
  /\ endTime (mkTime 12 m "AM") = mkTime 1 m "AM"
  /\ (forall h p, h <> 11 -> h <> 12 ->
        endTime (mkTime h m p) = mkTime (h + 1) m p)
  /\ (forall h p, 1 <= h <= 12 -> 0 <= m < 60 -> p = "AM" \/ p = "PM" ->
        minuteOfDay (endTime (mkTime h m p))
        = (minuteOfDay (mkTime h m p) + 60) mod 1440).
Proof.
  repeat split; try reflexivity.
  - intros h p H11 H12. unfold endTime. cbn [hour minute period].
    apply Z.eqb_neq in H11, H12. rewrite H11, H12. cbn [andb].
    now destruct (String.eqb p "AM").
  - intros h p Hh Hm [-> | ->]; unfold endTime, minuteOfDay; cbn [hour minute period].
    + assert (C : h = 1 \/ h = 2 \/ h = 3 \/ h = 4 \/ h = 5 \/ h = 6 \/ h = 7
                  \/ h = 8 \/ h = 9 \/ h = 10 \/ h = 11 \/ h = 12) by lia.
      repeat destruct C as [C|C]; subst h; cbn; divlia.
    + assert (C : h = 1 \/ h = 2 \/ h = 3 \/ h = 4 \/ h = 5 \/ h = 6 \/ h = 7
                  \/ h = 8 \/ h = 9 \/ h = 10 \/ h = 11 \/ h = 12) by lia.
      repeat destruct C as [C|C]; subst h; cbn; divlia.
Qed.

Lemma end_time_one_hour_later_witness :
  endTime (mkTime 9 30 "AM") = mkTime 10 30 "AM"
  /\ minuteOfDay (endTime (mkTime 11 45 "PM"))
     = (minuteOfDay (mkTime 11 45 "PM") + 60) mod 1440.
Proof.
  destruct (end_time_one_hour_later 30) as (_ & _ & _ & _ & Hother & _).
  destruct (end_time_one_hour_later 45) as (_ & _ & _ & _ & _ & Hlater).
  split.
  - apply (Hother 9 "AM"); lia.
  - apply (Hlater 11 "PM"); [lia | lia | right; reflexivity].
Defined.

(** ** The completion handler *)

(** *** Completion of a request *)

Lemma completeRequest_status body (r : Request) :
  isCompleted (Some (completeRequest body r)) = true.
Proof.
  unfold completeRequest, isCompleted.
  repeat match goal with
         | |- context [if ?b then _ else _] => destruct b
         end;
    repeat (rewrite lookup_insert_ne by discriminate);
    rewrite lookup_insert_eq; reflexivity.
Qed.

Lemma completeRequest_carries_nothing body (r : Request) :
  carriesNothing body = true ->
  isCompleted (Some r) = true ->
  completeRequest body r = r.
Proof.
  unfold carriesNothing, completeRequest. intros H Hc.
  apply andb_prop in H as [H H3]. apply andb_prop in H as [H1 H2].
  apply negb_true_iff in H1, H2, H3. rewrite H1, H2, H3.
  apply insert_id. unfold isCompleted in Hc.
  destruct (r !! "status") as [[]|]; try discriminate.
  apply String.eqb_eq in Hc. now subst.
Qed.

Lemma complete_keeps_completed id' body tbl id :
  isCompleted (tbl !! id) = true ->
  isCompleted (snd (complete id' body tbl) !! id) = true.
Proof.
  intros H. unfold complete.
  destruct (tbl !! id') as [r|] eqn:E; cbn [snd]; [|exact H].
  destruct (decide (id' = id)) as [->|Hne].
  - rewrite lookup_insert_eq. apply completeRequest_status.
  - now rewrite lookup_insert_ne.
Qed.

Lemma completeAll_keeps_completed calls : forall tbl id,
  isCompleted (tbl !! id) = true ->
  isCompleted (completeAll calls tbl !! id) = true.
Proof.
  unfold completeAll.
  induction calls as [|c calls IH]; intros tbl id H; cbn [fold_left].
  - exact H.
  - apply IH. now apply complete_keeps_completed.
Qed.

Lemma isCompleted_status (r : Request) :
  isCompleted (Some r) = true <-> r !! "status" = Some (JStr "completed").
Proof.
  unfold isCompleted. split.
  - destruct (r !! "status") as [[| | |st| |]|]; try discriminate.
    intros H. apply String.eqb_eq in H. now subst.
  - intros ->. reflexivity.
Qed.

(** What a completion stores, field by field. *)
Lemma completeRequest_fields body (r : Request) :
  let r' := completeRequest body r in
  r' !! "status" = Some (JStr "completed")
  /\ (truthy (dataUrl body) = true -> r' !! "dataUrl" = Some (dataUrl body))
  /\ (truthy (success body) && truthy (filename body) = true ->
        r' !! "success" = Some (JBool true)
        /\ r' !! "filename" = Some (filename body)
        /\ r' !! "downloadId" = Some (downloadId body))
  /\ (truthy (error body) = true -> r' !! "error" = Some (error body))
  /\ (forall key,
        key <> "status" ->
        (key = "dataUrl" -> truthy (dataUrl body) = false) ->
        (key = "success" \/ key = "filename" \/ key = "downloadId" ->
           truthy (success body) && truthy (filename body) = false) ->
        (key = "error" -> truthy (error body) = false) ->
        r' !! key = r !! key).
Proof.
  cbv zeta. unfold completeRequest.
  destruct (truthy (dataUrl body)) eqn:E1;
    destruct (truthy (success body) && truthy (filename body)) eqn:E2;
    destruct (truthy (error body)) eqn:E3;
    (split; [|split; [|split; [|split]]]);
    try discriminate; intros;
    repeat match goal with
           | |- _ /\ _ => split
           | |- <[?k := _]> _ !! ?k = _ => apply lookup_insert_eq
           | |- <[?k := _]> _ !! ?k' = _ =>
               rewrite (lookup_insert_ne _ k k')
                 by first [ discriminate
                          | let E := fresh in
                            intros E; subst;
                            first [ congruence
                                  | match goal with
                                    | H : _ -> true = false |- _ =>
                                        assert (true = false)
                                          by (apply H; auto);
                                        discriminate
                                    end ] ]
           end; try reflexivity.
Qed.

Lemma completeRequest_noop body (r : Request) :
  completeRequest body r = r
  <-> r !! "status" = Some (JStr "completed")
      /\ (truthy (dataUrl body) = true -> r !! "dataUrl" = Some (dataUrl body))
      /\ (truthy (success body) && truthy (filename body) = true ->
            r !! "success" = Some (JBool true)
            /\ r !! "filename" = Some (filename body)
            /\ r !! "downloadId" = Some (downloadId body))
      /\ (truthy (error body) = true -> r !! "error" = Some (error body)).
Proof.
  split.
  - intros E.
    destruct (completeRequest_fields body r) as (Hs & Hd & Hf & He & _).
    cbv zeta in *. rewrite E in Hs, Hd, Hf, He. auto.
  - intros (Hs & Hd & Hf & He). unfold completeRequest.
    destruct (truthy (dataUrl body));
      destruct (truthy (success body) && truthy (filename body));
      destruct (truthy (error body));
      repeat match goal with
             | H : true = true -> _ |- _ => specialize (H eq_refl)
             | H : _ /\ _ |- _ => destruct H
             end;
      repeat (rewrite (insert_id r) by assumption); reflexivity.
Qed.

(** Claim C4, as amended.  Completing an unknown id answers 404 and leaves
    the table as it is.  Completing the id of a request in the table
    answers 200, leaves that request completed and every other entry
    untouched, and no later run of completions makes it anything else than
    completed.  A further completion of the same request is accepted like
    the first: it stores the fields that its body carries (a truthy
    [dataUrl]; [success], [filename] and [downloadId] when [success] and
    [filename] are truthy; a truthy [error]) over the stored ones and
    leaves every other field of the request as it is.  It leaves the table
    as it is exactly when the request is completed and every field that
    the body carries is stored with the same value already; in particular
    when the body carries nothing. *)
Theorem complete_transitions (id : string) (body : CompleteBody) (tbl : Table) :
  (tbl !! id = None ->
     complete id body tbl = (Json 404 "{ error: 'Request not found' }", tbl))
  /\ (forall r, tbl !! id = Some r ->
        statusOf (fst (complete id body tbl)) = 200
        /\ isCompleted (snd (complete id body tbl) !! id) = true
        /\ (forall id', id' <> id ->
              snd (complete id body tbl) !! id' = tbl !! id')
        /\ (forall calls,
              isCompleted (completeAll calls (snd (complete id body tbl)) !! id)
              = true)
        /\ (exists r',
              snd (complete id body tbl) !! id = Some r'
              /\ (truthy (dataUrl body) = true ->
                    r' !! "dataUrl" = Some (dataUrl body))
              /\ (truthy (success body) && truthy (filename body) = true ->
                    r' !! "success" = Some (JBool true)
                    /\ r' !! "filename" = Some (filename body)
                    /\ r' !! "downloadId" = Some (downloadId body))
              /\ (truthy (error body) = true ->
                    r' !! "error" = Some (error body))
              /\ (forall key,
                    key <> "status" ->
                    (key = "dataUrl" -> truthy (dataUrl body) = false) ->
                    (key = "success" \/ key = "filename" \/ key = "downloadId" ->
                       truthy (success body) && truthy (filename body) = false) ->
                    (key = "error" -> truthy (error body) = false) ->
                    r' !! key = r !! key))
        /\ (snd (complete id body tbl) = tbl
            <-> isCompleted (Some r) = true
                /\ (truthy (dataUrl body) = true ->
                      r !! "dataUrl" = Some (dataUrl body))
                /\ (truthy (success body) && truthy (filename body) = true ->
                      r !! "success" = Some (JBool true)
                      /\ r !! "filename" = Some (filename body)
                      /\ r !! "downloadId" = Some (downloadId body))
                /\ (truthy (error body) = true ->
                      r !! "error" = Some (error body)))
        /\ (isCompleted (Some r) = true -> carriesNothing body = true ->
              snd (complete id body tbl) = tbl)).
Proof.
  split.
  - intros H. unfold complete. now rewrite H.
  - intros r H.
    assert (Hc : isCompleted (snd (complete id body tbl) !! id) = true).
    { unfold complete. rewrite H. cbn [snd]. rewrite lookup_insert_eq.
      apply completeRequest_status. }
    assert (Htbl : snd (complete id body tbl)
                   = <[id := completeRequest body r]> tbl).
    { unfold complete. now rewrite H. }
    split; [unfold complete; now rewrite H|].
    split; [exact Hc|].
    split.
    { intros id' Hne. rewrite Htbl. now rewrite lookup_insert_ne. }
    split; [intros calls; now apply completeAll_keeps_completed|].
    split.
    { exists (completeRequest body r). split.
      - rewrite Htbl. apply lookup_insert_eq.
      - destruct (completeRequest_fields body r) as (_ & Hd & Hf & He & Ho).
        auto. }
    split.
    { rewrite Htbl, isCompleted_status, <- completeRequest_noop. split.
      - intros E. apply (f_equal (fun t : Table => t !! id)) in E.
        rewrite lookup_insert_eq, H in E. now injection E.
      - intros ->. now apply insert_id. }
    intros Hr Hb. rewrite Htbl.
    rewrite completeRequest_carries_nothing by assumption.
    now apply insert_id.
Qed.

Lemma complete_transitions_witness :
  complete "42" savedBody oneScreenshot
    = (Json 404 "{ error: 'Request not found' }", oneScreenshot)
  /\ statusOf (fst (complete "1700000000000" savedBody oneScreenshot)) = 200
  /\ isCompleted
       (snd (complete "1700000000000" savedBody oneScreenshot)
          !! "1700000000000") = true
  /\ snd (complete "1700000000000" noBody
            (snd (complete "1700000000000" savedBody oneScreenshot)))
     = snd (complete "1700000000000" savedBody oneScreenshot)
  /\ snd (complete "1700000000000" savedBody
            (snd (complete "1700000000000" savedBody oneScreenshot)))
     = snd (complete "1700000000000" savedBody oneScreenshot).
Proof.
  split.
  - apply (complete_transitions "42" savedBody oneScreenshot). reflexivity.
  - destruct (complete_transitions "1700000000000" savedBody oneScreenshot)
      as [_ H].
    destruct (H pendingScreenshot) as (H1 & H2 & _); [reflexivity|].
    split; [exact H1|]. split; [exact H2|].
    assert (Hin : snd (complete "1700000000000" savedBody oneScreenshot)
                    !! "1700000000000"
                  = Some (completeRequest savedBody pendingScreenshot)).
    { unfold complete, oneScreenshot. rewrite lookup_singleton_eq.
      cbn [snd]. apply lookup_insert_eq. }
    split.
    + destruct (complete_transitions "1700000000000" noBody
                  (snd (complete "1700000000000" savedBody oneScreenshot)))
        as [_ H'].
      destruct (H' (completeRequest savedBody pendingScreenshot) Hin)
        as (_ & _ & _ & _ & _ & _ & Hnoop).
      apply Hnoop; [apply completeRequest_status | reflexivity].
    + destruct (complete_transitions "1700000000000" savedBody
                  (snd (complete "1700000000000" savedBody oneScreenshot)))
        as [_ H'].
      destruct (H' (completeRequest savedBody pendingScreenshot) Hin)
        as (_ & _ & _ & _ & _ & Hiff & _).
      apply Hiff. split; [apply completeRequest_status|].
      split; [discriminate|]. split; [|discriminate].
      intros _. repeat split.
Defined.

(** Claim C4 as stated fails: a second completion of the same request is
    answered 200, so it is no error, and it changes the table, so it is no
    no-op. *)
Lemma second_completion_overwrites :
  isCompleted (snd (complete "1700000000000" savedBody oneScreenshot)
                 !! "1700000000000") = true
  /\ statusOf (fst (complete "1700000000000" failedBody
                      (snd (complete "1700000000000" savedBody oneScreenshot))))
     = 200
  /\ snd (complete "1700000000000" failedBody
            (snd (complete "1700000000000" savedBody oneScreenshot)))
     <> snd (complete "1700000000000" savedBody oneScreenshot).
Proof.
  repeat split.
  intros E.
  apply (f_equal (fun t : Table =>
                    field (default ∅ (t !! "1700000000000")) "error")) in E.
  vm_compute in E. discriminate E.
Qed.

(** ** Request ids and the tab tools *)

(** *** Request ids *)

Lemma int_of_string_toString c :
  NilZero.int_of_string (toString c) = Some (Z.to_int c).
Proof.
  unfold toString. apply NilZero.isi; destruct c; cbn; try discriminate;
    intros [= E]; now apply DecimalPos.Unsigned.to_uint_nonnil in E.
Qed.

Lemma requestIdOf_inj c c' : requestIdOf c = requestIdOf c' -> c = c'.
Proof.
  unfold requestIdOf. intros H.
  apply DecimalZ.to_int_inj.
  apply (f_equal NilZero.int_of_string) in H.
  rewrite !int_of_string_toString in H. congruence.
Qed.

(** Enqueues that read different clock values get different ids and
    both entries are in the table. *)
Lemma setPending_distinct c c' r r' (tbl : Table) :
  c <> c' ->
  let '(id, tbl1) := setPending c r tbl in
  let '(id', tbl2) := setPending c' r' tbl1 in
  id <> id' /\ tbl2 !! id = Some r /\ tbl2 !! id' = Some r'.
Proof.
  intros Hne. unfold setPending.
  assert (requestIdOf c <> requestIdOf c') by (intros E; now apply requestIdOf_inj in E).
  repeat split; [assumption| |].
  - rewrite lookup_insert_ne by congruence. apply lookup_insert_eq.
  - apply lookup_insert_eq.
Qed.

(** Claim C9 fails on the code: two enqueues that read the same
    millisecond from the clock get the same id, and the second replaces
    the entry of the first. *)
Theorem same_millisecond_overwrites (clock : Z) (url1 url2 : string)
    (tbl : Table) :
  let first := pendingTab (JStr url1) (JStr url1) in
  let second := pendingTab (JStr url2) (JStr url2) in
  let '(id1, tbl1) := setPending clock first tbl in
  let '(id2, tbl2) := setPending clock second tbl1 in
  id1 = id2
  /\ tbl1 !! id1 = Some first
  /\ tbl2 !! id1 = Some second
  /\ tbl2 = snd (setPending clock second tbl).
Proof.
  unfold setPending. cbv zeta. repeat split.
  - apply lookup_insert_eq.
  - apply lookup_insert_eq.
  - apply insert_insert_eq.
Qed.

(** *** [navigate_browser] and [open_new_tab] *)

Lemma navigate_browser_returns url clock wait (tbl : Table) :
  exists text, fst (navigate_browser url clock wait tbl) = Returned text.
Proof.
  unfold navigate_browser, setPending.
  match goal with |- context [if ?b then _ else _] => destruct b end;
    eexists; reflexivity.
Qed.

Lemma open_new_tab_returns args clock wait (tbl : Table) :
  truthy (fst (resolveOpenTab args)) = true ->
  exists text, fst (open_new_tab args clock wait tbl) = Returned text
               /\ startsWith text "Task completed" = true.
Proof.
  intros H. unfold open_new_tab, setPending.
  destruct (resolveOpenTab args) as [finalUrl serviceName]. cbn [fst] in H.
  rewrite H. cbn [negb].
  match goal with |- context [if ?b then _ else _] => destruct b end;
    eexists; split; reflexivity.
Qed.

Lemma open_new_tab_unresolved args clock wait (tbl : Table) :
  truthy (fst (resolveOpenTab args)) = false ->
  open_new_tab args clock wait tbl
  = (Thrown "Please provide either a service name, URL, or search query", tbl).
Proof.
  intros H. unfold open_new_tab.
  destruct (resolveOpenTab args) as [finalUrl serviceName]. cbn [fst] in H.
  now rewrite H.
Qed.

(** Claim C8 fails on the code for [navigate_browser]: when nothing
    completes the request during the wait, the tool returns normally, but
    its text starts with "Requested", not with a success marker. *)
Theorem navigate_browser_unconfirmed (url : string) (clock : Z) (tbl : Table) :
  let text := "Requested to open " ++ url
              ++ " in a new tab in your current browser window." in
  fst (navigate_browser url clock (fun t => t) tbl) = Returned text
  /\ startsWith text "Successfully" = false
  /\ startsWith text "Task completed" = false.
Proof.
  cbv zeta. repeat split.
  unfold navigate_browser, setPending.
  rewrite lookup_insert_eq. reflexivity.
Qed.

(** A service name that names no Google service but is not looked up as
    [undefined] does throw, and leaves the table as it is. *)
Lemma unknown_service_throws svc clock wait (tbl : Table) :
  isEmpty svc = false ->
  (if startsWith (toLowerCase svc) "new "
   then getProperty CREATE_NEW_URLS (dropNew (toLowerCase svc)) = JUndefined
   else getProperty GOOGLE_SERVICES (toLowerCase svc) = JUndefined
        /\ toLowerCase svc <> "google") ->
  open_new_tab (mkOpenTabArgs (Some svc) None None) clock wait tbl
  = (Thrown "Please provide either a service name, URL, or search query", tbl).
Proof.
  intros Hne H. apply open_new_tab_unresolved.
  unfold resolveOpenTab. cbn [service url search ofArg truthy display].
  rewrite Hne. cbn [negb andb].
  destruct (startsWith (toLowerCase svc) "new ").
  - rewrite H. reflexivity.
  - destruct H as [-> Hg]. cbn [truthy].
    destruct (String.eqb_spec (toLowerCase svc) "google"); [contradiction|].
    reflexivity.
Qed.

(** Claim C10 fails on the code: the service name "constructor" names no
    Google service, yet the lookup in the table of services finds the
    inherited [constructor] property, so nothing is thrown and a request
    whose URL is that function is enqueued. *)
Theorem open_new_tab_constructor (clock : Z) (tbl : Table) :
  open_new_tab (mkOpenTabArgs (Some "constructor") None None) clock
    (fun t => t) tbl
  = (Returned "Task completed! I have requested to open Constructor in a new tab.",
     <[requestIdOf clock :=
         pendingTab (JFunction "Object") (JStr "Constructor")]> tbl).
Proof.
  unfold open_new_tab.
  change (resolveOpenTab (mkOpenTabArgs (Some "constructor") None None))
    with (JFunction "Object", JStr "Constructor").
  cbn [truthy negb]. unfold setPending.
  rewrite lookup_insert_eq. reflexivity.
Qed.

(** *** Bare hours *)

(** Claim C2 fails on the code for bare hours: the time expression
    demands a meridiem after the digits, so "at 9" and "at 3" resolve to no
    time, the table for bare hours is never reached, and the "at 12" of the
    usage guide has no time either.  (With a meridiem, "noon" or
    "midnight" the claim holds, see [time_with_meridiem].) *)
Theorem bare_hour_has_no_time :
  parseTime "at 9" = None /\ parseTime "at 3" = None
  /\ parseTime "June 10th at 12" = None.
Proof. repeat split. Qed.

Example time_with_meridiem :
  parseTime "at 2pm" = Some (mkTime 2 0 "PM")
  /\ parseTime "at noon" = Some (mkTime 12 0 "PM")
  /\ parseTime "at midnight" = Some (mkTime 12 0 "AM")
  /\ parseTime "at 9 am" = Some (mkTime 9 0 "AM")
  /\ parseTime "at 3:30pm" = Some (mkTime 3 30 "PM").
Proof. repeat split. Qed.

(** * Further properties *)

(** ** More on the date resolver *)

Lemma MakeDate_plus_days t k :
  MakeDate (Day t + k) (TimeWithinDay t) = t + k * msPerDay.
Proof.
  pose proof (MakeDate_Day t) as H. unfold MakeDate in *. lia.
Qed.

Lemma setDate_plus_days t k : setDate t (getDate t + k) = t + k * msPerDay.
Proof. rewrite setDate_getDate_plus. apply MakeDate_plus_days. Qed.

(** Property X1.  The relative words are tried in a fixed order and the
    first one found decides the date alone.  An input with "tomorrow", in
    any case and whatever else it says, resolves to one day after the
    clock reading; without "tomorrow", an input with "today" resolves to
    the reading itself; without either, an input with "next week" resolves
    to seven days after it.  The time of day of the reading is kept. *)
Theorem relative_keywords (now target : Z) (s : string) :
  (includes (toLowerCase s) "tomorrow" = true ->
     fst (parseDateTimeString now target s) = target + msPerDay)
  /\ (includes (toLowerCase s) "tomorrow" = false ->
      includes (toLowerCase s) "today" = true ->
      fst (parseDateTimeString now target s) = target)
  /\ (includes (toLowerCase s) "tomorrow" = false ->
      includes (toLowerCase s) "today" = false ->
      includes (toLowerCase s) "next week" = true ->
      fst (parseDateTimeString now target s) = target + 7 * msPerDay).
Proof.
  unfold parseDateTimeString, parseDate. cbn [fst]. cbv zeta.
  repeat split.
  - intros ->. rewrite setDate_plus_days. lia.
  - intros -> ->. reflexivity.
  - intros -> -> ->. apply setDate_plus_days.
Qed.

Lemma relative_keywords_witness :
  fst (parseDateTimeString thursdayMorning thursdayMorning
         "Tomorrow at 2pm, not Monday")
  = thursdayMorning + msPerDay.
Proof.
  apply (relative_keywords thursdayMorning thursdayMorning
           "Tomorrow at 2pm, not Monday").
  reflexivity.
Defined.

(** What the resolver does once the relative words of rules 1 to 3 are
    known to be absent. *)
Lemma parseDate_no_keyword now target s :
  includes (toLowerCase s) "tomorrow" = false ->
  includes (toLowerCase s) "today" = false ->
  includes (toLowerCase s) "next week" = false ->
  firstWeekday "" (toLowerCase s) = None ->
  parseDate now target s =
  match matchFirst inDaysAt (toLowerCase s) with
  | Some n => setDate target (getDate target + parseInt n)
  | None =>
      match matchFirst monthDayAt s with
      | Some (g1, g2) =>
          if negb (monthIndexOf (toLowerCase g1) =? -1)
          then resolveMonthDay now target (monthIndexOf (toLowerCase g1))
                 (parseInt g2)
          else target
      | None =>
          match matchFirst slashAt s with
          | Some (g1, g2) =>
              resolveMonthDay now target (parseInt g1 - 1) (parseInt g2)
          | None => target
          end
      end
  end.
Proof.
  intros H1 H2 H3 Hw. rewrite firstWeekday_bare_unfold in Hw.
  unfold parseDate. cbv zeta. rewrite H1, H2, H3.
  repeat match type of Hw with
         | context [includes ?l ?w] =>
             let E := fresh "E" in
             destruct (includes l w) eqn:E; [discriminate Hw|];
             pose proof (includes_next_false _ _ E)
         end.
  cbv [String.append] in *.
  repeat match goal with
         | X : includes _ _ = false |- _ => rewrite X; clear X
         end.
  destruct (matchFirst inDaysAt (toLowerCase s)); [reflexivity|].
  destruct (matchFirst monthDayAt s) as [[g1 g2]|]; [reflexivity|].
  destruct (matchFirst slashAt s) as [[g1 g2]|]; reflexivity.
Qed.

(** Property X2.  An input with none of the three relative words and no
    weekday name, in which the expression "in <n> days" is found, resolves
    to [n] days after the clock reading, as long as that day is well
    inside the range of valid dates (for a larger [n] the code has an
    invalid date). *)
Theorem in_days_adds_days (now target : Z) (s n : string) :
  includes (toLowerCase s) "tomorrow" = false ->
  includes (toLowerCase s) "today" = false ->
  includes (toLowerCase s) "next week" = false ->
  firstWeekday "" (toLowerCase s) = None ->
  matchFirst inDaysAt (toLowerCase s) = Some n ->
  validTime target ->
  validTime (target + parseInt n * msPerDay) ->
  fst (parseDateTimeString now target s) = target + parseInt n * msPerDay.
Proof.
  intros H1 H2 H3 Hw Hn _ _. cbn [parseDateTimeString fst].
  rewrite parseDate_no_keyword, Hn by assumption.
  apply setDate_plus_days.
Qed.

Lemma in_days_adds_days_witness :
  fst (parseDateTimeString thursdayMorning thursdayMorning
         "Dentist in 10 days at 9am")
  = thursdayMorning + parseInt "10" * msPerDay.
Proof.
  apply (in_days_adds_days thursdayMorning thursdayMorning
           "Dentist in 10 days at 9am" "10"); try reflexivity;
    vm_compute; discriminate.
Defined.

(** Property X3.  The expression "<word> <number>" is tried before "M/D",
    and its failure is final: when the first word that is followed by a
    number is no month name, the date stays the clock reading and a slash
    date elsewhere in the input is never looked at.  So "12/25 at 3pm"
    resolves to today, because "at 3" is found first. *)
Theorem unknown_word_hides_the_date (now target : Z) (s g1 g2 : string) :
  hasRelativeKeyword (toLowerCase s) = false ->
  matchFirst monthDayAt s = Some (g1, g2) ->
  monthIndexOf (toLowerCase g1) = -1 ->
  fst (parseDateTimeString now target s) = target.
Proof.
  unfold hasRelativeKeyword. intros H Hmd Hmi.
  repeat (apply orb_false_elim in H as [H ?]).
  repeat match goal with
         | X : bool_decide _ = false |- _ => apply bool_decide_eq_false in X
         end.
  assert (Hw : firstWeekday "" (toLowerCase s) = None).
  { destruct (firstWeekday "" (toLowerCase s)); [|reflexivity].
    exfalso; eauto. }
  assert (Hin : matchFirst inDaysAt (toLowerCase s) = None).
  { destruct (matchFirst inDaysAt (toLowerCase s)); [|reflexivity].
    exfalso; eauto. }
  cbn [parseDateTimeString fst].
  rewrite parseDate_no_keyword, Hin, Hmd, Hmi by assumption.
  reflexivity.
Qed.

Lemma unknown_word_hides_the_date_witness :
  fst (parseDateTimeString thursdayMorning thursdayMorning "12/25 at 3pm")
  = thursdayMorning.
Proof.
  apply (unknown_word_hides_the_date thursdayMorning thursdayMorning
           "12/25 at 3pm" "at" "3"); reflexivity.
Defined.

(** Property X4.  An input without any date expression (no relative
    word, no weekday, no "in <n> days", no "<word> <number>" and no "M/D")
    resolves to the clock reading: the event is dated today. *)
Theorem no_date_expression_keeps_now (now target : Z) (s : string) :
  hasRelativeKeyword (toLowerCase s) = false ->
  matchFirst monthDayAt s = None ->
  matchFirst slashAt s = None ->
  fst (parseDateTimeString now target s) = target.
Proof.
  unfold hasRelativeKeyword. intros H Hmd Hsl.
  repeat (apply orb_false_elim in H as [H ?]).
  repeat match goal with
         | X : bool_decide _ = false |- _ => apply bool_decide_eq_false in X
         end.
  assert (Hw : firstWeekday "" (toLowerCase s) = None).
  { destruct (firstWeekday "" (toLowerCase s)); [|reflexivity].
    exfalso; eauto. }
  assert (Hin : matchFirst inDaysAt (toLowerCase s) = None).
  { destruct (matchFirst inDaysAt (toLowerCase s)); [|reflexivity].
    exfalso; eauto. }
  cbn [parseDateTimeString fst].
  rewrite parseDate_no_keyword, Hin, Hmd, Hsl by assumption.
  reflexivity.
Qed.

Lemma no_date_expression_keeps_now_witness :
  fst (parseDateTimeString thursdayMorning thursdayMorning "Lunch at noon")
  = thursdayMorning.
Proof.
  apply (no_date_expression_keeps_now thursdayMorning thursdayMorning
           "Lunch at noon"); reflexivity.
Defined.

(** *** Absolute month/day: the value of the result *)

Lemma month_day_arith l n mi d :
  0 <= l <= 1 -> 0 <= n < 365 + l ->
  0 <= mi <= 11 -> 1 <= d <= DaysInMonth mi l ->
  let M := MonthOfYearDay n l in
  let D := n - DaysBeforeMonth M l + 1 in
  let n1 := DaysBeforeMonth mi l + D - 1 in
  let M1 := MonthOfYearDay n1 l in
  let n2 := DaysBeforeMonth M1 l + d - 1 in
  (0 <= n1 < 365 + l) /\ (0 <= n2 < 365 + l)
  /\ M1 = (if D <=? DaysInMonth mi l then mi else mi + 1)
  /\ 0 <= M1 <= 11
  /\ d <= DaysInMonth M1 l
  /\ (DaysInMonth mi l < D -> DaysInMonth M1 l = 31)
  /\ (n2 < n <-> mi < M \/ (mi = M /\ d < D))
  /\ (n2 = n <-> mi = M /\ d = D).
Proof.
  intros Hl Hn Hmi Hd M D n1 M1 n2.
  destruct (MonthOfYearDay_bounds n l Hl Hn) as [HM HMn].
  fold M in HM, HMn. clearbody M.
  pose proof (DaysInMonth_range M l Hl) as HdimM.
  pose proof (DaysInMonth_range mi l Hl) as Hdimmi.
  pose proof (DaysBeforeMonth_range mi l Hl Hmi) as Hbmi.
  pose proof (DaysBeforeMonth_range M l Hl HM) as HbM.
  assert (HD : 1 <= D <= DaysInMonth M l) by (unfold D; lia).
  assert (Hlt : forall a b, 0 <= a -> a < b -> b <= 11 ->
                  DaysBeforeMonth a l + DaysInMonth a l <= DaysBeforeMonth b l).
  { intros. apply DaysBeforeMonth_mono; lia. }
  assert (Hnext : forall a, 0 <= a <= 10 ->
            DaysBeforeMonth (a + 1) l = DaysBeforeMonth a l + DaysInMonth a l).
  { intros. apply DaysBeforeMonth_next; lia. }
  destruct (Z.leb_spec D (DaysInMonth mi l)) as [Hfit|Hover].
  - (* the day of the month exists in month [mi] *)
    assert (HM1 : M1 = mi) by (apply MonthOfYearDay_unique; unfold n1; lia).
    clearbody M1. subst M1.
    destruct (Z.lt_trichotomy mi M) as [L|[E|G]].
    + specialize (Hlt mi M ltac:(lia) L ltac:(lia)).
      unfold n1, n2, D in *. repeat split; lia.
    + subst mi. unfold n1, n2, D in *. repeat split; lia.
    + specialize (Hlt M mi ltac:(lia) G ltac:(lia)).
      unfold n1, n2, D in *. repeat split; lia.
  - (* it does not: the date carries into the next month *)
    assert (Hne : mi <> M) by (intros ->; lia).
    assert (Hmi10 : mi <= 10).
    { destruct (Z.eq_dec mi 11) as [->|]; [|lia].
      unfold DaysInMonth in Hover. simpl in Hover. lia. }
    pose proof (DaysInMonth_after_short mi l Hl ltac:(lia) ltac:(lia)) as H31.
    specialize (Hnext mi ltac:(lia)).
    assert (HM1 : M1 = mi + 1).
    { apply MonthOfYearDay_unique; [lia|lia|]. rewrite Hnext. unfold n1. lia. }
    pose proof (DaysBeforeMonth_range (mi + 1) l Hl ltac:(lia)) as Hb1.
    clearbody M1. subst M1.
    destruct (Z.lt_trichotomy mi M) as [L|[E|G]]; [|contradiction|].
    + destruct (Z.eq_dec (mi + 1) M) as [E|NE].
      * subst M. unfold n1, n2, D in *. repeat split; lia.
      * specialize (Hlt (mi + 1) M ltac:(lia) ltac:(lia) ltac:(lia)).
        unfold n1, n2, D in *. repeat split; lia.
    + specialize (Hlt M mi ltac:(lia) G ltac:(lia)).
      unfold n1, n2, D in *. repeat split; lia.
Qed.

Lemma MakeDate_le d tod tod' :
  tod <= tod' -> MakeDate d tod <= MakeDate d tod'.
Proof. unfold MakeDate. lia. Qed.

(** The month and date of a day given by year, month and day of the
    month. *)
Lemma fields_of_month_day y m d tod :
  0 <= m <= 11 -> 1 <= d <= DaysInMonth m (LeapOfYear y) ->
  0 <= tod < msPerDay ->
  let t := MakeDate (DayFromYear y + (DaysBeforeMonth m (LeapOfYear y) + d - 1)) tod in
  getFullYear t = y /\ getMonth t = m /\ getDate t = d.
Proof.
  intros Hm Hd Htod t.
  pose proof (LeapOfYear_range y) as Hl.
  pose proof (DaysBeforeMonth_range m _ Hl Hm) as Hb.
  assert (HDy : DaysInYear y = 365 + LeapOfYear y) by (unfold LeapOfYear; lia).
  destruct (fields_of_year_day y (DaysBeforeMonth m (LeapOfYear y) + d - 1) tod
              ltac:(lia) Htod) as (HY & HN & _ & HL).
  fold t in HY, HN, HL.
  assert (HM : MonthFromTime t = m).
  { unfold MonthFromTime. rewrite HN, HL.
    apply MonthOfYearDay_unique; lia. }
  repeat split.
  - exact HY.
  - exact HM.
  - unfold getDate, DateFromTime. rewrite HM, HN, HL. lia.
Qed.

(** The value of an absolute month/day: the day [d] of the month [mi], or
    of the month after it when now's day of the month does not exist in
    [mi]; in now's year, or in the next when that lies before now. *)
Lemma resolveMonthDay_value now target mi d :
  Day target = Day now -> now <= target ->
  0 <= mi <= 11 ->
  1 <= d <= DaysInMonth mi (InLeapYear now) ->
  let M1 := if getDate now <=? DaysInMonth mi (InLeapYear now)
            then mi else mi + 1 in
  let y := if (mi <? getMonth now) || ((mi =? getMonth now) && (d <? getDate now))
           then getFullYear now + 1 else getFullYear now in
  resolveMonthDay now target mi d
  = MakeDate (DayFromYear y + (DaysBeforeMonth M1 (LeapOfYear y) + d - 1))
      (TimeWithinDay target)
  /\ 0 <= M1 <= 11
  /\ d <= DaysInMonth M1 (InLeapYear now)
  /\ (DaysInMonth mi (InLeapYear now) < getDate now ->
      DaysInMonth M1 (InLeapYear now) = 31)
  /\ now <= resolveMonthDay now target mi d.
Proof.
  intros Hday Hle Hmi Hd.
  pose proof (DayWithinYear_range now) as Hn.
  pose proof (TimeWithinDay_range now) as Htn.
  pose proof (TimeWithinDay_range target) as Htt.
  assert (HYt : YearFromTime target = YearFromTime now)
    by (unfold YearFromTime; now rewrite Hday).
  assert (HNt : DayWithinYear target = DayWithinYear now)
    by (unfold DayWithinYear; now rewrite HYt, Hday).
  pose proof (time_value_decompose now) as Enow.
  pose proof (time_value_decompose target) as Etgt.
  rewrite HYt, HNt in Etgt.
  unfold resolveMonthDay, getFullYear, getMonth, getDate, DateFromTime,
    MonthFromTime, InLeapYear in *.
  set (y := YearFromTime now) in *.
  set (n := DayWithinYear now) in *.
  set (l := LeapOfYear y) in *.
  set (tn := TimeWithinDay now) in *.
  set (tt := TimeWithinDay target) in *.
  clearbody y n tn tt. clear Hday HYt HNt.
  assert (Hl : 0 <= l <= 1) by apply LeapOfYear_range.
  pose proof (LeapOfYear_range (y + 1)) as Hl'.
  assert (HDy : DaysInYear y = 365 + l) by (unfold l, LeapOfYear; lia).
  assert (HDy' : DaysInYear (y + 1) = 365 + LeapOfYear (y + 1))
    by (unfold LeapOfYear; lia).
  assert (Htod : tn <= tt).
  { rewrite Enow, Etgt in Hle. unfold MakeDate in Hle. lia. }
  destruct (month_day_arith l n mi d Hl Hn Hmi Hd)
    as (Hn1 & Hn2 & HM1 & HM1r & HdM1 & H31 & Hlt & Heq).
  cbv zeta in Hn1, Hn2, HM1, HM1r, HdM1, H31, Hlt, Heq.
  set (D := n - DaysBeforeMonth (MonthOfYearDay n l) l + 1) in *.
  set (n1 := DaysBeforeMonth mi l + D - 1) in *.
  rewrite <- HM1.
  set (M1 := MonthOfYearDay n1 l) in *.
  assert (EM1 : MonthOfYearDay n1 l = M1) by reflexivity. clearbody M1.
  subst target.
  rewrite setMonth_year_day; [|lia..]. fold l.
  change (DaysBeforeMonth mi l
          + (n - DaysBeforeMonth (MonthOfYearDay n l) l + 1) - 1) with n1.
  rewrite setDate_year_day; [|lia..]. fold l.
  rewrite EM1.
  set (M := MonthOfYearDay n l) in *. clearbody M.
  set (n2 := DaysBeforeMonth M1 l + d - 1) in *.
  destruct ((mi <? M) || ((mi =? M) && (d <? D))) eqn:Eearly.
  - (* earlier than now: next year *)
    assert (Hearly : n2 < n).
    { apply Hlt. apply orb_prop in Eearly as [E|E].
      - left. now apply Z.ltb_lt in E.
      - right. apply andb_prop in E as [E1 E2].
        apply Z.eqb_eq in E1. apply Z.ltb_lt in E2. now split. }
    assert (Hroll : (MakeDate (DayFromYear y + n2) tt <? now) = true).
    { apply Z.ltb_lt. rewrite Enow. apply MakeDate_lt; lia. }
    rewrite Hroll.
    destruct (fields_of_year_day y n2 tt ltac:(lia) Htt) as (HY2 & _).
    cbv zeta in HY2. rewrite HY2.
    rewrite setFullYear_year_day by lia. fold l.
    assert (EM2 : MonthOfYearDay n2 l = M1)
      by (apply MonthOfYearDay_unique; unfold n2; lia).
    rewrite EM2.
    replace (n2 - DaysBeforeMonth M1 l + 1) with d by (unfold n2; lia).
    pose proof (year_day_other_leap M1 d l (LeapOfYear (y + 1)) Hl Hl' HM1r
                  ltac:(lia)) as Hn3.
    split; [f_equal; lia|]. split; [assumption|]. split; [assumption|].
    split; [assumption|].
    rewrite Enow at 1. apply Z.lt_le_incl, MakeDate_lt; try lia.
    rewrite DayFromYear_succ. lia.
  - (* not earlier: this year *)
    assert (Hlate : n <= n2).
    { destruct (Z.le_gt_cases n n2) as [|Hc]; [assumption|].
      apply Hlt in Hc. exfalso.
      apply orb_false_elim in Eearly as [E1 E2].
      apply Z.ltb_ge in E1.
      destruct Hc as [Hc|[Hc1 Hc2]]; [lia|].
      apply Z.eqb_eq in Hc1. apply Z.ltb_lt in Hc2.
      rewrite Hc1, Hc2 in E2. discriminate. }
    assert (Hge : now <= MakeDate (DayFromYear y + n2) tt).
    { rewrite Enow. destruct (Z.eq_dec n n2) as [<-|].
      - now apply MakeDate_le.
      - apply Z.lt_le_incl, MakeDate_lt; lia. }
    assert (Hroll : (MakeDate (DayFromYear y + n2) tt <? now) = false)
      by (apply Z.ltb_ge; exact Hge).
    rewrite Hroll. fold l.
    split; [reflexivity|]. repeat split; assumption || lia.
Qed.

Lemma DaysInMonth_other_leap m l l' d :
  0 <= l <= 1 -> 0 <= l' <= 1 -> d <= DaysInMonth m l ->
  ~ (m = 1 /\ d = 29) -> d <= DaysInMonth m l'.
Proof.
  intros Hl Hl' Hd Hfeb. unfold DaysInMonth in *.
  destruct (Z.eqb_spec m 1); [|assumption]. lia.
Qed.

Lemma DaysInMonth_31_any_leap m l l' :
  0 <= l <= 1 -> DaysInMonth m l = 31 -> DaysInMonth m l' = 31.
Proof.
  intros Hl. unfold DaysInMonth.
  destruct (Z.eqb_spec m 1); [lia|]. trivial.
Qed.

(** Property X5.  A month/day input never resolves to a moment before
    now: for every input read as month [mi] and day [d], with [d] a day of
    that month, the result is at or after [now], whether or not the year
    was rolled over.  ([target] is the second reading of the clock, on the
    same day as [now] and not before it.) *)
Theorem month_day_never_in_past (now target : Z) (s : string) (mi d : Z) :
  Day target = Day now -> now <= target ->
  hasRelativeKeyword (toLowerCase s) = false ->
  monthDayOf s = Some (mi, d) ->
  0 <= mi <= 11 ->
  1 <= d <= DaysInMonth mi (InLeapYear now) ->
  now <= fst (parseDateTimeString now target s).
Proof.
  intros Hday Hle Hrel Hmd Hmi Hd. cbn [parseDateTimeString fst].
  rewrite (parseDate_month_day _ _ _ _ _ Hrel Hmd).
  apply (resolveMonthDay_value now target mi d Hday Hle Hmi Hd).
Qed.

Lemma month_day_never_in_past_witness :
  thursdayMorning
  <= fst (parseDateTimeString thursdayMorning thursdayMorning "Dec 25").
Proof.
  apply (month_day_never_in_past thursdayMorning thursdayMorning "Dec 25" 11 25).
  - reflexivity.
  - lia.
  - vm_compute; reflexivity.
  - vm_compute; reflexivity.
  - lia.
  - vm_compute. split; discriminate.
Defined.

(** Property X6.  An input read as month [mi] and day [d], with [mi] a
    month of the year (0 to 11) and [d] a day of that month, resolves to
    that month and that day, provided that today's day of the month
    exists in the named month (and the input is not 29 February, which the
    following year may lack). *)
Theorem month_day_as_named (now target : Z) (s : string) (mi d : Z) :
  Day target = Day now -> now <= target ->
  hasRelativeKeyword (toLowerCase s) = false ->
  monthDayOf s = Some (mi, d) ->
  0 <= mi <= 11 ->
  1 <= d <= DaysInMonth mi (InLeapYear now) ->
  getDate now <= DaysInMonth mi (InLeapYear now) ->
  ~ (mi = 1 /\ d = 29) ->
  getMonth (fst (parseDateTimeString now target s)) = mi
  /\ getDate (fst (parseDateTimeString now target s)) = d.
Proof.
  intros Hday Hle Hrel Hmd Hmi Hd Hfit Hfeb. cbn [parseDateTimeString fst].
  rewrite (parseDate_month_day _ _ _ _ _ Hrel Hmd).
  destruct (resolveMonthDay_value now target mi d Hday Hle Hmi Hd)
    as (-> & _ & _ & _ & _).
  apply Z.leb_le in Hfit. rewrite Hfit.
  match goal with |- context [LeapOfYear ?y] => set (y' := y) end.
  apply (fields_of_month_day y' mi d (TimeWithinDay target)).
  - assumption.
  - split; [lia|].
    apply (DaysInMonth_other_leap mi (InLeapYear now));
      [apply LeapOfYear_range | apply LeapOfYear_range | lia | assumption].
  - apply TimeWithinDay_range.
Qed.

Lemma month_day_as_named_witness :
  getMonth (fst (parseDateTimeString thursdayMorning thursdayMorning
                   "June 10th at 12")) = 5
  /\ getDate (fst (parseDateTimeString thursdayMorning thursdayMorning
                     "June 10th at 12")) = 10.
Proof.
  apply (month_day_as_named thursdayMorning thursdayMorning
           "June 10th at 12" 5 10).
  - reflexivity.
  - lia.
  - vm_compute; reflexivity.
  - vm_compute; reflexivity.
  - lia.
  - vm_compute. split; discriminate.
  - vm_compute. discriminate.
  - intros [H _]. discriminate H.
Defined.

(** Property X7.  When today's day of the month does not exist in the
    named month, [setMonth] overflows before [setDate] is called: an input
    read as month [mi] and day [d], with [mi] a month of the year (0 to
    11) and [d] a day of that month, then resolves to day [d] of the month
    after the one named.  On 31 January, "Feb 10" resolves to 10 March. *)
Theorem month_day_spills_into_next_month
    (now target : Z) (s : string) (mi d : Z) :
  Day target = Day now -> now <= target ->
  hasRelativeKeyword (toLowerCase s) = false ->
  monthDayOf s = Some (mi, d) ->
  0 <= mi <= 11 ->
  1 <= d <= DaysInMonth mi (InLeapYear now) ->
  DaysInMonth mi (InLeapYear now) < getDate now ->
  getMonth (fst (parseDateTimeString now target s)) = mi + 1
  /\ getDate (fst (parseDateTimeString now target s)) = d.
Proof.
  intros Hday Hle Hrel Hmd Hmi Hd Hover. cbn [parseDateTimeString fst].
  rewrite (parseDate_month_day _ _ _ _ _ Hrel Hmd).
  destruct (resolveMonthDay_value now target mi d Hday Hle Hmi Hd)
    as (-> & HM1 & HdM1 & H31 & _).
  specialize (H31 Hover).
  assert (E : (getDate now <=? DaysInMonth mi (InLeapYear now)) = false)
    by (apply Z.leb_gt; exact Hover).
  rewrite E in *.
  match goal with |- context [LeapOfYear ?y] => set (y' := y) end.
  apply (fields_of_month_day y' (mi + 1) d (TimeWithinDay target)).
  - assumption.
  - split; [lia|].
    rewrite (DaysInMonth_31_any_leap (mi + 1) (InLeapYear now) (LeapOfYear y'));
      [|apply LeapOfYear_range|assumption].
    pose proof (DaysInMonth_range mi (InLeapYear now) (LeapOfYear_range _)). lia.
  - apply TimeWithinDay_range.
Qed.

Lemma month_day_spills_into_next_month_witness :
  getMonth (fst (parseDateTimeString endOfJanuary endOfJanuary "Feb 10")) = 2
  /\ getDate (fst (parseDateTimeString endOfJanuary endOfJanuary "Feb 10")) = 10.
Proof.
  apply (month_day_spills_into_next_month endOfJanuary endOfJanuary
           "Feb 10" 1 10).
  - reflexivity.
  - lia.
  - vm_compute; reflexivity.
  - vm_compute; reflexivity.
  - lia.
  - vm_compute. split; discriminate.
  - vm_compute. reflexivity.
Defined.

(** *** The shape of a resolved time *)

Lemma timeTail_groups pre hh mm s m :
  isDigits12 hh = true ->
  match mm with Some x => isDigits12 x = true | None => True end ->
  timeTail pre hh mm s = Some m -> timeGroups m.
Proof.
  unfold timeTail. intros Hh Hm H.
  set (ap := String.substring 0 2 (dropWhile isSpace s)) in *.
  destruct (String.eqb_spec (toLowerCase ap) "am") as [E|_].
  - injection H as <-. right. exists hh, ap. cbn.
    repeat split; auto. destruct mm; eauto.
  - destruct (String.eqb_spec (toLowerCase ap) "pm") as [E|_]; [|discriminate].
    injection H as <-. right. exists hh, ap. cbn.
    repeat split; auto. destruct mm; eauto.
Qed.

Lemma timeMinutes_groups pre hh s m :
  isDigits12 hh = true -> timeMinutes pre hh s = Some m -> timeGroups m.
Proof.
  unfold timeMinutes. intros Hh.
  match goal with |- orElse ?a _ = _ -> _ => destruct a as [t|] eqn:E end;
    unfold orElse; intros H;
    [|now apply (timeTail_groups pre hh None s m Hh I)].
  injection H as <-.
  destruct s as [|c [|d1 [|d2 r]]]; try discriminate E;
    try (destruct c as [[] [] [] [] [] [] [] []]; discriminate E).
  destruct c as [[] [] [] [] [] [] [] []]; try discriminate E.
  destruct (isDigit d1 && isDigit d2) eqn:Ed; [|discriminate].
  now apply (timeTail_groups pre hh (Some (String d1 (String d2 ""))) r t Hh Ed)
    in E.
Qed.

Lemma timeHour_groups pre s m : timeHour pre s = Some m -> timeGroups m.
Proof.
  unfold timeHour, orElse. intros H.
  destruct s as [|d1 s1]; [discriminate|].
  destruct (isDigit d1) eqn:E1; [|discriminate].
  assert (H1 : isDigits12 (String d1 "") = true) by exact E1.
  destruct s1 as [|d2 s2].
  - now apply timeMinutes_groups in H.
  - destruct (isDigit d2) eqn:E2.
    + assert (H2 : isDigits12 (String d1 (String d2 "")) = true)
        by (cbn; now rewrite E1, E2).
      destruct (timeMinutes pre (String d1 (String d2 "")) s2) eqn:E.
      * injection H as <-. now apply timeMinutes_groups in E.
      * now apply timeMinutes_groups in H.
    + now apply timeMinutes_groups in H.
Qed.

Lemma timeWord_groups w pre s m : timeWord w pre s = Some m -> timeGroups m.
Proof.
  unfold timeWord. destruct (stripCI w s); [|discriminate].
  intros [= <-]. now left.
Qed.

Lemma withAt_groups k s m :
  (forall pre r m, k pre r = Some m -> timeGroups m) ->
  withAt k s = Some m -> timeGroups m.
Proof.
  unfold withAt, orElse. intros Hk H.
  destruct (atPrefix s) as [[pre r]|]; [|now apply Hk in H].
  destruct (k pre r) eqn:Ek; [|now apply Hk in H].
  injection H as <-. now apply Hk in Ek.
Qed.

Lemma timeRegex_groups s m : timeRegex s = Some m -> timeGroups m.
Proof.
  assert (Hat : forall s m, timeRegexAt s = Some m -> timeGroups m).
  { clear. intros s m. unfold timeRegexAt, orElse.
    destruct (withAt timeHour s) eqn:E1.
    { intros [= <-]. eapply withAt_groups, E1. apply timeHour_groups. }
    destruct (withAt (timeWord "noon") s) eqn:E2.
    { intros [= <-]. eapply withAt_groups, E2. intros ? ? ?. apply timeWord_groups. }
    intros H. eapply withAt_groups, H. intros ? ? ?. apply timeWord_groups. }
  unfold timeRegex. induction s as [|c s IH]; cbn [matchFirst].
  - destruct (timeRegexAt "") eqn:E; [|discriminate].
    intros [= <-]. now apply Hat in E.
  - destruct (timeRegexAt (String c s)) eqn:E.
    + intros [= <-]. now apply Hat in E.
    + exact IH.
Qed.

Lemma isDigit_value c : isDigit c = true -> 0 <= code c - 48 <= 9.
Proof. unfold isDigit. intros H. apply andb_prop in H as [H1 H2]. lia. Qed.

Lemma parseInt_digits12 s : isDigits12 s = true -> 0 <= parseInt s <= 99.
Proof.
  destruct s as [|d1 [|d2 [|]]]; try discriminate; cbn [isDigits12]; intros H.
  - pose proof (isDigit_value _ H). unfold parseInt. cbn [parseDigits].
    rewrite H. lia.
  - apply andb_prop in H as [H1 H2].
    pose proof (isDigit_value _ H1). pose proof (isDigit_value _ H2).
    unfold parseInt. cbn [parseDigits]. rewrite H1, H2. lia.
Qed.

Lemma isDigits12_nonempty s : isDigits12 s = true -> isEmpty s = false.
Proof. now destruct s. Qed.

Lemma meridiem_upper ap :
  toLowerCase ap = "am" \/ toLowerCase ap = "pm" ->
  (toUpperCase ap = "AM" \/ toUpperCase ap = "PM") /\ isEmpty ap = false.
Proof.
  destruct ap as [|a [|b [|]]]; cbn; intros [H|H]; try discriminate H;
    injection H as Ha Hb; split; try reflexivity;
    destruct a as [[] [] [] [] [] [] [] []]; try discriminate Ha;
    destruct b as [[] [] [] [] [] [] [] []]; try discriminate Hb; auto.
Qed.

(** Property X8.  Every time that the resolver returns has the period
    "AM" or "PM" and an hour and a minute between 0 and 99.  Hour and
    minute are the digits as written: nothing compares them with 12 or 59,
    so "25:99pm" gives 25:99 PM. *)
Theorem resolved_time_shape (s : string) (t : TargetTime) :
  parseTime s = Some t ->
  (period t = "AM" \/ period t = "PM")
  /\ 0 <= hour t <= 99 /\ 0 <= minute t <= 99.
Proof.
  unfold parseTime.
  destruct (timeRegex s) as [m|] eqn:E; [|discriminate].
  apply timeRegex_groups in E.
  destruct (includes (toLowerCase (tm_full m)) "noon").
  { intros [= <-]. cbn. repeat split; auto; lia. }
  destruct (includes (toLowerCase (tm_full m)) "midnight").
  { intros [= <-]. cbn. repeat split; auto; lia. }
  intros [= <-]. cbn [hour minute period].
  destruct E as [(-> & -> & ->)|(hh & ap & -> & Hh & Hm & -> & Hap)].
  - vm_compute. repeat split; auto; discriminate.
  - apply meridiem_upper in Hap as [Hap Hne].
    cbn [orDefault]. rewrite (isDigits12_nonempty _ Hh), Hne.
    assert (Hup : isEmpty (toUpperCase ap) = false).
    { destruct Hap as [-> | ->]; reflexivity. }
    rewrite Hup. split; [exact Hap|]. split; [now apply parseInt_digits12|].
    destruct Hm as [-> | (mm & -> & Hmm)]; cbn [orDefault].
    + vm_compute. split; discriminate.
    + rewrite (isDigits12_nonempty _ Hmm). now apply parseInt_digits12.
Qed.

Lemma resolved_time_shape_witness :
  (period (mkTime 25 99 "PM") = "AM" \/ period (mkTime 25 99 "PM") = "PM")
  /\ 0 <= hour (mkTime 25 99 "PM") <= 99
  /\ 0 <= minute (mkTime 25 99 "PM") <= 99.
Proof.
  apply (resolved_time_shape "meet at 25:99pm" (mkTime 25 99 "PM")).
  reflexivity.
Defined.

(** *** The typed time text reads back *)

Lemma all_times_round_trip :
  forallb (fun h =>
    forallb (fun m => timeRoundTrips h m "AM" && timeRoundTrips h m "PM")
      (seqZ 0 100))
    (seqZ 0 100) = true.
Proof. vm_compute. reflexivity. Qed.

(** Property X9.  The text that [create_calendar_event] types for a time
    reads back as that time: for every hour and minute that the resolver
    can return and either period, resolving the typed text gives the same
    hour, minute and period. *)
Theorem time_text_round_trip (h m : Z) (p : string) :
  0 <= h <= 99 -> 0 <= m <= 99 -> p = "AM" \/ p = "PM" ->
  parseTime (timeString (mkTime h m p)) = Some (mkTime h m p).
Proof.
  intros Hh Hm Hp.
  pose proof all_times_round_trip as H.
  rewrite forallb_forall in H.
  specialize (H h). rewrite <- list_elem_of_In, elem_of_seqZ in H.
  specialize (H ltac:(lia)).
  rewrite forallb_forall in H.
  specialize (H m). rewrite <- list_elem_of_In, elem_of_seqZ in H.
  specialize (H ltac:(lia)).
  apply andb_prop in H as [H1 H2].
  destruct Hp as [-> | ->]; eapply bool_decide_eq_true; eassumption.
Qed.

Lemma time_text_round_trip_witness :
  parseTime (timeString (mkTime 12 5 "AM")) = Some (mkTime 12 5 "AM").
Proof.
  apply (time_text_round_trip 12 5 "AM"); [lia | lia | left; reflexivity].
Defined.

(** ** More on the tools of the relay queue *)

Lemma startsWith_prefix p s : startsWith (p ++ s) p = true.
Proof.
  induction p as [|c p IH]; [now destruct s|].
  change (String c p ++ s) with (String c (p ++ s)). cbn [startsWith].
  now rewrite Ascii.eqb_refl.
Qed.

Lemma screenshotLoop_removes fuel : forall attempts id wait (tbl : Table),
  snd (screenshotLoop fuel attempts id wait tbl) !! id = None.
Proof.
  induction fuel as [|fuel IH]; intros attempts id wait tbl; cbn [screenshotLoop].
  - apply lookup_delete_eq.
  - destruct (isCompleted (wait attempts tbl !! id)); [|apply IH].
    repeat match goal with
           | |- context [if ?b then _ else _] => destruct b
           end; apply lookup_delete_eq.
Qed.

(** Property X10.  However [take_screenshot] ends (a success, a failure
    reported by the extension, or the timeout) and whatever happens to the
    table during its waits, its own request is not in the table
    afterwards. *)
Theorem take_screenshot_removes_its_request
    (clock : Z) (wait : nat -> Table -> Table) (tbl : Table) :
  snd (take_screenshot clock wait tbl) !! requestIdOf clock = None.
Proof.
  unfold take_screenshot, setPending.
  pose proof (screenshotLoop_removes 10 0 (requestIdOf clock) wait
                (<[requestIdOf clock := pendingScreenshot]> tbl)) as H.
  destruct (screenshotLoop 10 0 (requestIdOf clock) wait
              (<[requestIdOf clock := pendingScreenshot]> tbl)) as [[text|msg] t];
    exact H.
Qed.

Lemma screenshotLoop_outcome fuel : forall attempts id wait (tbl : Table),
  match fst (screenshotLoop fuel attempts id wait tbl) with
  | Returned text => startsWith text "Screenshot taken successfully" = true
  | Thrown _ => True
  end.
Proof.
  induction fuel as [|fuel IH]; intros attempts id wait tbl; cbn [screenshotLoop].
  - exact I.
  - destruct (isCompleted (wait attempts tbl !! id)); [|apply IH].
    repeat match goal with
           | |- context [if ?b then _ else _] => destruct b
           end; cbn [fst]; trivial.
Qed.

(** Property X11.  [take_screenshot] either returns a text that starts
    with "Screenshot taken successfully" or throws a message that starts
    with "Failed to take screenshot: "; the message of the extension and
    the timeout are both rethrown under that prefix. *)
Theorem take_screenshot_outcome
    (clock : Z) (wait : nat -> Table -> Table) (tbl : Table) :
  match fst (take_screenshot clock wait tbl) with
  | Returned text => startsWith text "Screenshot taken successfully" = true
  | Thrown message => startsWith message "Failed to take screenshot: " = true
  end.
Proof.
  unfold take_screenshot, setPending.
  pose proof (screenshotLoop_outcome 10 0 (requestIdOf clock) wait
                (<[requestIdOf clock := pendingScreenshot]> tbl)) as H.
  destruct (screenshotLoop 10 0 (requestIdOf clock) wait
              (<[requestIdOf clock := pendingScreenshot]> tbl)) as [[text|msg] t];
    cbn [fst] in *; [exact H | ].
  apply startsWith_prefix.
Qed.

Lemma screenshotLoop_never_completed fuel :
  forall attempts id wait (tbl : Table),
  (forall k, (k < fuel)%nat ->
     isCompleted (afterWaits (S k) attempts wait tbl !! id) = false) ->
  screenshotLoop fuel attempts id wait tbl
  = (Thrown "Screenshot request timed out - make sure the Chrome extension is active",
     delete id (afterWaits fuel attempts wait tbl)).
Proof.
  induction fuel as [|fuel IH]; intros attempts id wait tbl H;
    cbn [screenshotLoop afterWaits]; [reflexivity|].
  pose proof (H 0%nat ltac:(lia)) as H0. cbn [afterWaits] in H0.
  rewrite H0. apply IH.
  intros k Hk. apply (H (S k)). lia.
Qed.

(** Property X12.  If the request is not completed at the end of any of
    the ten half-second waits, [take_screenshot] throws the timeout
    message, after exactly ten waits, and removes its request. *)
Theorem take_screenshot_times_out
    (clock : Z) (wait : nat -> Table -> Table) (tbl : Table) :
  (forall k, (k < 10)%nat ->
     isCompleted
       (afterWaits (S k) 0 wait (<[requestIdOf clock := pendingScreenshot]> tbl)
          !! requestIdOf clock) = false) ->
  take_screenshot clock wait tbl
  = (Thrown screenshotTimedOut,
     delete (requestIdOf clock)
       (afterWaits 10 0 wait (<[requestIdOf clock := pendingScreenshot]> tbl))).
Proof.
  intros H. unfold take_screenshot, setPending.
  now rewrite screenshotLoop_never_completed.
Qed.

Lemma take_screenshot_times_out_witness :
  take_screenshot 1700000000000 (fun _ t => t) ∅
  = (Thrown screenshotTimedOut,
     delete (requestIdOf 1700000000000)
       (afterWaits 10 0 (fun _ t => t)
          (<[requestIdOf 1700000000000 := pendingScreenshot]> ∅))).
Proof.
  apply (take_screenshot_times_out 1700000000000 (fun _ t => t) ∅).
  intros k Hk.
  do 10 (destruct k as [|k]; [reflexivity|]). lia.
Defined.

(** Property X13.  In [open_new_tab] a URL, when given, wins over the
    service and the search query: the request carries the URL as given and
    the service as its label.  A service given together with a search
    query and no URL is served by neither branch: the tool throws and
    enqueues nothing, even for a known service. *)
Theorem open_new_tab_argument_combinations
    (args : OpenTabArgs) (clock : Z) (wait : Table -> Table) (tbl : Table) :
  (truthy (ofArg (url args)) = true ->
     resolveOpenTab args = (ofArg (url args), ofArg (service args)))
  /\ (truthy (ofArg (url args)) = false ->
      truthy (ofArg (service args)) = true ->
      truthy (ofArg (search args)) = true ->
      open_new_tab args clock wait tbl
      = (Thrown "Please provide either a service name, URL, or search query",
         tbl)).
Proof.
  split.
  - intros Hu. unfold resolveOpenTab. rewrite Hu. cbn [negb andb].
    rewrite !andb_false_r. reflexivity.
  - intros Hu Hs Hq. apply open_new_tab_unresolved.
    unfold resolveOpenTab. rewrite Hu, Hs, Hq. cbn [negb andb fst].
    exact Hu.
Qed.

Lemma open_new_tab_argument_combinations_witness :
  resolveOpenTab (mkOpenTabArgs (Some "gmail") (Some "https://example.com")
                    (Some "cats"))
  = (JStr "https://example.com", JStr "gmail")
  /\ open_new_tab (mkOpenTabArgs (Some "gmail") None (Some "cats"))
       1700000000000 (fun t => t) ∅
     = (Thrown "Please provide either a service name, URL, or search query", ∅).
Proof.
  split.
  - apply (open_new_tab_argument_combinations
             (mkOpenTabArgs (Some "gmail") (Some "https://example.com")
                (Some "cats")) 0 (fun t => t) ∅).
    reflexivity.
  - apply (open_new_tab_argument_combinations
             (mkOpenTabArgs (Some "gmail") None (Some "cats"))
             1700000000000 (fun t => t) ∅); reflexivity.
Defined.

Lemma complete_dom id body (tbl : Table) :
  dom (snd (complete id body tbl)) = dom tbl.
Proof.
  unfold complete. destruct (tbl !! id) as [r|] eqn:E; cbn [snd]; [|reflexivity].
  apply dom_insert_lookup_L. eauto.
Qed.

Lemma completeAll_dom calls : forall tbl : Table,
  dom (completeAll calls tbl) = dom tbl.
Proof.
  unfold completeAll.
  induction calls as [|c calls IH]; intros tbl; cbn [fold_left]; [reflexivity|].
  rewrite IH. apply complete_dom.
Qed.

(** Property X14.  The completion handler neither adds nor removes an
    entry: after any run of completion requests the table holds exactly
    the ids it held before. *)
Theorem completions_keep_the_requests
    (calls : list (string * CompleteBody)) (tbl : Table) (id : string) :
  is_Some (completeAll calls tbl !! id) <-> is_Some (tbl !! id).
Proof.
  rewrite <- !elem_of_dom. now rewrite completeAll_dom.
Qed.

(** Property X15.  A tab request that is not completed by the end of the
    wait of [navigate_browser] stays in the table for good, whatever
    completions arrive later: only the tool removes entries, and only when
    it sees the completion itself. *)
Theorem unconfirmed_tab_request_stays
    (url : string) (clock : Z) (wait : Table -> Table) (tbl : Table)
    (calls : list (string * CompleteBody)) :
  let waited :=
    wait (<[requestIdOf clock := pendingTab (JStr url) (JStr url)]> tbl) in
  is_Some (waited !! requestIdOf clock) ->
  isCompleted (waited !! requestIdOf clock) = false ->
  is_Some (completeAll calls (snd (navigate_browser url clock wait tbl))
             !! requestIdOf clock).
Proof.
  intros waited Hin Hc.
  rewrite <- elem_of_dom, completeAll_dom, elem_of_dom.
  unfold navigate_browser, setPending. fold waited. rewrite Hc. exact Hin.
Qed.

Lemma unconfirmed_tab_request_stays_witness :
  is_Some (completeAll [("1700000000000", noBody); ("1700000000000", savedBody)]
             (snd (navigate_browser "https://example.com" 1700000000000
                     (fun t => t) ∅))
             !! requestIdOf 1700000000000).
Proof.
  apply (unconfirmed_tab_request_stays "https://example.com" 1700000000000
           (fun t => t) ∅
           [("1700000000000", noBody); ("1700000000000", savedBody)]).
  - eexists. apply lookup_insert_eq.
  - reflexivity.
Defined.

(** ** The poller against the service *)

Lemma post_keeps_completed id' body (tbl : Table) id :
  isCompleted (tbl !! id) = true ->
  isCompleted (post id' body tbl !! id) = true.
Proof. apply complete_keeps_completed. Qed.

Lemma post_completes id body (tbl : Table) :
  is_Some (tbl !! id) -> isCompleted (post id body tbl !! id) = true.
Proof.
  intros [r Hr]. unfold post, complete. rewrite Hr. cbn [snd].
  rewrite lookup_insert_eq. apply completeRequest_status.
Qed.

Lemma post_other id body (tbl : Table) id' :
  id' <> id -> post id body tbl !! id' = tbl !! id'.
Proof.
  intros Hne. unfold post, complete.
  destruct (tbl !! id); cbn [snd]; [|reflexivity].
  now rewrite lookup_insert_ne.
Qed.

Lemma post_is_Some id body (tbl : Table) id' :
  is_Some (post id body tbl !! id') <-> is_Some (tbl !! id').
Proof. unfold post. rewrite <- !elem_of_dom. now rewrite complete_dom. Qed.

Lemma pollRequests_keeps_completed chrome requests :
  forall ext (tbl : Table) id,
  isCompleted (tbl !! id) = true ->
  isCompleted (snd (pollRequests chrome requests ext tbl) !! id) = true.
Proof.
  induction requests as [|[id' r] rest IH]; intros ext tbl id H;
    cbn [pollRequests]; [exact H|].
  destruct (isPending r); [|now apply IH].
  destruct (isScreenshot r).
  - destruct (captureScreenshot (chrome id') ext) as [ext' body].
    apply IH. now apply post_keeps_completed.
  - destruct (tabsCreate (chrome id')); [|exact H].
    apply IH. now apply post_keeps_completed.
Qed.

Lemma pollRequests_completes chrome requests :
  forall ext (tbl : Table) id r,
  (forall id', tabsCreate (chrome id') = true) ->
  (id, r) ∈ requests -> isPending r = true -> is_Some (tbl !! id) ->
  isCompleted (snd (pollRequests chrome requests ext tbl) !! id) = true.
Proof.
  induction requests as [|[id' r'] rest IH]; intros ext tbl id r Htabs Hin Hp Hs.
  - inversion Hin.
  - cbn [pollRequests]. apply elem_of_cons in Hin as [E|Hin].
    + injection E as <- <-. rewrite Hp.
      destruct (isScreenshot r).
      * destruct (captureScreenshot (chrome id) ext) as [ext' body].
        apply pollRequests_keeps_completed. now apply post_completes.
      * rewrite Htabs.
        apply pollRequests_keeps_completed. now apply post_completes.
    + destruct (isPending r'); [|now apply (IH _ _ _ r)].
      destruct (isScreenshot r').
      * destruct (captureScreenshot (chrome id') ext) as [ext' body].
        apply (IH _ _ _ r); try assumption. now apply post_is_Some.
      * rewrite Htabs. apply (IH _ _ _ r); try assumption.
        now apply post_is_Some.
Qed.

(** Property X16.  One tick of the extension's poller, when the browser
    opens every tab it is asked for, leaves every request that was pending
    or completed in the listing completed in the table of the service: a
    screenshot request is completed whether the capture worked, failed or
    was refused by the rate limit.  This holds for every order of the
    listing. *)
Theorem poll_tick_completes_pending_requests
    (chrome : string -> Chrome) (requests : list (string * Request))
    (ext : Extension) (tbl : Table) (id : string) (r : Request) :
  requests ≡ₚ tabRequests tbl ->
  (forall id', tabsCreate (chrome id') = true) ->
  tbl !! id = Some r ->
  isPending r = true \/ isCompleted (Some r) = true ->
  isCompleted (snd (pollRequests chrome requests ext tbl) !! id) = true.
Proof.
  intros Hperm Htabs Hr [Hp|Hc].
  - apply (pollRequests_completes chrome requests ext tbl id r); auto.
    rewrite Hperm. unfold tabRequests. now apply elem_of_map_to_list.
  - apply pollRequests_keeps_completed. now rewrite Hr.
Qed.

Lemma poll_tick_completes_pending_requests_witness :
  isCompleted
    (snd (pollRequests (allFine 1746091800123) (tabRequests oneScreenshot)
            freshExtension oneScreenshot) !! "1700000000000") = true.
Proof.
  apply (poll_tick_completes_pending_requests (allFine 1746091800123)
           (tabRequests oneScreenshot) freshExtension oneScreenshot
           "1700000000000" pendingScreenshot).
  - reflexivity.
  - reflexivity.
  - reflexivity.
  - left. reflexivity.
Defined.

Lemma completed_not_pending (r : Request) :
  isCompleted (Some r) = true -> isPending r = false.
Proof.
  unfold isCompleted, isPending, received, field.
  destruct (r !! "status") as [[| | |st| |]|]; try discriminate.
  intros H. apply String.eqb_eq in H. subst st.
  now apply bool_decide_eq_false.
Qed.

Lemma pollRequests_untouched chrome requests :
  forall ext (tbl : Table) id,
  (forall r, (id, r) ∈ requests -> isPending r = false) ->
  snd (pollRequests chrome requests ext tbl) !! id = tbl !! id.
Proof.
  induction requests as [|[id' r'] rest IH]; intros ext tbl id H;
    cbn [pollRequests]; [reflexivity|].
  assert (Hrest : forall r, (id, r) ∈ rest -> isPending r = false).
  { intros r Hr. apply H. now right. }
  destruct (isPending r') eqn:Ep; [|now apply IH].
  assert (Hne : id <> id').
  { intros ->. specialize (H r' ltac:(left)). congruence. }
  destruct (isScreenshot r').
  - destruct (captureScreenshot (chrome id') ext) as [ext' body].
    rewrite IH by assumption. now apply post_other.
  - destruct (tabsCreate (chrome id')); [|reflexivity].
    rewrite IH by assumption. now apply post_other.
Qed.

Lemma pollRequests_nothing_pending chrome requests ext (tbl : Table) :
  (forall id r, (id, r) ∈ requests -> isPending r = false) ->
  pollRequests chrome requests ext tbl = (ext, tbl).
Proof.
  induction requests as [|[id r] rest IH]; intros H; cbn [pollRequests];
    [reflexivity|].
  rewrite (H id r) by left. apply IH. intros id' r' Hin. apply (H id' r').
  now right.
Qed.

(** Property X17.  A tick that follows a tick in which every tab was
    opened finds nothing to do, when no request was added in between: it
    changes neither the table nor the state of the extension, so no
    request is carried out twice. *)
Theorem second_tick_does_nothing
    (chrome chrome' : string -> Chrome) (requests requests' : list (string * Request))
    (ext : Extension) (tbl : Table) :
  requests ≡ₚ tabRequests tbl ->
  requests' ≡ₚ tabRequests (snd (pollRequests chrome requests ext tbl)) ->
  (forall id, tabsCreate (chrome id) = true) ->
  pollRequests chrome' requests' (fst (pollRequests chrome requests ext tbl))
    (snd (pollRequests chrome requests ext tbl))
  = pollRequests chrome requests ext tbl.
Proof.
  intros Hperm Hperm' Htabs.
  destruct (pollRequests chrome requests ext tbl) as [ext1 tbl1] eqn:E.
  cbn [fst snd] in *.
  apply pollRequests_nothing_pending.
  intros id r1 Hin. rewrite Hperm' in Hin. unfold tabRequests in Hin.
  apply elem_of_map_to_list in Hin.
  assert (Hs : is_Some (tbl !! id)).
  { assert (Hd : is_Some (tbl1 !! id)) by eauto.
    replace tbl1 with (snd (pollRequests chrome requests ext tbl)) in Hd
      by now rewrite E.
    clear -Hd. revert ext tbl Hd.
    induction requests as [|[id' r'] rest IH]; intros ext tbl Hd;
      cbn [pollRequests] in Hd; [exact Hd|].
    destruct (isPending r'); [|now apply IH in Hd].
    destruct (isScreenshot r').
    - destruct (captureScreenshot (chrome id') ext) as [ext' body].
      apply IH in Hd. now apply post_is_Some in Hd.
    - destruct (tabsCreate (chrome id')); [|exact Hd].
      apply IH in Hd. now apply post_is_Some in Hd. }
  destruct Hs as [r Hr].
  destruct (isPending r) eqn:Ep.
  - apply completed_not_pending. rewrite <- Hin.
    replace tbl1 with (snd (pollRequests chrome requests ext tbl))
      by now rewrite E.
    apply (pollRequests_completes chrome requests ext tbl id r); eauto.
    rewrite Hperm. now apply elem_of_map_to_list.
  - assert (Hu : tbl1 !! id = tbl !! id).
    { replace tbl1 with (snd (pollRequests chrome requests ext tbl))
        by now rewrite E.
      apply pollRequests_untouched. intros r' Hr'.
      rewrite Hperm in Hr'. unfold tabRequests in Hr'.
      apply elem_of_map_to_list in Hr'. congruence. }
    congruence.
Qed.

Lemma captureScreenshot_spaced (c : Chrome) (ext : Extension) :
  dateNow c <> 0 ->
  limiterTracks ext -> spaced (captures ext) ->
  limiterTracks (fst (captureScreenshot c ext))
  /\ spaced (captures (fst (captureScreenshot c ext))).
Proof.
  intros Hnow [Hlast Hnz] Hsp. unfold captureScreenshot.
  destruct (tooSoon (lastScreenshotTime ext) (dateNow c)) eqn:Esoon;
    [now repeat split|].
  assert (Hnew : limiterTracks
                   (mkExtension (Some (dateNow c)) (dateNow c :: captures ext)
                      (downloads ext) (tabs ext))
                 /\ spaced (dateNow c :: captures ext)).
  { repeat split; cbn; auto.
    destruct (captures ext) as [|t older] eqn:Ec; [exact I|].
    rewrite Hlast in Esoon. cbn in Esoon.
    apply Forall_cons in Hnz as [Ht _].
    apply andb_false_iff in Esoon as [E|E].
    - apply negb_false_iff, Z.eqb_eq in E. contradiction.
    - apply Z.ltb_ge in E. lia. }
  destruct (captureVisibleTab c); [destruct (download c)|]; exact Hnew.
Qed.

(** Property X18.  The rate limit is an invariant of the poller: as long
    as the clock never reads 0, any two captures, in one tick or across
    ticks, are at least 500 ms apart, and [lastScreenshotTime] is the time
    of the last capture.  (A reading of 0 would be stored as a falsy
    [lastScreenshotTime] and switch the limit off for the next request.) *)
Theorem screenshots_half_a_second_apart
    (chrome : string -> Chrome) (requests : list (string * Request))
    (ext : Extension) (tbl : Table) :
  (forall id, dateNow (chrome id) <> 0) ->
  limiterTracks ext -> spaced (captures ext) ->
  limiterTracks (fst (pollRequests chrome requests ext tbl))
  /\ spaced (captures (fst (pollRequests chrome requests ext tbl))).
Proof.
  intros Hnow. revert ext tbl.
  induction requests as [|[id r] rest IH]; intros ext tbl Ht Hs;
    cbn [pollRequests]; [now split|].
  destruct (isPending r); [|now apply IH].
  destruct (isScreenshot r).
  - pose proof (captureScreenshot_spaced (chrome id) ext (Hnow id) Ht Hs) as [H1 H2].
    destruct (captureScreenshot (chrome id) ext) as [ext' body].
    now apply IH.
  - destruct (tabsCreate (chrome id)); [|now split].
    apply IH; [|exact Hs]. exact Ht.
Qed.

Lemma screenshots_half_a_second_apart_witness :
  captures (fst (pollRequests (allFine 1746091800123) twoScreenshots
                   freshExtension ∅)) = [1746091800123]
  /\ spaced (captures (fst (pollRequests (allFine 1746091800123) twoScreenshots
                              freshExtension ∅))).
Proof.
  split; [reflexivity|].
  apply (screenshots_half_a_second_apart (allFine 1746091800123) twoScreenshots
           freshExtension ∅).
  - intros id. cbn. lia.
  - split; [reflexivity|constructor].
  - exact I.
Defined.

Lemma dash_digit (n : Z) :
  (if Ascii.eqb (digitChar n) ":" || Ascii.eqb (digitChar n) "."
   then "-"%char else digitChar n) = digitChar n.
Proof.
  unfold digitChar.
  assert (H : 0 <= n mod 10 < 10) by (apply Z.mod_pos_bound; lia).
  assert (E : n mod 10 = 0 \/ n mod 10 = 1 \/ n mod 10 = 2 \/ n mod 10 = 3
              \/ n mod 10 = 4 \/ n mod 10 = 5 \/ n mod 10 = 6 \/ n mod 10 = 7
              \/ n mod 10 = 8 \/ n mod 10 = 9) by lia.
  destruct E as [E|[E|[E|[E|[E|[E|[E|[E|[E|E]]]]]]]]]; rewrite E; reflexivity.
Qed.

Lemma screenshotFilename_stamp (t : Z) :
  screenshotFilename t = "screenshot-" ++ stamp t ++ ".png".
Proof.
  unfold screenshotFilename, stamp. f_equal. f_equal.
  unfold toISOString, pad4, pad3, pad2, dashes, dropLast5.
  cbv [String.append JsString.map].
  rewrite !dash_digit. reflexivity.
Qed.

Lemma Day_of_seconds (t : Z) : Day t = t / 1000 / 86400.
Proof. unfold Day, msPerDay. rewrite Z.div_div by lia. reflexivity. Qed.

Lemma stamp_of_seconds (t t' : Z) : t / 1000 = t' / 1000 -> stamp t = stamp t'.
Proof.
  intros E.
  assert (ED : Day t = Day t') by (rewrite !Day_of_seconds; congruence).
  assert (EY : YearFromTime t = YearFromTime t')
    by (unfold YearFromTime; congruence).
  assert (EM : MonthFromTime t = MonthFromTime t')
    by (unfold MonthFromTime, DayWithinYear, InLeapYear; congruence).
  assert (EDt : DateFromTime t = DateFromTime t')
    by (unfold DateFromTime, DayWithinYear, InLeapYear; congruence).
  assert (EH : HourFromTime t = HourFromTime t').
  { unfold HourFromTime. change 3600000 with (1000 * 3600).
    rewrite <- !Z.div_div by lia. congruence. }
  assert (EMi : MinFromTime t = MinFromTime t').
  { unfold MinFromTime. change 60000 with (1000 * 60).
    rewrite <- !Z.div_div by lia. congruence. }
  assert (ES : SecFromTime t = SecFromTime t')
    by (unfold SecFromTime; congruence).
  unfold stamp. congruence.
Qed.

(** Property X19.  For a clock reading whose year has four digits, the
    file name of a screenshot is [screenshot-YYYY-MM-DDTHH-mm-ss.png]: the
    milliseconds and the zone letter are cut off, and the name has 34
    characters. *)
Theorem screenshot_file_name_to_the_second (t : Z) :
  0 <= t < 253402300800000 ->
  screenshotFilename t
  = "screenshot-" ++ pad4 (YearFromTime t) ++ "-" ++ pad2 (MonthFromTime t + 1)
    ++ "-" ++ pad2 (DateFromTime t) ++ "T" ++ pad2 (HourFromTime t) ++ "-"
    ++ pad2 (MinFromTime t) ++ "-" ++ pad2 (SecFromTime t) ++ ".png"
  /\ String.length (screenshotFilename t) = 34%nat.
Proof.
  intros _. rewrite screenshotFilename_stamp. unfold stamp, pad4, pad3, pad2.
  split; reflexivity.
Qed.

Lemma screenshot_file_name_to_the_second_witness :
  screenshotFilename 1746091800123 = "screenshot-2025-05-01T09-30-00.png".
Proof.
  destruct (screenshot_file_name_to_the_second 1746091800123 ltac:(lia))
    as [E _].
  rewrite E. reflexivity.
Defined.

(** Property X20.  The rate limit does not keep file names apart: a
    capture in the first half of a second and one 500 ms later pass the
    limit and get the same file name. *)
Theorem two_screenshots_one_file_name (t : Z) :
  0 < t < 253402300800000 ->
  t mod 1000 < 500 ->
  tooSoon (Some t) (t + 500) = false
  /\ screenshotFilename (t + 500) = screenshotFilename t.
Proof.
  intros Ht Hms. split.
  - unfold tooSoon. apply andb_false_iff. right. apply Z.ltb_ge. lia.
  - rewrite !screenshotFilename_stamp. f_equal. f_equal.
    apply stamp_of_seconds. divlia.
Qed.

Lemma two_screenshots_one_file_name_witness :
  tooSoon (Some 1746091800123) (1746091800123 + 500) = false
  /\ screenshotFilename (1746091800123 + 500) = screenshotFilename 1746091800123.
Proof. apply (two_screenshots_one_file_name 1746091800123); [lia|reflexivity]. Defined.

Lemma pollRequests_only chrome requests :
  forall ext (tbl : Table) id r,
  NoDup requests.*1 ->
  (id, r) ∈ requests ->
  (forall id' r', (id', r') ∈ requests -> id' <> id -> isPending r' = false) ->
  pollRequests chrome requests ext tbl = pollRequests chrome [(id, r)] ext tbl.
Proof.
  induction requests as [|[id' r'] rest IH]; intros ext tbl id r Hnd Hin Hnp.
  - inversion Hin.
  - cbn [fmap list_fmap fst] in Hnd. apply NoDup_cons in Hnd as [Hni Hnd].
    apply elem_of_cons in Hin as [E|Hin].
    + injection E as <- <-.
      assert (Hrest : forall i x, (i, x) ∈ rest -> isPending x = false).
      { intros i x Hx. apply (Hnp i x); [now right|].
        intros ->. apply Hni. apply list_elem_of_fmap. now exists (id, x). }
      cbn [pollRequests].
      destruct (isPending r); [|now apply pollRequests_nothing_pending].
      destruct (isScreenshot r).
      * destruct (captureScreenshot (chrome id) ext) as [ext' body].
        now apply pollRequests_nothing_pending.
      * destruct (tabsCreate (chrome id)); [|reflexivity].
        now apply pollRequests_nothing_pending.
    + assert (Hne : id' <> id).
      { intros ->. apply Hni. apply list_elem_of_fmap. now exists (id, r). }
      transitivity (pollRequests chrome rest ext tbl).
      * cbn [pollRequests]. rewrite (Hnp id' r'); [reflexivity|left|exact Hne].
      * apply IH; auto. intros i x Hx. apply Hnp. now right.
Qed.

Lemma poll_only_pending chrome requests ext (tbl : Table) id r :
  requests ≡ₚ tabRequests (<[id := r]> tbl) ->
  (forall id' r', id' <> id -> tbl !! id' = Some r' -> isPending r' = false) ->
  pollRequests chrome requests ext (<[id := r]> tbl)
  = pollRequests chrome [(id, r)] ext (<[id := r]> tbl).
Proof.
  intros Hperm Hnp. apply pollRequests_only.
  - rewrite Hperm. apply NoDup_fst_map_to_list.
  - rewrite Hperm. apply elem_of_map_to_list, lookup_insert_eq.
  - intros id' r' Hin Hne. rewrite Hperm in Hin.
    apply elem_of_map_to_list in Hin. rewrite lookup_insert_ne in Hin by auto.
    now apply (Hnp id' r').
Qed.

(** The first wait of [take_screenshot] ends with the request completed. *)
Lemma take_screenshot_completed clock wait (tbl : Table) body :
  wait 0%nat (<[requestIdOf clock := pendingScreenshot]> tbl) !! requestIdOf clock
  = Some (completeRequest body pendingScreenshot) ->
  take_screenshot clock wait tbl
  = (let r := completeRequest body pendingScreenshot in
     if truthy (field r "error")
     then Thrown ("Failed to take screenshot: " ++ display (field r "error"))
     else if truthy (field r "success") && truthy (field r "filename")
     then Returned ("Screenshot taken successfully and saved to Downloads folder as "
                      ++ String (ascii_of_nat 34) (display (field r "filename"))
                      ++ String (ascii_of_nat 34) "")
     else Returned "Screenshot taken successfully using Chrome Extension API",
     delete (requestIdOf clock)
       (wait 0%nat (<[requestIdOf clock := pendingScreenshot]> tbl))).
Proof.
  intros H. unfold take_screenshot, setPending.
  cbn [screenshotLoop]. rewrite H.
  replace (isCompleted (Some (completeRequest body pendingScreenshot))) with true.
  2:{ symmetry. apply completeRequest_status. }
  cbn [default from_option id].
  destruct (truthy (field (completeRequest body pendingScreenshot) "error"));
    [reflexivity|].
  destruct (truthy (field (completeRequest body pendingScreenshot) "success")
            && truthy (field (completeRequest body pendingScreenshot) "filename"));
    reflexivity.
Qed.

Lemma poll_one_screenshot chrome requests ext (tbl : Table) id :
  requests ≡ₚ tabRequests (<[id := pendingScreenshot]> tbl) ->
  (forall id' r', id' <> id -> tbl !! id' = Some r' -> isPending r' = false) ->
  pollRequests chrome requests ext (<[id := pendingScreenshot]> tbl)
  = (fst (captureScreenshot (chrome id) ext),
     <[id := completeRequest (snd (captureScreenshot (chrome id) ext))
               pendingScreenshot]> tbl).
Proof.
  intros Hperm Hnp. rewrite poll_only_pending by assumption.
  cbn [pollRequests].
  change (isPending pendingScreenshot) with true.
  change (isScreenshot pendingScreenshot) with true. cbn match.
  destruct (captureScreenshot (chrome id) ext) as [ext' body]. cbn [fst snd].
  unfold post, complete. rewrite lookup_insert_eq. cbn [snd].
  now rewrite insert_insert_eq.
Qed.

Lemma stamped_nonempty (t : Z) : isEmpty (screenshotFilename t) = false.
Proof. reflexivity. Qed.

Lemma success_fields (f : string) (d : Z) :
  isEmpty f = false ->
  let r := completeRequest (successBody f d) pendingScreenshot in
  field r "error" = JUndefined /\ field r "success" = JBool true
  /\ field r "filename" = JStr f.
Proof.
  intros Hf. unfold completeRequest, successBody.
  cbn [dataUrl error success filename downloadId truthy].
  rewrite Hf. cbn [negb andb]. unfold field.
  repeat split.
Qed.

Lemma error_fields (msg : string) :
  isEmpty msg = false ->
  field (completeRequest (errorBody msg) pendingScreenshot) "error" = JStr msg.
Proof.
  intros Hm. unfold completeRequest, errorBody.
  cbn [dataUrl error success filename downloadId truthy].
  rewrite Hm. reflexivity.
Qed.

(** Property X21.  [take_screenshot] and the poller together: when a tick
    of the poller falls into the first wait, the rate limit lets the
    request through, the capture and the download succeed, and nothing
    else is pending, the tool returns the success text with the file name
    that the extension chose, the extension has asked for the download of
    that file, and the request is gone from the table. *)
Theorem screenshot_saved_and_reported
    (clock : Z) (wait : nat -> Table -> Table) (chrome : string -> Chrome)
    (requests : list (string * Request)) (ext : Extension) (tbl : Table)
    (image : string) (number : Z) :
  let id := requestIdOf clock in
  let queued := <[id := pendingScreenshot]> tbl in
  (forall id' r, id' <> id -> tbl !! id' = Some r -> isPending r = false) ->
  requests ≡ₚ tabRequests queued ->
  wait 0%nat queued = snd (pollRequests chrome requests ext queued) ->
  tooSoon (lastScreenshotTime ext) (dateNow (chrome id)) = false ->
  captureVisibleTab (chrome id) = inl image ->
  download (chrome id) = inl number ->
  take_screenshot clock wait tbl
  = (Returned ("Screenshot taken successfully and saved to Downloads folder as "
                 ++ String (ascii_of_nat 34)
                      (screenshotFilename (newDate (chrome id)))
                 ++ String (ascii_of_nat 34) ""),
     delete id tbl)
  /\ downloads (fst (pollRequests chrome requests ext queued))
     = screenshotFilename (newDate (chrome id)) :: downloads ext.
Proof.
  intros id queued Hnp Hperm Hwait Hsoon Hcap Hdl.
  pose proof (poll_one_screenshot chrome requests ext tbl id Hperm Hnp) as Hpoll.
  fold queued in Hpoll.
  assert (Hbody : captureScreenshot (chrome id) ext
                  = (mkExtension (Some (dateNow (chrome id)))
                       (dateNow (chrome id) :: captures ext)
                       (screenshotFilename (newDate (chrome id)) :: downloads ext)
                       (tabs ext),
                     successBody (screenshotFilename (newDate (chrome id))) number)).
  { unfold captureScreenshot. now rewrite Hsoon, Hcap, Hdl. }
  rewrite Hbody in Hpoll. cbn [fst snd] in Hpoll.
  split; [|now rewrite Hpoll].
  assert (Hentry : wait 0%nat queued !! id
                   = Some (completeRequest
                             (successBody (screenshotFilename (newDate (chrome id)))
                                number) pendingScreenshot)).
  { rewrite Hwait, Hpoll. cbn [snd]. apply lookup_insert_eq. }
  rewrite (take_screenshot_completed clock wait tbl _ Hentry).
  pose proof (success_fields (screenshotFilename (newDate (chrome id))) number
                (stamped_nonempty _)) as (He & Hs & Hf).
  cbn zeta. rewrite He, Hs, Hf.
  cbn [truthy display andb]. rewrite stamped_nonempty. cbn [negb].
  f_equal. fold id. fold queued. rewrite Hwait, Hpoll. cbn [snd].
  apply delete_insert_eq.
Qed.

Lemma screenshot_error_reported
    (clock : Z) (wait : nat -> Table -> Table) (chrome : string -> Chrome)
    (requests : list (string * Request)) (ext : Extension) (tbl : Table)
    (message : string) :
  let id := requestIdOf clock in
  let queued := <[id := pendingScreenshot]> tbl in
  (forall id' r, id' <> id -> tbl !! id' = Some r -> isPending r = false) ->
  requests ≡ₚ tabRequests queued ->
  wait 0%nat queued = snd (pollRequests chrome requests ext queued) ->
  snd (captureScreenshot (chrome id) ext) = errorBody message ->
  take_screenshot clock wait tbl
  = (if isEmpty message
     then Returned "Screenshot taken successfully using Chrome Extension API"
     else Thrown ("Failed to take screenshot: " ++ message),
     delete id tbl).
Proof.
  intros id queued Hnp Hperm Hwait Hbody.
  pose proof (poll_one_screenshot chrome requests ext tbl id Hperm Hnp) as Hpoll.
  fold queued in Hpoll. rewrite Hbody in Hpoll.
  assert (Hentry : wait 0%nat queued !! id
                   = Some (completeRequest (errorBody message) pendingScreenshot)).
  { rewrite Hwait, Hpoll. cbn [snd]. apply lookup_insert_eq. }
  rewrite (take_screenshot_completed clock wait tbl _ Hentry).
  fold id. fold queued. rewrite Hwait, Hpoll. cbn [snd].
  rewrite delete_insert_eq. f_equal. cbn zeta.
  destruct (isEmpty message) eqn:Em.
  - unfold completeRequest, errorBody.
    cbn [dataUrl error success filename downloadId truthy]. rewrite Em.
    reflexivity.
  - rewrite (error_fields message Em). cbn [truthy display]. now rewrite Em.
Qed.

(** Property X22.  When the tick that handles the request of
    [take_screenshot] comes less than 500 ms after the last capture, the
    tool throws "Failed to take screenshot: Screenshot rate limit
    exceeded. ..." and the extension captures nothing and keeps its
    state. *)
Theorem screenshot_rate_limit_reported
    (clock : Z) (wait : nat -> Table -> Table) (chrome : string -> Chrome)
    (requests : list (string * Request)) (ext : Extension) (tbl : Table) :
  let id := requestIdOf clock in
  let queued := <[id := pendingScreenshot]> tbl in
  (forall id' r, id' <> id -> tbl !! id' = Some r -> isPending r = false) ->
  requests ≡ₚ tabRequests queued ->
  wait 0%nat queued = snd (pollRequests chrome requests ext queued) ->
  tooSoon (lastScreenshotTime ext) (dateNow (chrome id)) = true ->
  take_screenshot clock wait tbl
  = (Thrown "Failed to take screenshot: Screenshot rate limit exceeded. Please wait before taking another screenshot.",
     delete id tbl)
  /\ fst (pollRequests chrome requests ext queued) = ext.
Proof.
  intros id queued Hnp Hperm Hwait Hsoon.
  assert (Hcap : captureScreenshot (chrome id) ext = (ext, errorBody rateLimited)).
  { unfold captureScreenshot. now rewrite Hsoon. }
  split.
  - rewrite (screenshot_error_reported clock wait chrome requests ext tbl
               rateLimited Hnp Hperm Hwait); [reflexivity|].
    fold id. now rewrite Hcap.
  - pose proof (poll_one_screenshot chrome requests ext tbl id Hperm Hnp) as Hpoll.
    fold queued in Hpoll. now rewrite Hpoll, Hcap.
Qed.

(** Property X23.  When the capture itself fails with a message, the
    tool throws that message under its prefix; the failed attempt still
    arms the rate limit.  A failure with an empty message is not stored by
    the completion handler, and the tool then reports a success. *)
Theorem failed_capture_reported
    (clock : Z) (wait : nat -> Table -> Table) (chrome : string -> Chrome)
    (requests : list (string * Request)) (ext : Extension) (tbl : Table)
    (message : string) :
  let id := requestIdOf clock in
  let queued := <[id := pendingScreenshot]> tbl in
  (forall id' r, id' <> id -> tbl !! id' = Some r -> isPending r = false) ->
  requests ≡ₚ tabRequests queued ->
  wait 0%nat queued = snd (pollRequests chrome requests ext queued) ->
  tooSoon (lastScreenshotTime ext) (dateNow (chrome id)) = false ->
  captureVisibleTab (chrome id) = inr message ->
  take_screenshot clock wait tbl
  = (if isEmpty message
     then Returned "Screenshot taken successfully using Chrome Extension API"
     else Thrown ("Failed to take screenshot: " ++ message),
     delete id tbl)
  /\ lastScreenshotTime (fst (pollRequests chrome requests ext queued))
     = Some (dateNow (chrome id)).
Proof.
  intros id queued Hnp Hperm Hwait Hsoon Hcapture.
  assert (Hcap : captureScreenshot (chrome id) ext
                 = (mkExtension (Some (dateNow (chrome id)))
                      (dateNow (chrome id) :: captures ext) (downloads ext)
                      (tabs ext),
                    errorBody message)).
  { unfold captureScreenshot. now rewrite Hsoon, Hcapture. }
  split.
  - apply (screenshot_error_reported clock wait chrome requests ext tbl
             message Hnp Hperm Hwait).
    fold id. now rewrite Hcap.
  - pose proof (poll_one_screenshot chrome requests ext tbl id Hperm Hnp) as Hpoll.
    fold queued in Hpoll. now rewrite Hpoll, Hcap.
Qed.

Lemma poll_one_tab chrome requests ext (tbl : Table) id url name :
  requests ≡ₚ tabRequests (<[id := pendingTab url name]> tbl) ->
  (forall id' r', id' <> id -> tbl !! id' = Some r' -> isPending r' = false) ->
  tabsCreate (chrome id) = true ->
  pollRequests chrome requests ext (<[id := pendingTab url name]> tbl)
  = (mkExtension (lastScreenshotTime ext) (captures ext) (downloads ext)
       (received (pendingTab url name) "url" :: tabs ext),
     <[id := completeRequest noBody (pendingTab url name)]> tbl).
Proof.
  intros Hperm Hnp Htab. rewrite poll_only_pending by assumption.
  cbn [pollRequests].
  change (isPending (pendingTab url name)) with true.
  change (isScreenshot (pendingTab url name)) with false. cbn match.
  rewrite Htab. unfold post, complete. rewrite lookup_insert_eq. cbn [snd].
  now rewrite insert_insert_eq.
Qed.

Lemma success_marker_recognised (name marker rest : string) :
  marker <> "" ->
  In marker ["Task completed successfully"; "Successfully opened";
             "Successfully created"; "Successfully sent"] ->
  isSuccessfulStep (mkStep name (Some (marker ++ rest))) = true.
Proof.
  intros Hne Hin. unfold isSuccessfulStep. cbn [observation].
  assert (Hi : includes (marker ++ rest) marker = true)
    by apply startsWith_includes, startsWith_prefix.
  apply andb_true_iff. split.
  - destruct marker; [contradiction|reflexivity].
  - cbn [In] in Hin.
    destruct Hin as [<-|[<-|[<-|[<-|[]]]]]; rewrite Hi;
      rewrite ?orb_true_r; reflexivity.
Qed.

(** Property X24.  [navigate_browser] and the poller together: when a
    tick of the poller falls into the wait, the browser opens the tab and
    nothing else is pending, the tool returns "Successfully opened
    <url> ...", which the agent wrapper recognises as a success, the tab
    opened is the one for the URL, and the request is gone from the
    table. *)
Theorem navigate_browser_confirmed
    (url : string) (clock : Z) (wait : Table -> Table)
    (chrome : string -> Chrome) (requests : list (string * Request))
    (ext : Extension) (tbl : Table) :
  let id := requestIdOf clock in
  let queued := <[id := pendingTab (JStr url) (JStr url)]> tbl in
  let answer :=
    "Successfully opened " ++ url
    ++ " in a new tab in your current browser window." in
  (forall id' r, id' <> id -> tbl !! id' = Some r -> isPending r = false) ->
  requests ≡ₚ tabRequests queued ->
  wait queued = snd (pollRequests chrome requests ext queued) ->
  tabsCreate (chrome id) = true ->
  navigate_browser url clock wait tbl = (Returned answer, delete id tbl)
  /\ tabs (fst (pollRequests chrome requests ext queued)) = JStr url :: tabs ext
  /\ isSuccessfulStep (mkStep "navigate_browser" (Some answer)) = true.
Proof.
  intros id queued answer Hnp Hperm Hwait Htab.
  pose proof (poll_one_tab chrome requests ext tbl id (JStr url) (JStr url)
                Hperm Hnp Htab) as Hpoll.
  fold queued in Hpoll. split; [|split].
  - unfold navigate_browser, setPending. fold id. fold queued.
    rewrite Hwait, Hpoll. cbn [snd]. rewrite lookup_insert_eq.
    rewrite completeRequest_status. now rewrite delete_insert_eq.
  - now rewrite Hpoll.
  - apply (success_marker_recognised "navigate_browser" "Successfully opened"
             (" " ++ url ++ " in a new tab in your current browser window."));
      [discriminate|cbn; auto].
Qed.

(** Property X25.  [open_new_tab] and the poller together: for arguments
    that resolve to an address, a tick of the poller during the wait opens
    a tab for that address, and the tool returns "Task completed
    successfully! I have opened <label> ...", which the agent wrapper
    recognises as a success; the request is gone from the table. *)
Theorem open_new_tab_confirmed
    (args : OpenTabArgs) (clock : Z) (wait : Table -> Table)
    (chrome : string -> Chrome) (requests : list (string * Request))
    (ext : Extension) (tbl : Table) (address : string) (name : JsValue) :
  let id := requestIdOf clock in
  let queued := <[id := pendingTab (JStr address) name]> tbl in
  let answer :=
    "Task completed successfully! I have opened "
    ++ display (orValue name (JStr address)) ++ " in a new tab for you." in
  resolveOpenTab args = (JStr address, name) ->
  address <> "" ->
  (forall id' r, id' <> id -> tbl !! id' = Some r -> isPending r = false) ->
  requests ≡ₚ tabRequests queued ->
  wait queued = snd (pollRequests chrome requests ext queued) ->
  tabsCreate (chrome id) = true ->
  open_new_tab args clock wait tbl = (Returned answer, delete id tbl)
  /\ tabs (fst (pollRequests chrome requests ext queued))
     = JStr address :: tabs ext
  /\ isSuccessfulStep (mkStep "open_new_tab" (Some answer)) = true.
Proof.
  intros id queued answer Hres Hne Hnp Hperm Hwait Htab.
  pose proof (poll_one_tab chrome requests ext tbl id (JStr address) name
                Hperm Hnp Htab) as Hpoll.
  fold queued in Hpoll. split; [|split].
  - unfold open_new_tab, setPending. rewrite Hres. cbn [truthy].
    destruct address; [contradiction|]. cbn [isEmpty negb]. cbn match.
    fold id. fold queued.
    rewrite Hwait, Hpoll. cbn [snd]. rewrite lookup_insert_eq.
    rewrite completeRequest_status. now rewrite delete_insert_eq.
  - now rewrite Hpoll.
  - apply (success_marker_recognised "open_new_tab" "Task completed successfully"
             ("! I have opened " ++ display (orValue name (JStr address))
              ++ " in a new tab for you."));
      [discriminate|cbn; auto].
Qed.

Lemma open_new_tab_confirmed_witness :
  open_new_tab (mkOpenTabArgs (Some "Gmail") None None) 1700000000000
    (fun t => snd (pollTick (allFine 1700000000500) freshExtension t)) ∅
  = (Returned "Task completed successfully! I have opened Gmail in a new tab for you.",
     ∅)
  /\ tabs (fst (pollTick (allFine 1700000000500) freshExtension
                  (<[requestIdOf 1700000000000 :=
                       pendingTab (JStr "https://mail.google.com") (JStr "Gmail")]> ∅)))
     = [JStr "https://mail.google.com"]
  /\ isSuccessfulStep
       (mkStep "open_new_tab"
          (Some "Task completed successfully! I have opened Gmail in a new tab for you."))
     = true.
Proof.
  destruct (open_new_tab_confirmed (mkOpenTabArgs (Some "Gmail") None None)
           1700000000000
           (fun t => snd (pollTick (allFine 1700000000500) freshExtension t))
           (allFine 1700000000500)
           (tabRequests (<[requestIdOf 1700000000000 :=
                             pendingTab (JStr "https://mail.google.com")
                               (JStr "Gmail")]> ∅))
           freshExtension ∅ "https://mail.google.com" (JStr "Gmail"))
    as (Hanswer & Htabs & Hstep).
  - reflexivity.
  - discriminate.
  - intros id' r _ H. rewrite lookup_empty in H. discriminate.
  - reflexivity.
  - reflexivity.
  - reflexivity.
  - split; [|split].
    + etransitivity; [exact Hanswer|reflexivity].
    + exact Htabs.
    + exact Hstep.
Defined.

Lemma navigate_browser_confirmed_witness :
  navigate_browser "https://example.com" 1700000000000
    (fun t => snd (pollTick (allFine 1700000000500) freshExtension t)) ∅
  = (Returned "Successfully opened https://example.com in a new tab in your current browser window.",
     ∅)
  /\ tabs (fst (pollTick (allFine 1700000000500) freshExtension
                  (<[requestIdOf 1700000000000 :=
                       pendingTab (JStr "https://example.com")
                         (JStr "https://example.com")]> ∅)))
     = [JStr "https://example.com"]
  /\ isSuccessfulStep
       (mkStep "navigate_browser"
          (Some "Successfully opened https://example.com in a new tab in your current browser window."))
     = true.
Proof.
  destruct (navigate_browser_confirmed "https://example.com" 1700000000000
           (fun t => snd (pollTick (allFine 1700000000500) freshExtension t))
           (allFine 1700000000500)
           (tabRequests (<[requestIdOf 1700000000000 :=
                             pendingTab (JStr "https://example.com")
                               (JStr "https://example.com")]> ∅))
           freshExtension ∅) as (Hanswer & Htabs & Hstep).
  - intros id' r _ H. rewrite lookup_empty in H. discriminate.
  - reflexivity.
  - reflexivity.
  - reflexivity.
  - split; [|split].
    + etransitivity; [exact Hanswer|reflexivity].
    + exact Htabs.
    + exact Hstep.
Defined.

Lemma screenshot_saved_and_reported_witness :
  take_screenshot 1700000000000
    (fun _ t => snd (pollTick (allFine 1700000000400) freshExtension t)) ∅
  = (Returned ("Screenshot taken successfully and saved to Downloads folder as "
                 ++ String (ascii_of_nat 34) "screenshot-2023-11-14T22-13-20.png"
                 ++ String (ascii_of_nat 34) ""),
     ∅)
  /\ downloads (fst (pollTick (allFine 1700000000400) freshExtension
                       (<[requestIdOf 1700000000000 := pendingScreenshot]> ∅)))
     = ["screenshot-2023-11-14T22-13-20.png"].
Proof.
  destruct (screenshot_saved_and_reported 1700000000000
              (fun _ t => snd (pollTick (allFine 1700000000400) freshExtension t))
              (allFine 1700000000400)
              (tabRequests (<[requestIdOf 1700000000000 := pendingScreenshot]> ∅))
              freshExtension ∅ "data:image/png;base64,AAAA" 1)
    as (Hanswer & Hdownloads).
  - intros id' r _ H. rewrite lookup_empty in H. discriminate.
  - reflexivity.
  - reflexivity.
  - reflexivity.
  - reflexivity.
  - reflexivity.
  - split.
    + etransitivity; [exact Hanswer|reflexivity].
    + etransitivity; [exact Hdownloads|reflexivity].
Defined.

Lemma screenshot_rate_limit_reported_witness :
  take_screenshot 1700000000000
    (fun _ t => snd (pollTick (allFine 1700000000400) lateExtension t)) ∅
  = (Thrown "Failed to take screenshot: Screenshot rate limit exceeded. Please wait before taking another screenshot.",
     ∅)
  /\ fst (pollTick (allFine 1700000000400) lateExtension
            (<[requestIdOf 1700000000000 := pendingScreenshot]> ∅))
     = lateExtension.
Proof.
  destruct (screenshot_rate_limit_reported 1700000000000
              (fun _ t => snd (pollTick (allFine 1700000000400) lateExtension t))
              (allFine 1700000000400)
              (tabRequests (<[requestIdOf 1700000000000 := pendingScreenshot]> ∅))
              lateExtension ∅)
    as (Hanswer & Hext).
  - intros id' r _ H. rewrite lookup_empty in H. discriminate.
  - reflexivity.
  - reflexivity.
  - reflexivity.
  - split.
    + etransitivity; [exact Hanswer|reflexivity].
    + exact Hext.
Defined.

Lemma failed_capture_reported_witness :
  take_screenshot 1700000000000
    (fun _ t => snd (pollTick (brokenCapture 1700000000400) freshExtension t)) ∅
  = (Thrown "Failed to take screenshot: Cannot access contents of the page", ∅)
  /\ lastScreenshotTime
       (fst (pollTick (brokenCapture 1700000000400) freshExtension
               (<[requestIdOf 1700000000000 := pendingScreenshot]> ∅)))
     = Some 1700000000400.
Proof.
  destruct (failed_capture_reported 1700000000000
              (fun _ t => snd (pollTick (brokenCapture 1700000000400) freshExtension t))
              (brokenCapture 1700000000400)
              (tabRequests (<[requestIdOf 1700000000000 := pendingScreenshot]> ∅))
              freshExtension ∅ "Cannot access contents of the page")
    as (Hanswer & Hlast).
  - intros id' r _ H. rewrite lookup_empty in H. discriminate.
  - reflexivity.
  - reflexivity.
  - reflexivity.
  - reflexivity.
  - split.
    + etransitivity; [exact Hanswer|reflexivity].
    + exact Hlast.
Defined.

Lemma afterWaits_fixed (wait : nat -> Table -> Table) (tbl : Table) :
  (forall n, wait n tbl = tbl) ->
  forall fuel attempts, afterWaits fuel attempts wait tbl = tbl.
Proof.
  intros H. induction fuel as [|fuel IH]; intros attempts; cbn [afterWaits];
    [reflexivity|].
  rewrite H. apply IH.
Qed.

(** Property X26.  A tab request that the browser refuses to open blocks
    every request behind it: the error of [chrome.tabs.create] ends the
    tick, the request stays pending and is the first of every later
    listing.  A screenshot asked for while such a request is the oldest of
    the table times out, whatever the clock and the extension's state. *)
Theorem refused_tab_blocks_the_queue
    (clock : Z) (wait : nat -> Table -> Table) (chrome : nat -> string -> Chrome)
    (order : Table -> list (string * Request)) (ext : nat -> Extension)
    (tbl : Table) (bad : string) (r : Request) :
  let id := requestIdOf clock in
  bad <> id ->
  tbl !! bad = Some r ->
  isPending r = true ->
  isScreenshot r = false ->
  (forall n, tabsCreate (chrome n bad) = false) ->
  (forall t, t !! bad = Some r -> head (order t) = Some (bad, r)) ->
  (forall n t, wait n t = snd (pollRequests (chrome n) (order t) (ext n) t)) ->
  take_screenshot clock wait tbl = (Thrown screenshotTimedOut, delete id tbl).
Proof.
  intros id Hne Hbad Hp Hs Htab Hhead Hwait.
  set (queued := <[id := pendingScreenshot]> tbl).
  assert (Hq : queued !! bad = Some r)
    by (unfold queued; now rewrite lookup_insert_ne by auto).
  assert (Hfix : forall n, wait n queued = queued).
  { intros n. rewrite Hwait. specialize (Hhead queued Hq).
    destruct (order queued) as [|[i x] rest]; [discriminate|].
    injection Hhead as -> ->. cbn [pollRequests].
    now rewrite Hp, Hs, Htab. }
  unfold take_screenshot, setPending. fold id. fold queued.
  rewrite screenshotLoop_never_completed.
  - rewrite afterWaits_fixed by exact Hfix. unfold queued.
    now rewrite delete_insert_eq.
  - intros k _. rewrite afterWaits_fixed by exact Hfix.
    unfold queued. now rewrite lookup_insert_eq.
Qed.

Lemma refused_tab_blocks_the_queue_witness :
  take_screenshot 1700000000000
    (fun n t => snd (pollRequests (refusing n) (oldestFirst t) freshExtension t))
    {[ "1690000000000" := refusedTab ]}
  = (Thrown screenshotTimedOut, {[ "1690000000000" := refusedTab ]}).
Proof.
  etransitivity.
  - apply (refused_tab_blocks_the_queue 1700000000000
             (fun n t => snd (pollRequests (refusing n) (oldestFirst t)
                                freshExtension t))
             refusing oldestFirst (fun _ => freshExtension)
             {[ "1690000000000" := refusedTab ]} "1690000000000" refusedTab).
    + discriminate.
    + reflexivity.
    + reflexivity.
    + reflexivity.
    + reflexivity.
    + intros t H. unfold oldestFirst. now rewrite H.
    + reflexivity.
  - reflexivity.
Defined.

Lemma second_tick_does_nothing_witness :
  pollRequests (allFine 1700000000900)
    (tabRequests (snd (pollTick (allFine 1700000000400) freshExtension oneScreenshot)))
    (fst (pollTick (allFine 1700000000400) freshExtension oneScreenshot))
    (snd (pollTick (allFine 1700000000400) freshExtension oneScreenshot))
  = pollTick (allFine 1700000000400) freshExtension oneScreenshot.
Proof.
  apply (second_tick_does_nothing (allFine 1700000000400) (allFine 1700000000900)
           (tabRequests oneScreenshot)
           (tabRequests (snd (pollTick (allFine 1700000000400) freshExtension
                                oneScreenshot)))
           freshExtension oneScreenshot).
  - reflexivity.
  - reflexivity.
  - reflexivity.
Defined.

(** Property X27.  For a date/time argument without "am", "pm", "noon" or
    "midnight" (such as "June 10th at 12") that resolves to a date well
    inside the range of valid dates, [create_calendar_event] types the
    title and the resolved date, as month name, day and year, and nothing
    into the start-time and end-time fields: the hour of the input is
    dropped. *)
Theorem calendar_event_without_meridiem
    (clock : nat -> Z) (title dateTime : string) :
  dateTime <> "" ->
  includes (toLowerCase dateTime) "am" = false ->
  includes (toLowerCase dateTime) "pm" = false ->
  includes (toLowerCase dateTime) "noon" = false ->
  includes (toLowerCase dateTime) "midnight" = false ->
  validTime (clock 0%nat) -> validTime (clock 1%nat) ->
  validTime (parseDate (clock 0%nat) (clock 1%nat) dateTime) ->
  let targetDate := parseDate (clock 0%nat) (clock 1%nat) dateTime in
  calendarKeys clock title (Some dateTime)
  = ([Typed title; Pressed "Tab"; Pressed "Tab"; Pressed "Enter";
      Typed (longMonth targetDate ++ ", " ++ toString (getDate targetDate)
             ++ ", " ++ toString (getFullYear targetDate));
      Pressed "Tab"; Pressed "Tab"]
     ++ repeat (Pressed "Tab") 10 ++ [Pressed "Enter"])%list.
Proof.
  intros Hne Ham Hpm Hnoon Hmid _ _ Hvalid targetDate.
  unfold calendarKeys, typedWhenGiven, parseDateTimeString. cbn [fst snd].
  rewrite (no_time_without_meridiem dateTime Ham Hpm Hnoon Hmid).
  fold targetDate. unfold formattedDate.
  replace (maxTime <? Z.abs targetDate) with false.
  2:{ symmetry. apply Z.ltb_ge. unfold validTime in Hvalid.
      fold targetDate in Hvalid. unfold maxTime, msPerDay in *. lia. }
  destruct dateTime; [contradiction|]. reflexivity.
Qed.

Lemma calendar_event_without_meridiem_witness :
  calendarKeys (fun _ => thursdayMorning) "Lunch" (Some "June 10th at 12")
  = ([Typed "Lunch"; Pressed "Tab"; Pressed "Tab"; Pressed "Enter";
      Typed "June, 10, 2025"; Pressed "Tab"; Pressed "Tab"]
     ++ repeat (Pressed "Tab") 10 ++ [Pressed "Enter"])%list.
Proof.
  etransitivity.
  - apply (calendar_event_without_meridiem (fun _ => thursdayMorning) "Lunch"
             "June 10th at 12");
      [discriminate | reflexivity | reflexivity | reflexivity | reflexivity
      | vm_compute; discriminate .. ].
  - reflexivity.
Defined.



Lemma slice0_prefix e steps : slice0 e steps `prefix_of` steps.
Proof. unfold slice0. exists (drop (Z.to_nat e) steps). now rewrite take_drop. Qed.

Lemma last_elem_of (steps : list Step) st : last steps = Some st -> st ∈ steps.
Proof.
  intros H. apply last_Some in H as [l ->]. apply elem_of_app. right. left.
Qed.

Lemma prefix_elem_of (kept steps : list Step) st :
  kept `prefix_of` steps -> st ∈ kept -> st ∈ steps.
Proof. intros [k ->] H. apply elem_of_app. now left. Qed.

(** Property X29.  The wrapper around [agent.call] never invents
    anything.  A result without intermediate steps is returned as it is;
    otherwise the steps returned are a prefix of the executor's steps, and
    the output is the executor's output or the observation of one of its
    steps. *)
Theorem wrapper_only_truncates (result : AgentResult) :
  match intermediateSteps result with
  | None => forceStop result = result
  | Some steps =>
      exists kept,
        intermediateSteps (forceStop result) = Some kept
        /\ kept `prefix_of` steps
        /\ (output (forceStop result) = output result
            \/ exists st, st ∈ steps
                 /\ output (forceStop result) = observation st)
  end.
Proof.
  destruct result as [out [steps|]]; [|reflexivity].
  cbn [intermediateSteps]. unfold forceStop. cbn [intermediateSteps output].
  set (first :=
         if 0 <? Z.of_nat (length steps)
         then match List.filter isSuccessfulStep steps with
              | firstSuccess :: _ =>
                  mkResult (observation firstSuccess)
                    (Some (slice0 (indexOf steps firstSuccess + 1) steps))
              | [] => mkResult out (Some steps)
              end
         else mkResult out (Some steps)).
  assert (Hfirst : exists kept,
             intermediateSteps first = Some kept
             /\ kept `prefix_of` steps
             /\ (output first = out
                 \/ exists st, st ∈ steps /\ output first = observation st)).
  { unfold first. destruct (0 <? Z.of_nat (length steps)).
    - destruct (List.filter isSuccessfulStep steps) as [|s rest] eqn:E.
      + exists steps. cbn. auto.
      + eexists. split; [reflexivity|]. split; [apply slice0_prefix|].
        right. exists s. split; [|reflexivity].
        assert (Hin : In s (List.filter isSuccessfulStep steps))
          by (rewrite E; now left).
        apply List.filter_In in Hin as [Hin _]. now apply list_elem_of_In.
    - exists steps. cbn. auto. }
  destruct Hfirst as (kept & Hk & Hpre & Hout).
  clearbody first. destruct first as [out1 steps1]. cbn in Hk, Hout. subst steps1.
  cbn [intermediateSteps output].
  destruct (obsIncludes out1 "Agent stopped due to max iterations"
            && (0 <? Z.of_nat (length kept)));
    [|exists kept; cbn; auto].
  destruct (last kept) as [lastStep|] eqn:El; [|exists kept; cbn; auto].
  destruct (obsIncludes (observation lastStep) "Task completed");
    [|exists kept; cbn; auto].
  exists kept. cbn. split; [reflexivity|]. split; [assumption|].
  right. exists lastStep. split; [|reflexivity].
  eapply prefix_elem_of; [exact Hpre|]. now apply last_elem_of.
Qed.

Lemma digitChar_cases (n : Z) :
  In (digitChar n) ["0"; "1"; "2"; "3"; "4"; "5"; "6"; "7"; "8"; "9"]%char.
Proof.
  unfold digitChar.
  assert (H : 0 <= n mod 10 < 10) by (apply Z.mod_pos_bound; lia).
  assert (E : n mod 10 = 0 \/ n mod 10 = 1 \/ n mod 10 = 2 \/ n mod 10 = 3
              \/ n mod 10 = 4 \/ n mod 10 = 5 \/ n mod 10 = 6 \/ n mod 10 = 7
              \/ n mod 10 = 8 \/ n mod 10 = 9) by lia.
  destruct E as [E|[E|[E|[E|[E|[E|[E|[E|[E|E]]]]]]]]]; rewrite E; cbn; tauto.
Qed.

Lemma digit_not_marker_start (n : Z) :
  Ascii.eqb "T" (digitChar n) = false /\ Ascii.eqb "S" (digitChar n) = false
  /\ Ascii.eqb "a" (digitChar n) = false.
Proof.
  pose proof (digitChar_cases n) as H. cbn [In] in H.
  repeat destruct H as [<-|H]; try (repeat split; reflexivity). destruct H.
Qed.

Ltac name_digits :=
  repeat match goal with
         | |- context [digitChar ?x] =>
             let d := fresh "d" in
             let HT := fresh "HT" in
             let HS := fresh "HS" in
             let Ha := fresh "Ha" in
             destruct (digit_not_marker_start x) as (HT & HS & Ha);
             set (d := digitChar x) in *; clearbody d
         end.

Ltac no_marker :=
  cbn [includes startsWith];
  repeat match goal with
         | H : Ascii.eqb ?a ?d = false |- context [Ascii.eqb ?a ?d] => rewrite H
         end;
  reflexivity.

(** Property X30.  The answers of a successful [take_screenshot] carry
    none of the markers of the agent wrapper: neither the text with the
    file name that the extension chose nor the text without a file name
    is a successful step for the wrapper, nor does the former count as
    "Task completed".  The wrapper therefore never stops the agent on a
    screenshot. *)
Theorem screenshot_answer_not_recognised (t : Z) :
  0 <= t < 253402300800000 ->
  let saved :=
    "Screenshot taken successfully and saved to Downloads folder as "
    ++ String (ascii_of_nat 34) (screenshotFilename t)
    ++ String (ascii_of_nat 34) "" in
  isSuccessfulStep (mkStep "take_screenshot" (Some saved)) = false
  /\ obsIncludes (Some saved) "Task completed" = false
  /\ isSuccessfulStep
       (mkStep "take_screenshot"
          (Some "Screenshot taken successfully using Chrome Extension API"))
     = false.
Proof.
  intros _ saved. subst saved. rewrite screenshotFilename_stamp.
  unfold stamp, pad4, pad3, pad2, isSuccessfulStep, obsIncludes.
  cbn [observation]. cbv [String.append]. cbn [isEmpty negb andb].
  name_digits.
  split; [|split; [|reflexivity]].
  - repeat (apply orb_false_intro); no_marker.
  - no_marker.
Qed.

Lemma screenshot_answer_not_recognised_witness :
  isSuccessfulStep
    (mkStep "take_screenshot"
       (Some ("Screenshot taken successfully and saved to Downloads folder as "
                ++ String (ascii_of_nat 34) (screenshotFilename 1700000000400)
                ++ String (ascii_of_nat 34) ""))) = false
  /\ obsIncludes
       (Some ("Screenshot taken successfully and saved to Downloads folder as "
                ++ String (ascii_of_nat 34) (screenshotFilename 1700000000400)
                ++ String (ascii_of_nat 34) "")) "Task completed" = false
  /\ isSuccessfulStep
       (mkStep "take_screenshot"
          (Some "Screenshot taken successfully using Chrome Extension API"))
     = false.
Proof. apply (screenshot_answer_not_recognised 1700000000400). lia. Defined.
